(** * aquatone: driver, page model and agents, embedded and verified

    Shallow embedding of the Go sources of mk990/aquatone:
    - the driver of package main (target dispatch, clustering pass,
      post-processing),
    - the page model of package core (headers, security flags, base file
      names) and [core/options.go] (command-line options),
    - [agents/tcp_port_scanner.go] and [agents/url_screenshotter.go],
    - the goroutines of the port scanner under a scheduler, the URL
      publisher, the set-up and clean-up of the screenshotter, the tags and
      notes of a page, and [parsers/regex.go].

    Go strings are byte strings ([string]); Go [int] and [time.Duration] are
    64-bit and are kept as [Z] with the wrap-around written out; nil-able
    pointers are [option]s; a [map] is a finite map whose [range] order is an
    input of the model, because Go leaves it unspecified. *)

From Stdlib Require Import ZArith QArith Ascii String Lia.
From stdpp Require Import base list gmap strings pretty.

Local Open Scope Z_scope.

(** ** Go runtime and standard library pieces the sources call *)

Module Go.

(** [int] and [int64] arithmetic wraps around at 64 bits. *)
Definition wrap64 (x : Z) : Z := (x + 2 ^ 63) mod 2 ^ 64 - 2 ^ 63.

Definition mul64 (x y : Z) : Z := wrap64 (x * y).

(** [time.Duration] counts nanoseconds in an [int64]. *)
Definition Nanosecond : Z := 1.
Definition Millisecond : Z := 1000000.
Definition Second : Z := 1000000000.

(** Bytes of a string, as numbers. *)
Fixpoint bytes_of (s : string) : list Z :=
  match s with
  | EmptyString => []
  | String c r => Z.of_N (N_of_ascii c) :: bytes_of r
  end.

(** [strings.ToLower] on ASCII: upper-case letters are shifted, everything
    else is kept.  (Go routes bytes above 127 through the Unicode tables; no
    table of the program contains such a byte.) *)
Definition lower_ascii (c : ascii) : ascii :=
  let n := N_of_ascii c in
  if ((65 <=? n) && (n <=? 90))%N then ascii_of_N (n + 32) else c.

Fixpoint ToLower (s : string) : string :=
  match s with
  | EmptyString => EmptyString
  | String c r => String (lower_ascii c) (ToLower r)
  end.

(** [strings.HasPrefix]. *)
Definition HasPrefix (s p : string) : bool := String.prefix p s.

(** [strings.Replace(s, old, new, 1)] for a one-byte [old]. *)
Fixpoint ReplaceFirst (s : string) (old : ascii) (new : string) : string :=
  match s with
  | EmptyString => EmptyString
  | String c r =>
      if Ascii.eqb c old then new +:+ r else String c (ReplaceFirst r old new)
  end.

(** [strings.Replace(s, old, new, -1)] for a one-byte [old]. *)
Fixpoint ReplaceAll (s : string) (old : ascii) (new : string) : string :=
  match s with
  | EmptyString => EmptyString
  | String c r =>
      if Ascii.eqb c old then new +:+ ReplaceAll r old new
      else String c (ReplaceAll r old new)
  end.

(** [s[0:n]]: a slice past the end of the string panics. *)
Fixpoint slice_to (n : nat) (s : string) : option string :=
  match n, s with
  | O, _ => Some EmptyString
  | S _, EmptyString => None
  | S m, String c r => String c <$> slice_to m r
  end.

(** [fmt.Sprintf("%x", bytes)]: two lower-case hexadecimal digits a byte. *)
Definition hex_digit (d : Z) : ascii :=
  if d <? 10 then ascii_of_N (Z.to_N (48 + d)) else ascii_of_N (Z.to_N (87 + d)).

Fixpoint hex (bs : list Z) : string :=
  match bs with
  | [] => EmptyString
  | b :: r => String (hex_digit (b / 16)) (String (hex_digit (b mod 16)) (hex r))
  end.

(** *** [crypto/sha1] (FIPS 180-4), on 32-bit words kept in [Z] *)

Definition wrap32 (x : Z) : Z := x mod 2 ^ 32.

Definition add32 (x y : Z) : Z := wrap32 (x + y).

Definition rotl32 (n x : Z) : Z :=
  Z.lor (wrap32 (Z.shiftl x n)) (Z.shiftr x (32 - n)).

Definition not32 (x : Z) : Z := Z.lxor x (2 ^ 32 - 1).

(** Big-endian bytes of a number, [n] of them. *)
Fixpoint be_bytes (n : nat) (x : Z) : list Z :=
  match n with
  | O => []
  | S m => (x / 256 ^ Z.of_nat m) mod 256 :: be_bytes m x
  end.

Definition be_word (bs : list Z) : Z :=
  fold_left (fun acc b => acc * 256 + b) bs 0.

Definition sha1_pad (msg : list Z) : list Z :=
  let l := Z.of_nat (length msg) in
  msg ++ [128] ++ repeat 0 (Z.to_nat ((55 - l) mod 64)) ++ be_bytes 8 (8 * l).

(** The sixteen words of a 64-byte block. *)
Fixpoint block_words (n : nat) (bs : list Z) : list Z :=
  match n with
  | O => []
  | S m => be_word (firstn 4 bs) :: block_words m (skipn 4 bs)
  end.

(** Message schedule: [w] grows from 16 to 80 words. *)
Fixpoint schedule (n : nat) (w : list Z) : list Z :=
  match n with
  | O => w
  | S m =>
      let t := length w in
      let x := Z.lxor (Z.lxor (nth (t - 3) w 0) (nth (t - 8) w 0))
                      (Z.lxor (nth (t - 14) w 0) (nth (t - 16) w 0)) in
      schedule m (w ++ [rotl32 1 x])
  end.

Definition sha1_state : Type := Z * Z * Z * Z * Z.

Definition sha1_round (st : sha1_state) (tw : nat * Z) : sha1_state :=
  let '(a, b, c, d, e) := st in
  let '(t, w) := tw in
  let '(f, k) :=
    if (t <? 20)%nat then (Z.lor (Z.land b c) (Z.land (not32 b) d), 1518500249)
    else if (t <? 40)%nat then (Z.lxor (Z.lxor b c) d, 1859775393)
    else if (t <? 60)%nat then
      (Z.lor (Z.lor (Z.land b c) (Z.land b d)) (Z.land c d), 2400959708)
    else (Z.lxor (Z.lxor b c) d, 3395469782) in
  let temp := add32 (add32 (add32 (add32 (rotl32 5 a) f) e) k) w in
  (temp, a, rotl32 30 b, c, d).

Definition sha1_block (h : sha1_state) (block : list Z) : sha1_state :=
  let w := schedule 64 (block_words 16 block) in
  let '(a, b, c, d, e) := fold_left sha1_round (zip (seq 0 80) w) h in
  let '(h0, h1, h2, h3, h4) := h in
  (add32 h0 a, add32 h1 b, add32 h2 c, add32 h3 d, add32 h4 e).

Fixpoint sha1_blocks (n : nat) (h : sha1_state) (bs : list Z) : sha1_state :=
  match n with
  | O => h
  | S m => sha1_blocks m (sha1_block h (firstn 64 bs)) (skipn 64 bs)
  end.

Definition sha1_init : sha1_state :=
  (1732584193, 4023233417, 2562383102, 271733878, 3285377520).

(** [h := sha1.New(); io.WriteString(h, s); h.Sum(nil)]: the 20-byte digest. *)
Definition sha1_Sum (s : string) : list Z :=
  let p := sha1_pad (bytes_of s) in
  let '(h0, h1, h2, h3, h4) := sha1_blocks (length p / 64) sha1_init p in
  be_bytes 4 h0 ++ be_bytes 4 h1 ++ be_bytes 4 h2 ++ be_bytes 4 h3 ++ be_bytes 4 h4.

(** *** [net/url] *)

(** The fields of [url.URL] that the program reads or the claims mention. *)
Record URL := mkURL {
  Scheme : string;
  Opaque : string;
  Host : string;
  Path : string;
  RawQuery : string;
  Fragment : string;
}.

(** [strings.Cut(s, sep)] for a one-byte separator. *)
Fixpoint Cut (s : string) (sep : ascii) : string * string * bool :=
  match s with
  | EmptyString => (EmptyString, EmptyString, false)
  | String c r =>
      if Ascii.eqb c sep then (EmptyString, r, true)
      else let '(b, a, found) := Cut r sep in (String c b, a, found)
  end.

Fixpoint Contains (s : string) (c : ascii) : bool :=
  match s with
  | EmptyString => false
  | String d r => Ascii.eqb d c || Contains r c
  end.

Definition is_letter (c : ascii) : bool :=
  let n := N_of_ascii c in
  (((97 <=? n) && (n <=? 122)) || ((65 <=? n) && (n <=? 90)))%N.

Definition is_scheme_extra (c : ascii) : bool :=
  let n := N_of_ascii c in
  (((48 <=? n) && (n <=? 57)) || (n =? 43) || (n =? 45) || (n =? 46))%N.

(** [getScheme]: [None] is the error "missing protocol scheme"; otherwise the
    scheme (possibly empty) and the rest. [i] is the index of the byte at the
    head of [s], [pre] the bytes before it. *)
Fixpoint getScheme_from (i : nat) (pre : string) (s whole : string)
  : option (string * string) :=
  match s with
  | EmptyString => Some (EmptyString, whole)
  | String c r =>
      if is_letter c then getScheme_from (S i) (pre +:+ String c EmptyString) r whole
      else if is_scheme_extra c then
        match i with
        | O => Some (EmptyString, whole)
        | _ => getScheme_from (S i) (pre +:+ String c EmptyString) r whole
        end
      else if Ascii.eqb c ":" then
        match i with
        | O => None
        | _ => Some (pre, r)
        end
      else Some (EmptyString, whole)
  end.

Definition getScheme (rawURL : string) : option (string * string) :=
  getScheme_from 0 EmptyString rawURL rawURL.

Fixpoint has_ctl_byte (s : string) : bool :=
  match s with
  | EmptyString => false
  | String c r =>
      let n := N_of_ascii c in ((n <? 32) || (n =? 127))%N || has_ctl_byte r
  end.

(** Stand-in for [url.parse(rawURL, viaRequest)], following its steps for
    [scheme://host/path?query]: it agrees with net/url on inputs without
    percent escapes, user information, bracketed hosts and a trailing bare [?],
    and reports an error ([None]) on inputs that contain [%], [@] or a
    bracket, which Go goes on to decode.  The program is verified against an
    arbitrary parser; this one instantiates it on concrete inputs. *)
Definition parse (rawURL : string) (viaRequest : bool) : option URL :=
  if has_ctl_byte rawURL then None
  else if Contains rawURL "%" || Contains rawURL "@" || Contains rawURL "["
          || Contains rawURL "]" then None
  else if String.eqb rawURL EmptyString && viaRequest then None
  else if String.eqb rawURL "*" then Some (mkURL "" "" "" "*" "" "")
  else
    match getScheme rawURL with
    | None => None
    | Some (scheme0, rest0) =>
        let scheme := ToLower scheme0 in
        let '(rest, rawQuery, _) := Cut rest0 "?" in
        if negb (HasPrefix rest "/") && negb (String.eqb scheme EmptyString)
        then Some (mkURL scheme rest "" "" rawQuery "")
        else if negb (HasPrefix rest "/") && viaRequest then None
        else if negb (HasPrefix rest "/")
                && Contains (fst (fst (Cut rest "/"))) ":" then None
        else if (negb (String.eqb scheme EmptyString)
                 || (negb viaRequest && negb (HasPrefix rest "///")))
                && HasPrefix rest "//"
        then
          let authority0 := String.substring 2 (String.length rest - 2) rest in
          let '(authority, after, found) := Cut authority0 "/" in
          let path := if found then String "/" after else EmptyString in
          Some (mkURL scheme "" authority path rawQuery "")
        else Some (mkURL scheme "" "" rest rawQuery "")
    end.

(** [url.Parse]: the fragment is cut off first. *)
Definition Parse (rawURL : string) : option URL :=
  let '(u, frag, _) := Cut rawURL "#" in
  match parse u false with
  | None => None
  | Some url =>
      Some (mkURL (Scheme url) (Opaque url) (Host url) (Path url) (RawQuery url) frag)
  end.

(** [url.ParseRequestURI]. *)
Definition ParseRequestURI (rawURL : string) : option URL := parse rawURL true.

End Go.

(** ** Package core *)

Module Core.

(** *** options.go *)

(** Every option is a pointer in the source; [None] is the nil pointer. *)
Record Options := mkOptions {
  Threads : option Z;
  OutDir : option string;
  SessionPath : option string;
  TemplatePath : option string;
  Proxy : option string;
  ChromePath : option string;
  Resolution : option string;
  Ports : option string;
  ScanTimeout : option Z;
  HTTPTimeout : option Z;
  ScreenshotTimeout : option Z;
  Nmap : option bool;
  SaveBody : option bool;
  Silent : option bool;
  Debug : option bool;
  Version : option bool;
}.

(** What the user wrote on the command line: a flag is either absent or
    carries a value.  (cobra's own parsing is not repository code.) *)
Record CommandLine := mkCommandLine {
  flag_threads : option Z;
  flag_out : option string;
  flag_session : option string;
  flag_template_path : option string;
  flag_ports : option string;
  flag_proxy : option string;
  flag_chrome_path : option string;
  flag_resolution : option string;
  flag_scan_timeout : option Z;
  flag_http_timeout : option Z;
  flag_screenshot_timeout : option Z;
  flag_nmap : option bool;
  flag_save_body : option bool;
  flag_silent : option bool;
  flag_debug : option bool;
  flag_version : option bool;
}.

Definition no_flags : CommandLine :=
  mkCommandLine None None None None None None None None
                None None None None None None None None.

(** [ParseOptions], given [defaultPorts] (the rendering of [MediumPortList],
    declared in a file that is not among the sources): every flag variable
    starts at its default and every field of the result points to its
    variable, so no field is nil. *)
Definition ParseOptions (defaultPorts : string) (cl : CommandLine) : Options :=
  let threads := default 0 (flag_threads cl) in
  let outDir := default "."%string (flag_out cl) in
  let sessionPath := default ""%string (flag_session cl) in
  let templatePath := default ""%string (flag_template_path cl) in
  let ports := default defaultPorts (flag_ports cl) in
  let proxy := default ""%string (flag_proxy cl) in
  let chromePath := default ""%string (flag_chrome_path cl) in
  let resolution := default "1440,900"%string (flag_resolution cl) in
  let scanTimeout := default 100 (flag_scan_timeout cl) in
  let httpTimeout := default 3000 (flag_http_timeout cl) in
  let screenshotTimeout := default 30000 (flag_screenshot_timeout cl) in
  let nmap := default false (flag_nmap cl) in
  let saveBody := default true (flag_save_body cl) in
  let silent := default false (flag_silent cl) in
  let debug := default false (flag_debug cl) in
  let version := default false (flag_version cl) in
  {| Threads := Some threads; OutDir := Some outDir;
     SessionPath := Some sessionPath; TemplatePath := Some templatePath;
     Proxy := Some proxy; ChromePath := Some chromePath;
     Resolution := Some resolution; Ports := Some ports;
     ScanTimeout := Some scanTimeout; HTTPTimeout := Some httpTimeout;
     ScreenshotTimeout := Some screenshotTimeout; Nmap := Some nmap;
     SaveBody := Some saveBody; Silent := Some silent; Debug := Some debug;
     Version := Some version |}.

(** *** Headers *)

Record Header := mkHeader {
  Name : string;
  Value : string;
  DecreasesSecurity : bool;
  IncreasesSecurity : bool;
}.

Definition degradingSecurityHeaders : gmap string (string → bool) :=
  list_to_map [
    ("server"%string, λ value, true);
    ("wpe-backend"%string, λ value, true);
    ("x-powered-by"%string, λ value, true);
    ("x-cf-powered-by"%string, λ value, true);
    ("x-pingback"%string, λ value, true);
    ("access-control-allow-origin"%string, λ value, String.eqb value "*");
    ("x-xss-protection"%string, λ value, negb (Go.HasPrefix value "1"))
  ].

Definition increasingSecurityHeaders : gmap string (string → bool) :=
  list_to_map [
    ("content-security-policy"%string, λ value, true);
    ("content-security-policy-report-only"%string, λ value, true);
    ("strict-transport-security"%string, λ value, true);
    ("x-frame-options"%string, λ value, true);
    ("referrer-policy"%string, λ value, true);
    ("public-key-pins"%string, λ value, true);
    ("x-permitted-cross-domain-policies"%string,
       λ value, String.eqb (Go.ToLower value) "master-only");
    ("x-content-type-options"%string,
       λ value, String.eqb (Go.ToLower value) "nosniff");
    ("x-xss-protection"%string, λ value, Go.HasPrefix value "1")
  ].

Definition decreasesSecurity (h : Header) : bool :=
  let lowerName := Go.ToLower (Name h) in
  match degradingSecurityHeaders !! lowerName with
  | Some checkFunc => checkFunc (Value h)
  | None => false
  end.

Definition increasesSecurity (h : Header) : bool :=
  let lowerName := Go.ToLower (Name h) in
  match increasingSecurityHeaders !! lowerName with
  | Some checkFunc => checkFunc (Value h)
  | None => false
  end.

Definition SetSecurityFlags (h : Header) : Header :=
  if decreasesSecurity h then
    {| Name := Name h; Value := Value h;
       DecreasesSecurity := true; IncreasesSecurity := false |}
  else if increasesSecurity h then
    {| Name := Name h; Value := Value h;
       DecreasesSecurity := false; IncreasesSecurity := true |}
  else
    {| Name := Name h; Value := Value h;
       DecreasesSecurity := false; IncreasesSecurity := false |}.

(** *** Pages *)

Record Tag := mkTag { Text : string; Type_ : string; Link : string; Hash : string }.

Record Note := mkNote { NoteText : string; NoteType : string }.

Record Page := mkPage {
  UUID : string;
  URL : string;
  Hostname : string;
  Addrs : list string;
  Status : string;
  PageTitle : string;
  PageStructure : list string;
  HeadersPath : string;
  BodyPath : string;
  ScreenshotPath : string;
  HasScreenshot : bool;
  Headers : list Header;
  Tags : list Tag;
  Notes : list Note;
}.

Definition AddHeader (p : Page) (name value : string) : Page :=
  let header := SetSecurityFlags (mkHeader name value false false) in
  mkPage (UUID p) (URL p) (Hostname p) (Addrs p) (Status p) (PageTitle p)
         (PageStructure p) (HeadersPath p) (BodyPath p) (ScreenshotPath p)
         (HasScreenshot p) (Headers p ++ [header]) (Tags p) (Notes p).

Definition set_PageStructure (p : Page) (structure : list string) : Page :=
  mkPage (UUID p) (URL p) (Hostname p) (Addrs p) (Status p) (PageTitle p)
         structure (HeadersPath p) (BodyPath p) (ScreenshotPath p)
         (HasScreenshot p) (Headers p) (Tags p) (Notes p).

Definition set_screenshot (p : Page) (path : string) : Page :=
  mkPage (UUID p) (URL p) (Hostname p) (Addrs p) (Status p) (PageTitle p)
         (PageStructure p) (HeadersPath p) (BodyPath p) path
         true (Headers p) (Tags p) (Notes p).

(** The base filename of a parsed URL: the body of [BaseFilename] after
    [u := p.ParsedURL()].  [None] is the panic of a slice out of range. *)
Definition baseFilenameOf (u : Go.URL) : option string :=
  pathHash ← Go.slice_to 16 (Go.hex (Go.sha1_Sum (Go.Path u +:+ Go.Fragment u)));
  let host := Go.ReplaceFirst (Go.Host u) ":" "__" in
  let filename :=
    Go.Scheme u +:+ "__" +:+ Go.ReplaceAll host "." "_" +:+ "__" +:+ pathHash in
  Some (Go.ToLower filename).

Section WithParser.

(** [url.Parse] of the standard library; [None] is a parse error. *)
Variable url_Parse : string → option Go.URL.

(** [ParsedURL] drops the error: on a parse error the result is nil. *)
Definition ParsedURL (p : Page) : option Go.URL := url_Parse (URL p).

(** [BaseFilename]; [None] is a panic (nil dereference). *)
Definition BaseFilename (p : Page) : option string :=
  u ← ParsedURL p; baseFilenameOf u.

End WithParser.

(** *** Session, statistics, event bus and logger

    session.go, stats.go, events.go and logger.go are not among the sources;
    the records below hold what the sources read and write through them. *)

(** Modelled from the spec: the event names of events.go, "a name from the
    closed set SessionStart, SessionEnd, Host, URL, TCPPort, URLResponsive". *)
Module Topic.
Inductive t := SessionStart | SessionEnd | Host | URL | TCPPort | URLResponsive.
End Topic.

(** An argument of [EventBus.Publish(topic, args...)]. *)
Inductive Arg := AString (s : string) | AInt (n : Z).

Record Event := mkEvent { topic : Topic.t; args : list Arg }.

(** Modelled from the spec: the logger of logger.go, by severity; a line is
    kept as its level and format string. *)
Module Out.
Inductive Level := Debug | Info | Important | Warn | Error | Fatal.
End Out.

Definition LogLine : Type := Out.Level * string.

(** Modelled from the spec: the counters of stats.go that the agents below
    increment ("increments PortOpen stat", "increment ScreenshotFailed"). *)
Record Stats := mkStats {
  PortOpen : nat;
  PortClosed : nat;
  ScreenshotSuccessful : nat;
  ScreenshotFailed : nat;
}.

Definition IncrementPortOpen (st : Stats) : Stats :=
  mkStats (S (PortOpen st)) (PortClosed st) (ScreenshotSuccessful st) (ScreenshotFailed st).
Definition IncrementPortClosed (st : Stats) : Stats :=
  mkStats (PortOpen st) (S (PortClosed st)) (ScreenshotSuccessful st) (ScreenshotFailed st).
Definition IncrementScreenshotSuccessful (st : Stats) : Stats :=
  mkStats (PortOpen st) (PortClosed st) (S (ScreenshotSuccessful st)) (ScreenshotFailed st).
Definition IncrementScreenshotFailed (st : Stats) : Stats :=
  mkStats (PortOpen st) (PortClosed st) (ScreenshotSuccessful st) (S (ScreenshotFailed st)).

(** [PageSimilarityClusters] is a [map[string][]string].  Its entries are kept
    in the order in which their keys were first stored, so that the order in
    which a [range] delivers them can be given as a list of positions. *)
Abbreviation Clusters := (list (string * list string)).

(** Modelled from the spec: the Session of session.go, "the parsed options; a
    port list; a mapping URL -> Page; a mapping clusterId -> ordered list of
    URL; the event bus handle" and the statistics; [published] is what has
    gone through [EventBus.Publish], [output] what the logger has printed. *)
Record Session := mkSession {
  options : Options;
  stats : Stats;
  ports : list Z;
  Pages : gmap string Page;
  PageSimilarityClusters : Clusters;
  published : list Event;
  output : list LogLine;
}.

Definition with_stats (s : Session) (st : Stats) : Session :=
  mkSession (options s) st (ports s) (Pages s) (PageSimilarityClusters s)
            (published s) (output s).
Definition with_Pages (s : Session) (pg : gmap string Page) : Session :=
  mkSession (options s) (stats s) (ports s) pg (PageSimilarityClusters s)
            (published s) (output s).
Definition with_clusters (s : Session) (cl : Clusters) : Session :=
  mkSession (options s) (stats s) (ports s) (Pages s) cl (published s) (output s).

(** [s.EventBus.Publish(topic, args...)]. *)
Definition Publish (s : Session) (t : Topic.t) (a : list Arg) : Session :=
  mkSession (options s) (stats s) (ports s) (Pages s) (PageSimilarityClusters s)
            (published s ++ [mkEvent t a]) (output s).

(** [s.Out.<Level>(format, ...)]. *)
Definition log (s : Session) (l : Out.Level) (format : string) : Session :=
  mkSession (options s) (stats s) (ports s) (Pages s) (PageSimilarityClusters s)
            (published s) (output s ++ [(l, format)]).

(** A session as it is when the agents are registered: nothing counted,
    scanned, stored, clustered, published or printed yet. *)
Definition empty_session (o : Options) (portList : list Z) : Session :=
  mkSession o (mkStats 0 0 0 0) portList ∅ [] [] [].

(** Modelled from the spec: Session.GetPage of session.go, the lookup in the
    URL -> Page map; nil when the URL has no page. *)
Definition GetPage (s : Session) (url : string) : option Page := Pages s !! url.

(** Modelled from the spec: GetSimilarity of page_structure.go, "the
    unified-diff-style similarity ratio in [0,1] using a
    longest-common-subsequence-based measure": twice the length of a longest
    common subsequence over the sum of the lengths, and 1 for two empty
    structures.  The clustering pass is verified for an arbitrary similarity;
    this one instantiates it on concrete pages. *)
Fixpoint lcs (a b : list string) : nat :=
  match a with
  | [] => O
  | x :: a' =>
      (fix lcs_b (b : list string) : nat :=
         match b with
         | [] => O
         | y :: b' =>
             if String.eqb x y then S (lcs a' b')
             else Nat.max (lcs a' b) (lcs_b b')
         end) b
  end.

Definition lcs_ratio (a b : list string) : Q :=
  match (length a + length b)%nat with
  | O => 1%Q
  | S n => (Z.of_nat (2 * lcs a b) # Pos.of_succ_nat n)
  end.

End Core.

(** ** Package agents *)

Module Agents.
Import Core.

(** *** tcp_port_scanner.go *)

(** [scanWorker] is a buffered channel used as a semaphore; only its capacity
    matters here.  [None] is the nil channel of a scanner not yet registered. *)
Record TCPPortScanner := mkTCPPortScanner {
  session : option Session;
  scanWorker : option Z;
}.

Definition NewTCPPortScanner : TCPPortScanner := mkTCPPortScanner None None.

(** A call returns, returns an error, or panics. *)
Inductive Outcome (A : Type) :=
| Returned (a : A)
| Failed (err : string)
| Panicked (why : string).
Arguments Returned {A} a.
Arguments Failed {A} err.
Arguments Panicked {A} why.

(** [Register]: [subscribe_err] is the error of [SubscribeAsync], if any.
    [make(chan struct{}, n)] panics for a negative [n]. *)
Definition Register (subscribe_err : option string) (a : TCPPortScanner) (s : Session)
  : Outcome TCPPortScanner :=
  match subscribe_err with
  | Some err => Failed ("failed to subscribe to %s event: %w")
  | None =>
      let concurrentScans :=
        match Threads (options s) with
        | Some threads => threads
        | None => 100
        end in
      if concurrentScans <? 0 then Panicked "makechan: size out of range"
      else Returned (mkTCPPortScanner (Some s) (Some concurrentScans))
  end.

(** The dial timeout of [OnHost] and [scanPort], in nanoseconds; [None] is the
    panic of a nil [ScanTimeout]. *)
Definition scanTimeout (s : Session) : option Z :=
  ms ← ScanTimeout (options s);
  let timeout := Go.mul64 ms Go.Millisecond in
  Some (if timeout <? 5 * Go.Second then 5 * Go.Second else timeout).

(** What the network answers to one call of [scanPort]. *)
Inductive DialResult :=
| DialError (timeout : bool)    (* err != nil *)
| DialNoConn                    (* err == nil and conn == nil *)
| DialConn.                     (* err == nil and a connection *)

Record Attempt := mkAttempt {
  dial : DialResult;
  setReadDeadline_ok : bool;
  read_ok : bool;
  close_ok : bool;
}.

(** What a port goroutine does besides touching the session. *)
Inductive Action :=
| Sleep (d : Z)
| Dial (host : string) (port : Z) (timeout : Z).

Definition ScanState : Type := Session * list Action.

Definition logS (st : ScanState) (l : Out.Level) (format : string) : ScanState :=
  (log st.1 l format, st.2).
Definition act (st : ScanState) (a : Action) : ScanState := (st.1, st.2 ++ [a]).

(** The deferred [conn.Close()] of [scanPort]. *)
Definition close_conn (net : Attempt) (st : ScanState) : ScanState :=
  if close_ok net then st
  else logS st Out.Debug "[%s] Error closing connection for %s:%d: %v\n".

(** [scanPort(ctx, port, host)], with the answers of the network in [net]. *)
Definition scanPort (timeout : Z) (net : Attempt) (port : Z) (host : string)
    (st : ScanState) : bool * ScanState :=
  let st := logS st Out.Debug "[%s] Attempting to connect to %s with timeout %v\n" in
  let st := act st (Dial host port timeout) in
  match dial net with
  | DialError is_timeout =>
      if is_timeout
      then (false, logS st Out.Debug "[%s] Timeout scanning port %d on %s\n")
      else (false, logS st Out.Debug "[%s] Error scanning port %d on %s: %v\n")
  | DialConn =>
      if negb (setReadDeadline_ok net) then
        (false, close_conn net
                  (logS st Out.Debug "[%s] Error setting read deadline for %s:%d: %v\n"))
      else
        let st :=
          if read_ok net then st
          else logS st Out.Debug
                 "[%s] Error reading from connection for %s:%d (this is often expected): %v\n" in
        (true, close_conn net st)
  | DialNoConn => (false, st)
  end.

(** The retry loop of the port goroutine,
    [for attempts := 0; attempts < 2 && !success; attempts++].  [n] bounds the
    number of iterations; [net k] answers the attempt numbered [k]. *)
Fixpoint attemptLoop (n : nat) (timeout : Z) (net : Z → Attempt) (port : Z)
    (host : string) (attempts : Z) (success : bool) (st : ScanState)
  : Z * bool * ScanState :=
  match n with
  | O => (attempts, success, st)
  | S m =>
      if (attempts <? 2) && negb success then
        let st :=
          if 0 <? attempts then
            act (logS st Out.Debug "[%s] Retrying port %d on %s (attempt %d)\n")
                (Sleep (500 * Go.Millisecond))
          else st in
        let '(ok, st) := scanPort timeout (net attempts) port host st in
        let success := if ok then true else success in
        attemptLoop m timeout net port host (attempts + 1) success st
      else (attempts, success, st)
  end.

(** The body of the goroutine that [OnHost] starts for one port, between
    taking and giving back the semaphore slot.  [None] is the panic of a nil
    [ScanTimeout]. *)
Definition scanWorkerBody (net : Z → Attempt) (port : Z) (host : string)
    (st : ScanState) : option ScanState :=
  timeout ← scanTimeout st.1;
  let '(_, success, st) := attemptLoop 2 timeout net port host 0 false st in
  if success then
    let s := with_stats st.1 (IncrementPortOpen (stats st.1)) in
    let s := log s Out.Info "%s: port %s %s\n" in
    Some (Publish s Topic.TCPPort [AInt port; AString host], st.2)
  else
    let s := with_stats st.1 (IncrementPortClosed (stats st.1)) in
    Some (log s Out.Debug "[%s] Port %d is closed on %s\n", st.2).

(** *** url_screenshotter.go *)

(** The deadline that [screenshotPage] gives to the Chrome process, in
    nanoseconds:
    [time.Duration( *a.session.Options.ScreenshotTimeout*1000)*time.Millisecond]. *)
Definition screenshotDeadline (s : Session) : option Z :=
  ms ← ScreenshotTimeout (options s);
  Some (Go.mul64 (Go.mul64 ms 1000) Go.Millisecond).

(** How the Chrome process behaves when left alone. *)
Inductive ChromeRun :=
| StartFails                          (* cmd.Start() returns an error *)
| Exits (after : Z) (status_ok : bool) (* runs for [after] ns, then exits *)
| Hangs.                              (* never exits on its own *)

(** [cmd.Wait()] under [exec.CommandContext(ctx, ...)]: the process is killed
    when the deadline passes before it has exited. *)
Inductive WaitResult := WaitOk | WaitFailed | WaitKilledAtDeadline.

(** [cmd.Start()] and [cmd.Wait()] for a context that expires [deadline]
    nanoseconds from now; [None] is an error of [Start], which also fails
    when the context has expired already. *)
Definition wait_chrome (deadline : Z) (run : ChromeRun) : option WaitResult :=
  if deadline <=? 0 then None
  else
    match run with
    | StartFails => None
    | Exits after status_ok =>
        if deadline <? after then Some WaitKilledAtDeadline
        else if status_ok then Some WaitOk else Some WaitFailed
    | Hangs => Some WaitKilledAtDeadline
    end.

Section WithParser.

Variable url_Parse : string → option Go.URL.

(** [screenshotPage(page)] for the page stored under [url]; the command line
    of Chrome does not bear on the outcome and is left out. [None] is a
    panic. *)
Definition screenshotPage (run : ChromeRun) (url : string) (page : Page) (s : Session)
  : option Session :=
  base ← BaseFilename url_Parse page;
  let filePath := ("screenshots/" +:+ base +:+ ".png")%string in
  deadline ← screenshotDeadline s;
  match wait_chrome deadline run with
  | None =>
      let s := log s Out.Debug "[%s] Error: %v\n" in
      let s := with_stats s (IncrementScreenshotFailed (stats s)) in
      Some (log s Out.Error "%s: screenshot failed: %s\n")
  | Some WaitKilledAtDeadline =>
      let s := with_stats s (IncrementScreenshotFailed (stats s)) in
      let s := log s Out.Debug "[%s] Error: %v\n" in
      Some (log s Out.Error "%s: screenshot timed out\n")
  | Some WaitFailed =>
      let s := with_stats s (IncrementScreenshotFailed (stats s)) in
      let s := log s Out.Debug "[%s] Error: %v\n" in
      Some (log s Out.Error "%s: screenshot failed: %s\n")
  | Some WaitOk =>
      let s := with_stats s (IncrementScreenshotSuccessful (stats s)) in
      let s := log s Out.Info "%s: %s\n" in
      Some (with_Pages s (<[url := set_screenshot page filePath]> (Pages s)))
  end.

(** [OnURLResponsive(url)], with the goroutine run to its end. *)
Definition OnURLResponsive (run : ChromeRun) (url : string) (s : Session)
  : option Session :=
  let s := log s Out.Debug "[%s] Received new responsive URL %s\n" in
  match GetPage s url with
  | None => Some (log s Out.Error "Unable to find page for URL: %s\n")
  | Some page => screenshotPage run url page s
  end.

End WithParser.

End Agents.

(** ** Package main *)

Module Main.
Import Core.

(** [cluster[k]] of a [map[string][]string]: the nil slice when [k] is absent. *)
Fixpoint cl_get (k : string) (m : Clusters) : list string :=
  match m with
  | [] => []
  | (k', v) :: r => if String.eqb k' k then v else cl_get k r
  end.

(** [m[k] = v]: an existing key keeps its place, a new key is stored last. *)
Fixpoint cl_set (k : string) (v : list string) (m : Clusters) : Clusters :=
  match m with
  | [] => [(k, v)]
  | (k', v') :: r => if String.eqb k' k then (k', v) :: r else (k', v') :: cl_set k v r
  end.

(** The entries of [m] in the order in which a [range] visits them, given as
    positions. *)
Definition range_clusters (order : list nat) (m : Clusters) : Clusters :=
  omap (λ i, m !! i) order.

(** [x < 0.80] on similarity ratios. *)
Definition lt_080 (x : Q) : bool := negb (Qle_bool (80 # 100) x).

(** What the Go runtime decides during [analyzePages]: the orders in which
    the first and the second [range currentSession.Pages] deliver the keys
    ([structures_order], [pages_order]), the order in which
    the [k]-th [range currentSession.PageSimilarityClusters] visits the
    clusters, and the [k]-th result of [uuid.New().String()]. *)
Record Runtime := mkRuntime {
  structures_order : list string;
  pages_order : list string;
  clusters_order : nat → list nat;
  uuid_New : nat → string;
}.

(** What the file system answers during post-processing, by file. *)
Record Files := mkFiles {
  urlsFile_opens : bool;                     (* aquatone_urls.txt *)
  urlsFile_writes : string → bool;           (* by URL written *)
  urlsFile_closes : bool;
  bodyFile : string → option (option (list string));
    (* by file name: [None] when [os.Open] fails, [Some None] when
       [GetPageStructure] fails, else the structure it returns *)
  bodyFile_closes : string → bool;
  template_reads : bool;                     (* report template *)
  report_opens : bool;                       (* aquatone_report.html *)
  report_renders : bool;
  report_closes : bool;
  session_saves : bool;                      (* aquatone_session.json *)
}.

Section WithLibraries.

(** [url.Parse] and [url.ParseRequestURI] of the standard library. *)
Variable url_Parse : string → option Go.URL.
Variable url_ParseRequestURI : string → option Go.URL.

(** [core.GetSimilarity] (page_structure.go is not among the sources): the
    ratio of a sequence matcher, a number between 0 and 1. *)
Variable GetSimilarity : list string → list string → Q.

Definition isURL (s : string) : bool :=
  match url_ParseRequestURI s with
  | None => false
  | Some u => negb (String.eqb (Go.Scheme u) "")
  end.

Definition hasSupportedScheme (s : string) : bool :=
  match url_ParseRequestURI s with
  | None => false
  | Some u => String.eqb (Go.Scheme u) "http" || String.eqb (Go.Scheme u) "https"
  end.

(** The body of the loop over the targets in [processTargets]. *)
Definition publishTarget (s : Session) (target : string) : Session :=
  if isURL target then
    if hasSupportedScheme target then Publish s Topic.URL [AString target]
    else s
  else Publish s Topic.Host [AString target].

(** [processTargets]: what the driver hands to the bus.  The two waits
    ([time.Sleep], [WaitAsync], [WaitGroup.Wait]) let the agents run; their
    effect on the session is not replayed here. *)
Definition processTargets (s : Session) (targets : list string) : Session :=
  let s := Publish s Topic.SessionStart [] in
  let s := foldl publishTarget s targets in
  Publish s Topic.SessionEnd [].

(** *** analyzePages, second loop: clustering *)

(** The loop over the URLs of one cluster, with its [break]. *)
Fixpoint addToCluster (s : Session) (page : Page) (cluster : list string) : bool :=
  match cluster with
  | [] => true
  | pageURL :: rest =>
      match GetPage s pageURL with
      | Some page2 =>
          if lt_080 (GetSimilarity (PageStructure page) (PageStructure page2))
          then false
          else addToCluster s page rest
      | None => addToCluster s page rest
      end
  end.

(** The loop over the clusters, with its [break]: the key of the cluster that
    takes the page, if one does. *)
Fixpoint findCluster (s : Session) (page : Page) (visit : Clusters) : option string :=
  match visit with
  | [] => None
  | (clusterUUID, cluster) :: rest =>
      if addToCluster s page cluster then Some clusterUUID
      else findCluster s page rest
  end.

(** One iteration of the loop over the pages.  [order] is the order of this
    iteration's [range] over the clusters, [nu] counts the calls of
    [uuid.New] so far. *)
Definition clusterPage (rt : Runtime) (order : list nat) (page : Page)
    (st : Session * nat) : Session * nat :=
  let '(s, nu) := st in
  let m := PageSimilarityClusters s in
  match findCluster s page (range_clusters order m) with
  | Some clusterUUID =>
      (with_clusters s (cl_set clusterUUID (cl_get clusterUUID m ++ [URL page]) m), nu)
  | None =>
      let newClusterUUID := uuid_New rt nu in
      (with_clusters s (cl_set newClusterUUID [URL page] m), S nu)
  end.

(** The loop over [pages], the values that [range currentSession.Pages]
    delivers; [k] numbers the iterations. *)
Fixpoint clusterLoop (rt : Runtime) (pages : list Page) (k : nat)
    (st : Session * nat) : Session * nat :=
  match pages with
  | [] => st
  | page :: rest => clusterLoop rt rest (S k) (clusterPage rt (clusters_order rt k) page st)
  end.

(** The pages that [range currentSession.Pages] delivers, for the keys in
    [pages_order]. *)
Definition range_Pages (rt : Runtime) (s : Session) : list Page :=
  omap (λ key, Pages s !! key) (pages_order rt).

(** The clustering pass: lines "Clustering similar pages..." to "done". *)
Definition clusterPages (rt : Runtime) (s : Session) : Session :=
  let s := log s Out.Important "Clustering similar pages..." in
  let s := (clusterLoop rt (range_Pages rt s) 0 (s, O)).1 in
  log s Out.Important " done\n".

(** *** analyzePages, first loop: page structures *)

(** [page.URL + "\n"]. *)
Definition line (url : string) : string := url +:+ String (ascii_of_nat 10) "".

(** One iteration for the page stored under [key]; [written] collects what
    has been written to aquatone_urls.txt.  [None] is a panic. *)
Definition structureStep (fs : Files) (st : Session * list string) (key : string)
  : option (Session * list string) :=
  let '(s, written) := st in
  match Pages s !! key with
  | None => Some st
  | Some page =>
      base ← BaseFilename url_Parse page;
      let filename := ("html/" +:+ base +:+ ".html")%string in
      match bodyFile fs filename with
      | None =>
          Some (log s Out.Debug
                  "Skipping structure calculation for %s, failed to open body file: %v\n",
                written)
      | Some gPS =>
          let s :=
            if bodyFile_closes fs filename then s
            else log s Out.Debug "Error closing body file for %s: %v\n" in
          match gPS with
          | None =>
              Some (log s Out.Debug "Error getting page structure for %s: %v\n", written)
          | Some structure =>
              let s := with_Pages s (<[key := set_PageStructure page structure]> (Pages s)) in
              if urlsFile_opens fs then
                if urlsFile_writes fs (URL page) then Some (s, written ++ [line (URL page)])
                else Some (log s Out.Error "Failed to write URL %s to %s: %v\n", written)
              else Some (s, written)
          end
      end
  end.

Fixpoint structuresLoop (fs : Files) (keys : list string) (st : Session * list string)
  : option (Session * list string) :=
  match keys with
  | [] => Some st
  | key :: rest => st' ← structureStep fs st key; structuresLoop fs rest st'
  end.

(** [analyzePages]: the session afterwards and the lines written to
    aquatone_urls.txt; the Go function returns a nil error on every path. *)
Definition analyzePages (fs : Files) (rt : Runtime) (s : Session)
  : option (Session * list string) :=
  let s := log s Out.Important "Calculating page structures..." in
  let s :=
    if urlsFile_opens fs then s else log s Out.Error "Failed to open %s: %v\n" in
  '(s, written) ← structuresLoop fs (structures_order rt) (s, []);
  let s := log s Out.Important " done\n" in
  let s := clusterPages rt s in
  let s :=
    if urlsFile_opens fs && negb (urlsFile_closes fs)
    then log s Out.Error "Error closing %s: %v\n" else s in
  Some (s, written).

(** *** Report, session file and main *)

(** [generateHTMLReport]: the error, if any, and the session (its log). *)
Definition generateHTMLReport (fs : Files) (s : Session) : option string * Session :=
  let s := log s Out.Important "Generating HTML report..." in
  if negb (template_reads fs) then (Some "can't read report template file: %w"%string, s)
  else if negb (report_opens fs) then
    (Some "error opening HTML report file %s: %w"%string, s)
  else if negb (report_renders fs) then
    (Some "error rendering HTML report: %w"%string,
     if report_closes fs then s
     else log s Out.Error "Error closing HTML report file %s: %v\n")
  else
    let s := log s Out.Important " done\n\n" in
    let s := log s Out.Important "Wrote HTML report to: %s\n\n" in
    (None, if report_closes fs then s
           else log s Out.Error "Error closing HTML report file %s: %v\n").

(** [saveSessionAndPrintStats]; it returns a nil error on every path.  (The
    finishing time that [End] records is not part of the model.) *)
Definition saveSessionAndPrintStats (fs : Files) (s : Session) : Session :=
  let s := log s Out.Important "Writing session file..." in
  let s :=
    if session_saves fs then log s Out.Important " done\n"
    else log s Out.Error "Failed to save session file: %v\n" in
  let s := log s Out.Important "Time:\n" in
  let s := log s Out.Info " - Started at  : %v\n" in
  let s := log s Out.Info " - Finished at : %v\n" in
  let s := log s Out.Info " - Duration    : %v\n\n" in
  let s := log s Out.Important "Requests:\n" in
  let s := log s Out.Info " - Successful : %v\n" in
  let s := log s Out.Info " - Failed     : %v\n\n" in
  let s := log s Out.Info " - 2xx : %v\n" in
  let s := log s Out.Info " - 3xx : %v\n" in
  let s := log s Out.Info " - 4xx : %v\n" in
  let s := log s Out.Info " - 5xx : %v\n\n" in
  let s := log s Out.Important "Screenshots:\n" in
  let s := log s Out.Info " - Successful : %v\n" in
  log s Out.Info " - Failed     : %v\n\n".

(** [main] from [processTargets] on, for a session that has been set up and
    whose targets have been read: the exit status of the process, the final
    session and the lines of aquatone_urls.txt.  Returning from [main] is
    exit status 0; [None] is a panic. *)
Definition main_from_targets (fs : Files) (rt : Runtime) (s : Session)
    (targets : list string) : option (Z * Session * list string) :=
  let s := processTargets s targets in
  '(s, written) ← analyzePages fs rt s;
  match generateHTMLReport fs s with
  | (Some err, s) =>
      Some (1, log s Out.Fatal "Error generating HTML report: %v\n", written)
  | (None, s) => Some (0, saveSessionAndPrintStats fs s, written)
  end.

(** What happens before the targets are processed; of these steps the model
    keeps what decides whether and how [main] goes on. *)
Inductive DirStat := StatError | NotADirectory | Directory.

Record Startup := mkStartup {
  newSession : option Session;               (* None: NewSession fails *)
  outDir_stat : DirStat;
  sessionFile_loads : bool;                  (* read and unmarshalled *)
  registerAgents_ok : bool;
  readTargets : option (list string);        (* None: the parser fails *)
}.

(** [loadSessionAndGenerateReport]: whether to stop, the error, the session. *)
Definition loadSessionAndGenerateReport (su : Startup) (fs : Files) (s : Session)
  : option (bool * option string * Session) :=
  sessionPath ← SessionPath (options s);
  if String.eqb sessionPath "" then Some (false, None, s)
  else if negb (sessionFile_loads su) then
    Some (true, Some "unable to read or parse session file at %s: %w"%string, s)
  else
    let s := log s Out.Important "Loaded Aquatone session at %s\n" in
    let s := log s Out.Important "Generating HTML report..." in
    if negb (template_reads fs) then
      Some (true, Some "can't read report template file: %w"%string, s)
    else if negb (report_opens fs) then
      Some (true, Some "error opening report file %s: %w"%string, s)
    else if negb (report_renders fs) then
      Some (true, Some "error rendering report: %w"%string,
            if report_closes fs then s
            else log s Out.Error "Error closing report file %s: %v\n")
    else
      let s := log s Out.Important " done\n\n" in
      let s := log s Out.Important "Wrote HTML report to: %s\n\n" in
      Some (true, None,
            if report_closes fs then s
            else log s Out.Error "Error closing report file %s: %v\n").

(** [main]: the exit status, the session and the lines of aquatone_urls.txt.
    The lines that [readAndParseTargets] and [registerAgents] print are left
    out. *)
Definition main (su : Startup) (fs : Files) (rt : Runtime)
  : option (Z * option Session * list string) :=
  match newSession su with
  | None => Some (1, None, [])
  | Some sess =>
      match Version (options sess) with
      | None => None
      | Some true => Some (0, Some (log sess Out.Info "%s v%s"), [])
      | Some false =>
          match outDir_stat su with
          | StatError | NotADirectory =>
              Some (1, Some (log sess Out.Fatal "Error during initial setup: %v\n"), [])
          | Directory =>
              let sess := log sess Out.Important "%s v%s started at %s\n\n" in
              match loadSessionAndGenerateReport su fs sess with
              | None => None
              | Some (_, Some err, sess) =>
                  Some (1, Some (log sess Out.Fatal
                                   "Error loading session or generating report: %v\n"), [])
              | Some (true, None, sess) => Some (0, Some sess, [])
              | Some (false, None, sess) =>
                  if negb (registerAgents_ok su) then
                    Some (1, Some (log sess Out.Fatal "Error registering agents: %v\n"), [])
                  else
                    match readTargets su with
                    | None | Some [] =>
                        Some (1, Some (log sess Out.Fatal
                                         "Error reading or parsing targets: %v\n"), [])
                    | Some targets =>
                        match main_from_targets fs rt sess targets with
                        | None => None
                        | Some (code, s, written) => Some (code, Some s, written)
                        end
                    end
              end
          end
      end
  end.

End WithLibraries.

End Main.

(** ** Package core: the other methods of pages and tags *)

Module PageMethods.
Import Core.

(** [Tag.HasLink]. *)
Definition HasLink (t : Tag) : bool :=
  if negb (String.eqb (Link t) "") then true else false.

(** [Page.AddTag]: the three strings are written to the hash one after the
    other, which hashes their concatenation. *)
Definition AddTag (p : Page) (text tagType link : string) : Page :=
  let h := Go.sha1_Sum (text +:+ tagType +:+ link) in
  mkPage (UUID p) (URL p) (Hostname p) (Addrs p) (Status p) (PageTitle p)
         (PageStructure p) (HeadersPath p) (BodyPath p) (ScreenshotPath p)
         (HasScreenshot p) (Headers p)
         (Tags p ++ [mkTag text tagType link (Go.hex h)]) (Notes p).

(** [Page.AddNote]. *)
Definition AddNote (p : Page) (text noteType : string) : Page :=
  mkPage (UUID p) (URL p) (Hostname p) (Addrs p) (Status p) (PageTitle p)
         (PageStructure p) (HeadersPath p) (BodyPath p) (ScreenshotPath p)
         (HasScreenshot p) (Headers p) (Tags p) (Notes p ++ [mkNote text noteType]).

End PageMethods.

(** ** Package agents: the goroutines of the port scanner

    [OnHost] starts one goroutine a port, and one more that waits for them.
    A port goroutine blocks where it takes its slot of [scanWorker]; from
    there to its end it runs [scanWorkerBody], gives the slot back and counts
    itself off both wait groups.  The goroutines are run by a scheduler, one
    move at a time. *)

Module PortScan.
Import Core Agents.

(** Where a port goroutine is: before [a.scanWorker <- struct{}{}], holding
    a slot, or returned. *)
Inductive Phase := Waiting | Scanning | Finished.

#[global] Instance Phase_eq_dec : EqDecision Phase.
Proof. solve_decision. Defined.

(** A port goroutine: the call of [OnHost] that started it, its arguments,
    what the network answers to its attempts, and where it is. *)
Record Task := mkTask {
  task_call : nat;
  task_host : string;
  task_port : Z;
  task_net : Z → Attempt;
  phase : Phase;
}.

(** A call of [OnHost] that resolved its host: its [wg] and whether its last
    goroutine has printed that the host is done. *)
Record Call := mkCall { wg : Z; completed : bool }.

(** The scanner at work: the session and the dials and sleeps so far, the
    goroutines, the number of slots taken in [scanWorker] and the counter of
    [session.WaitGroup]. *)
Record Scans := mkScans {
  sc_session : Session;
  sc_actions : list Action;
  tasks : list Task;
  calls : list Call;
  in_use : Z;
  sessionWaitGroup : Z;
}.

Definition start (s : Session) : Scans := mkScans s [] [] [] 0 0.

Definition set_phase (t : Task) (ph : Phase) : Task :=
  mkTask (task_call t) (task_host t) (task_port t) (task_net t) ph.

Definition wg_Add (delta : Z) (c : Call) : Call := mkCall (wg c + delta) (completed c).

(** One round of the loop over the ports:
    [a.session.WaitGroup.Add(); wg.Add(1); go func(port, host) {...}]. *)
Definition spawn (net : nat → Z → Attempt) (call : nat) (host : string)
    (sc : Scans) (port : Z) : Scans :=
  mkScans (sc_session sc) (sc_actions sc)
          (tasks sc ++ [mkTask call host port (net (length (tasks sc))) Waiting])
          (alter (wg_Add 1) call (calls sc))
          (in_use sc) (sessionWaitGroup sc + 1).

(** [OnHost(host)] up to its return; [lookup] is the answer of
    [net.LookupHost] and [net i] what the network answers to the goroutine
    started as number [i].  [None] is the panic of a scanner that was not
    registered. *)
Definition OnHost (a : TCPPortScanner) (net : nat → Z → Attempt) (host : string)
    (lookup : option (list string)) (sc : Scans) : option Scans :=
  match session a with
  | None => None
  | Some _ =>
      let s := log (sc_session sc) Out.Debug "[%s] Received new host: %s\n" in
      match lookup with
      | None =>
          let s := log s Out.Error "[%s] Failed to resolve host %s: %v\n" in
          Some (mkScans s (sc_actions sc) (tasks sc) (calls sc) (in_use sc)
                        (sessionWaitGroup sc))
      | Some ips =>
          let s := log s Out.Debug "[%s] Successfully resolved %s to %v\n" in
          let call := length (calls sc) in
          let sc := mkScans s (sc_actions sc) (tasks sc) (calls sc ++ [mkCall 0 false])
                            (in_use sc) (sessionWaitGroup sc) in
          Some (foldl (spawn net call host) sc (ports s))
      end
  end.

(** A port goroutine takes its slot: a send on a channel blocks while the
    buffer is full, always when there is no buffer, and forever on a nil
    channel. *)
Definition acquire (a : TCPPortScanner) (i : nat) (t : Task) (sc : Scans) : Scans :=
  match scanWorker a with
  | Some capacity =>
      if in_use sc <? capacity then
        mkScans (sc_session sc) (sc_actions sc)
                (<[i := set_phase t Scanning]> (tasks sc)) (calls sc)
                (in_use sc + 1) (sessionWaitGroup sc)
      else sc
  | None => sc
  end.

(** A port goroutine that holds a slot runs to its end; the deferred calls
    give the slot back and count the goroutine off [wg] and
    [session.WaitGroup]. *)
Definition finish (i : nat) (t : Task) (sc : Scans) : option Scans :=
  st ← scanWorkerBody (task_net t) (task_port t) (task_host t)
                      (sc_session sc, sc_actions sc);
  Some (mkScans st.1 st.2 (<[i := set_phase t Finished]> (tasks sc))
                (alter (wg_Add (-1)) (task_call t) (calls sc))
                (in_use sc - 1) (sessionWaitGroup sc - 1)).

Definition runTask (a : TCPPortScanner) (i : nat) (sc : Scans) : option Scans :=
  match tasks sc !! i with
  | None => Some sc
  | Some t =>
      match phase t with
      | Waiting => Some (acquire a i t sc)
      | Scanning => finish i t sc
      | Finished => Some sc
      end
  end.

(** The last goroutine of a call: [wg.Wait()], then one line. *)
Definition runWaiter (k : nat) (sc : Scans) : Scans :=
  match calls sc !! k with
  | None => sc
  | Some c =>
      if negb (completed c) && (wg c =? 0) then
        mkScans (log (sc_session sc) Out.Debug
                     "[%s] Completed scanning all ports for host: %s\n")
                (sc_actions sc) (tasks sc) (<[k := mkCall (wg c) true]> (calls sc))
                (in_use sc) (sessionWaitGroup sc)
      else sc
  end.

(** What happens next: the event bus delivers a host, or the scheduler lets
    a goroutine run to where it blocks or ends. *)
Inductive Move :=
| HostFound (host : string) (lookup : option (list string))
| RunTask (i : nat)
| RunWaiter (k : nat).

Definition step (a : TCPPortScanner) (net : nat → Z → Attempt) (m : Move)
    (sc : Scans) : option Scans :=
  match m with
  | HostFound host lookup => OnHost a net host lookup sc
  | RunTask i => runTask a i sc
  | RunWaiter k => Some (runWaiter k sc)
  end.

Fixpoint run (a : TCPPortScanner) (net : nat → Z → Attempt) (moves : list Move)
    (sc : Scans) : option Scans :=
  match moves with
  | [] => Some sc
  | m :: rest => sc' ← step a net m sc; run a net rest sc'
  end.

End PortScan.

(** ** Package agents: the URL publisher *)

Module Publisher.
Import Core Agents.

Record URLPublisher := mkURLPublisher { session : option Session }.

Definition NewURLPublisher : URLPublisher := mkURLPublisher None.

(** [Register]: [subscribe_err] is the error of [SubscribeAsync], if any. *)
Definition Register (subscribe_err : option string) (a : URLPublisher) (s : Session)
  : Outcome URLPublisher :=
  match subscribe_err with
  | Some err => Failed "failed to subscribe to %s event: %w"
  | None => Returned (mkURLPublisher (Some s))
  end.

(** What [tls.DialWithDialer] answers: an error, or a connection, which
    then closes with or without an error. *)
Inductive TLSDial := TLSError | TLSConn (close_ok : bool).

(** A TLS dial that was made: host, port and the timeout of the dialer. *)
Definition Dialed : Type := string * Z * Z.

Definition PubState : Type := Session * list Dialed.

(** [isTLS(port, host)]: the answer and whether there is an error.  [None]
    is the panic of a nil [HTTPTimeout]. *)
Definition isTLS (tls : TLSDial) (port : Z) (host : string) (st : PubState)
  : option (bool * bool * PubState) :=
  if port =? 80 then Some (false, false, st)
  else if port =? 443 then Some (true, false, st)
  else
    ms ← HTTPTimeout (options st.1);
    let st := (st.1, st.2 ++ [(host, port, Go.mul64 ms Go.Millisecond)]) in
    match tls with
    | TLSError => Some (false, true, st)
    | TLSConn close_ok =>
        let st :=
          if close_ok then st
          else (log st.1 Out.Debug "[%s] Error closing TLS connection for %s:%d: %v\n",
                st.2) in
        Some (true, false, st)
    end.

Section WithHelpers.

(** [HostAndPortToURL(host, port, protocol)], declared in a file of the
    package that is not among the sources. *)
Variable HostAndPortToURL : string → Z → string → string.

(** [OnTCPPort(port, host)]. *)
Definition OnTCPPort (tls : TLSDial) (port : Z) (host : string) (st : PubState)
  : option PubState :=
  let st : PubState :=
    (log st.1 Out.Debug "[%s] Received new open port on %s: %d\n", st.2) in
  '(is_tls, err, st) ← isTLS tls port host st;
  let '(url, st) :=
    if err : bool then
      (HostAndPortToURL host port "http",
       (log st.1 Out.Debug "[%s] Error checking TLS for %s:%d: %v\n", st.2))
    else if is_tls : bool then (HostAndPortToURL host port "https", st)
    else (HostAndPortToURL host port "http", st) in
  Some (Publish st.1 Topic.URL [AString url], st.2).

End WithHelpers.

End Publisher.

(** ** Package parsers: regex.go *)

Module Parsers.

Section RegexParser.

(** [xurls.Relaxed.FindAllString(line, -1)] of the library: the matches of
    the URL pattern in a line, from left to right. *)
Variable FindAllString : string → list string.

(** One round of the inner loop: a target that is in [targetsFilter] is
    skipped, any other is appended and entered in the filter. *)
Definition keep (st : list string * gset string) (target : string)
  : list string * gset string :=
  if decide (target ∈ st.2) then st
  else (st.1 ++ [target], st.2 ∪ {[ target ]}).

(** [Parse(r)]: [lines] are the tokens that [scanner.Scan] delivers before it
    returns false.  The result is the targets and the error, which is nil
    on every path: the error of the scanner is not looked at. *)
Definition Parse (lines : list string) : list string * option string :=
  let st := foldl (λ st line, foldl keep st (FindAllString line)) ([], ∅) lines in
  (st.1, None).

End RegexParser.

End Parsers.

(** ** Package agents: the screenshotter's set-up and clean-up *)

Module Screenshotter.
Import Core Agents.

(** [strings.Contains(s, substr)]. *)
Fixpoint ContainsString (s substr : string) : bool :=
  String.prefix substr s
  || match s with
     | EmptyString => false
     | String _ r => ContainsString r substr
     end.

Definition is_digit (c : ascii) : bool :=
  ((48 <=? N_of_ascii c) && (N_of_ascii c <=? 57))%N.

(** [regexp.MustCompile(`(\d+)\.`).FindStringSubmatch(s)[1]]: the digits of
    the leftmost run of digits that is followed by a dot; [None] when the
    pattern does not match.  [digits] holds the run that ends at the head of
    [s]. *)
Fixpoint FindMajor (s : string) (digits : string) : option string :=
  match s with
  | EmptyString => None
  | String c r =>
      if is_digit c then FindMajor r (digits +:+ String c EmptyString)
      else if Ascii.eqb c "." && negb (String.eqb digits EmptyString) then Some digits
      else FindMajor r EmptyString
  end.

(** The number that a string of digits writes. *)
Fixpoint decimal (acc : Z) (digits : string) : Z :=
  match digits with
  | EmptyString => acc
  | String c r => decimal (10 * acc + (Z.of_N (N_of_ascii c) - 48)) r
  end.

(** [strconv.Atoi] on a string of digits: [None] is the error of a value
    out of the range of [int]. *)
Definition Atoi (digits : string) : option Z :=
  let v := decimal 0 digits in
  if v <? 2 ^ 63 then Some v else None.

Record URLScreenshotter := mkURLScreenshotter {
  session : option Session;
  chromePath : string;
  tempUserDirPath : string;
}.

Definition NewURLScreenshotter : URLScreenshotter := mkURLScreenshotter None "" "".

(** What [os.Stat] answers for a path: no error, the error for which
    [os.IsNotExist] holds, or another error. *)
Inductive Stat := StatOk | StatNotExist | StatOtherError.

(** The machine that the program runs on. *)
Record Machine := mkMachine {
  os_Stat : string → Stat;
  chrome_version : string → option string;
    (* [exec.Command(path, "--version").Output()]; [None] is an error *)
  os_MkdirTemp : option string;       (* [None] is an error *)
  os_RemoveAll : string → bool;       (* [false] is an error *)
}.

(** The session and the temporary directories that exist. *)
Record World := mkWorld { w_session : Session; w_dirs : list string }.

Definition wlog (w : World) (l : Out.Level) (format : string) : World :=
  mkWorld (log (w_session w) l format) (w_dirs w).

(** The error of a call and what the call leaves behind. *)
Definition Result : Type := option string * URLScreenshotter * World.

Definition createTempUserDir (m : Machine) (a : URLScreenshotter) (w : World) : Result :=
  match os_MkdirTemp m with
  | None =>
      (Some "unable to create temporary user directory for Chrome/Chromium browser: %w"%string,
       a, w)
  | Some dir =>
      let w := mkWorld (w_session w) (w_dirs w ++ [dir]) in
      let w := wlog w Out.Debug "[%s] Created temporary user directory at: %s\n" in
      (None, mkURLScreenshotter (session a) (chromePath a) dir, w)
  end.

Definition paths : list string :=
  ["/usr/bin/google-chrome";
   "/usr/bin/google-chrome-beta";
   "/usr/bin/google-chrome-unstable";
   "/usr/bin/chromium-browser";
   "/usr/bin/chromium";
   "/Applications/Google Chrome.app/Contents/MacOS/Google Chrome";
   "/Applications/Google Chrome Canary.app/Contents/MacOS/Google Chrome Canary";
   "/Applications/Chromium.app/Contents/MacOS/Chromium";
   "C:/Program Files (x86)/Google/Chrome/Application/chrome.exe"]%string.

(** The loop over [paths], with its [continue] and its [break]. *)
Fixpoint searchChrome (m : Machine) (ps : list string) (a : URLScreenshotter)
  : URLScreenshotter :=
  match ps with
  | [] => a
  | path :: rest =>
      match os_Stat m path with
      | StatNotExist => searchChrome m rest a
      | _ => mkURLScreenshotter (session a) path (tempUserDirPath a)
      end
  end.

(** The end of [locateChrome]: the version of the binary is looked at. *)
Definition checkVersion (version : string) (w : World) : World :=
  let w := wlog w Out.Debug "[%s] Chrome/Chromium version: %s\n" in
  match FindMajor version EmptyString with
  | None =>
      wlog w Out.Warn
        "Unable to determine version of Chrome/Chromium from output: '%s'. Screenshotting might be unreliable.\n"
  | Some digits =>
      match Atoi digits with
      | None =>
          wlog w Out.Warn
            "Unable to parse major version from '%s': %v. Screenshotting might be unreliable.\n"
      | Some majorVersion =>
          if majorVersion <? 72 then
            wlog w Out.Warn
              "An older version of Chrome/Chromium (version %d) is installed. Screenshotting of HTTPS URLs might be unreliable or fail.\n"
          else w
      end
  end.

(** [locateChrome]; [None] is the panic of a nil [ChromePath]. *)
Definition locateChrome (m : Machine) (a : URLScreenshotter) (w : World)
  : option Result :=
  path ← ChromePath (options (w_session w));
  if negb (String.eqb path "") then
    match os_Stat m path with
    | StatNotExist =>
        Some (Some "chrome path %s specified via -chrome-path does not exist: %w"%string,
              a, w)
    | _ => Some (None, mkURLScreenshotter (session a) path (tempUserDirPath a), w)
    end
  else
    let a := searchChrome m paths a in
    if String.eqb (chromePath a) "" then
      Some (Some "unable to locate a valid installation of Chrome. Install Google Chrome or try specifying a valid location with the -chrome-path option"%string,
            a, w)
    else
      let w := wlog w Out.Debug "[%s] Attempting to use Chrome/Chromium binary at %s\n" in
      let w :=
        if ContainsString (Go.ToLower (chromePath a)) "chrome"
           && negb (ContainsString (Go.ToLower (chromePath a)) "chromium")
        then wlog w Out.Warn
               "Using Google Chrome for screenshots. Install Chromium for potentially better results and stability.\n"
        else w in
      match chrome_version m (chromePath a) with
      | None =>
          Some (Some "failed to execute %s --version: %w. Ensure it is a valid Chrome/Chromium executable"%string,
                a, w)
      | Some version => Some (None, a, checkVersion version w)
      end.

(** [Register]: [sub_responsive] and [sub_end] are the errors of the two
    calls of [SubscribeAsync], if any. *)
Definition Register (sub_responsive sub_end : option string) (m : Machine)
    (a : URLScreenshotter) (w : World) : option Result :=
  match sub_responsive with
  | Some err => Some (Some "failed to subscribe to %s event: %w"%string, a, w)
  | None =>
      let w :=
        match sub_end with
        | Some err => wlog w Out.Error "[%s] Failed to subscribe to %s event: %v\n"
        | None => w
        end in
      let a := mkURLScreenshotter (Some (w_session w)) (chromePath a) (tempUserDirPath a) in
      match createTempUserDir m a w with
      | (Some err, a, w) =>
          Some (Some "failed to create temporary user directory: %w"%string, a, w)
      | (None, a, w) =>
          '(err, a, w) ← locateChrome m a w;
          match err with
          | Some err => Some (Some "failed to locate Chrome: %w"%string, a, w)
          | None => Some (None, a, w)
          end
      end
  end.

(** [os.RemoveAll(path)] on the directories that exist. *)
Definition remove_dir (path : string) (dirs : list string) : list string :=
  filter (λ d, d ≠ path) dirs.

(** [OnSessionEnd]. *)
Definition OnSessionEnd (m : Machine) (a : URLScreenshotter) (w : World) : World :=
  let w := wlog w Out.Debug "[%s] Received SessionEnd event\n" in
  if os_RemoveAll m (tempUserDirPath a) then
    let w := mkWorld (w_session w) (remove_dir (tempUserDirPath a) (w_dirs w)) in
    wlog w Out.Debug "[%s] Deleted temporary user directory at: %s\n"
  else
    wlog w Out.Error "[%s] Failed to delete temporary user directory %s: %v\n".

End Screenshotter.

(** ** Package core: making a page *)

Module NewPages.
Import Core.

Section WithLibraries.

(** [url.Parse], the method [Hostname] of [url.URL] and
    [net.ParseIP(...) != nil] of the standard library. *)
Variable url_Parse : string → option Go.URL.
Variable URL_Hostname : Go.URL → string.
Variable net_ParseIP : string → bool.

(** [NewPage(pageURL)], given the result of [uuid.New().String()]; [None] is
    the error of [url.Parse]. *)
Definition NewPage (uuid : string) (pageURL : string) : option Page :=
  match url_Parse pageURL with
  | None => None
  | Some u =>
      Some (mkPage uuid pageURL (URL_Hostname u) [] "" "" [] "" "" "" false [] [] [])
  end.

(** [IsIPHost]; [None] is a panic (nil dereference). *)
Definition IsIPHost (p : Page) : option bool :=
  u ← ParsedURL url_Parse p; Some (net_ParseIP (URL_Hostname u)).

End WithLibraries.

End NewPages.

(** * Vocabulary of the statements *)

Section Vocabulary.
Import Core Agents Main.

(** [scanPort] answers true exactly when the dial gave a connection and the
    read deadline could be set; the read and the close do not count. *)
Definition attempt_ok (n : Attempt) : Prop :=
  dial n = DialConn ∧ setReadDeadline_ok n = true.

(** The same, as a test. *)
Definition attempt_okb (n : Attempt) : bool :=
  match dial n with DialConn => setReadDeadline_ok n | _ => false end.

(** The event [TCPPort(port, host)]. *)
Definition TCPPort_event (port : Z) (host : string) : Event :=
  mkEvent Topic.TCPPort [AInt port; AString host].

(** The port is reported open: one more open port, a [TCPPort] event. *)
Definition reported_open (s s' : Session) (port : Z) (host : string) : Prop :=
  PortOpen (stats s') = S (PortOpen (stats s))
  ∧ PortClosed (stats s') = PortClosed (stats s)
  ∧ published s' = published s ++ [TCPPort_event port host].

(** The port is reported closed: one more closed port, nothing published. *)
Definition reported_closed (s s' : Session) : Prop :=
  PortClosed (stats s') = S (PortClosed (stats s))
  ∧ PortOpen (stats s') = PortOpen (stats s)
  ∧ published s' = published s.

(** What the driver publishes for one target. *)
Definition target_events (url_ParseRequestURI : string → option Go.URL)
    (target : string) : list Event :=
  if isURL url_ParseRequestURI target then
    if hasSupportedScheme url_ParseRequestURI target then [mkEvent Topic.URL [AString target]] else []
  else [mkEvent Topic.Host [AString target]].

(** A number that is a byte. *)
Definition is_byte (b : Z) : Prop := 0 ≤ b < 256.

(** The 16 hexadecimal digits at the end of a base file name. *)
Definition pathHash (u : Go.URL) : option string :=
  Go.slice_to 16 (Go.hex (Go.sha1_Sum (Go.Path u +:+ Go.Fragment u))).

(** The part of a base file name before the hash. *)
Definition filenamePrefix (u : Go.URL) : string :=
  Go.Scheme u +:+ "__"
    +:+ Go.ReplaceAll (Go.ReplaceFirst (Go.Host u) ":" "__") "." "_" +:+ "__".

(** The logger only ever appends. *)
Definition grows (s s' : Session) : Prop := ∃ l, output s' = output s ++ l.

(** Every stored page has a URL that parses: [NewPage] has parsed it. *)
Definition pages_parse (url_Parse : string → option Go.URL) (s : Session) : Prop :=
  ∀ key page, Pages s !! key = Some page → is_Some (url_Parse (URL page)).

(** The report can be produced: its template is read, its file is opened
    and it is rendered. *)
Definition report_ok (fs : Files) : bool :=
  template_reads fs && report_opens fs && report_renders fs.

(** The page has similarity at least 0.80 with every page of the cluster. *)
Definition similar_to_all (GetSimilarity : list string → list string → Q)
    (s : Session) (page : Page) (cluster : list string) : Prop :=
  ∀ pageURL, pageURL ∈ cluster →
    ∃ page2, GetPage s pageURL = Some page2
             ∧ (80 # 100 <= GetSimilarity (PageStructure page) (PageStructure page2))%Q.

(** Every member of every cluster is the URL of a page of the session. *)
Definition members_known (s : Session) (m : Clusters) : Prop :=
  ∀ k c u, (k, c) ∈ m → u ∈ c → is_Some (GetPage s u).

(** The first position in [order] whose cluster takes the page. *)
Fixpoint find_pos (accept : list string → bool) (order : list nat)
    (vs : list (list string)) : option nat :=
  match order with
  | [] => None
  | i :: rest =>
      match vs !! i with
      | Some c => if accept c then Some i else find_pos accept rest vs
      | None => find_pos accept rest vs
      end
  end.

(** One iteration of the clustering loop on the clusters alone, by position:
    [accept] says whether a cluster takes the page, [u] is the page's URL. *)
Definition step_values (accept : list string → bool) (order : list nat)
    (u : string) (vs : list (list string)) : list (list string) :=
  match find_pos accept order vs with
  | Some i => alter (λ c, c ++ [u]) i vs
  | None => vs ++ [[u]]
  end.

(** The clustering loop on the clusters alone. *)
Fixpoint values_loop (accept : Page → list string → bool) (orders : nat → list nat)
    (pages : list Page) (k : nat) (vs : list (list string)) : list (list string) :=
  match pages with
  | [] => vs
  | page :: rest =>
      values_loop accept orders rest (S k)
                  (step_values (accept page) (orders k) (URL page) vs)
  end.

(** The UUIDs that [rt] draws are new: distinct from each other and from the
    keys that the cluster map [m] has already. *)
Definition fresh_for (rt : Runtime) (m : Clusters) : Prop :=
  NoDup m.*1 ∧ Inj (=) (=) (uuid_New rt) ∧ ∀ n, uuid_New rt n ∉ m.*1.

(** The keys after [nu] draws on top of the keys [keys0]. *)
Definition keys_after (rt : Runtime) (keys0 : list string) (nu : nat) : list string :=
  keys0 ++ (uuid_New rt <$> seq 0 nu).

(** Whether some cluster holds both URLs. *)
Definition together (m : Clusters) (u v : string) : bool :=
  existsb (λ e : string * list string,
             bool_decide (u ∈ e.2) && bool_decide (v ∈ e.2)) m.

(** The same URLs are clustered together. *)
Definition same_partition (m1 m2 : Clusters) : Prop :=
  ∀ u v, together m1 u v = together m2 u v.

End Vocabulary.

(** * Sample sessions, runtimes and pages *)

Section Samples.
Import Core Agents Main.

(** UUIDs that are told apart by a counter. *)
Definition uuid_seq (run : string) (n : nat) : string := run +:+ pretty n.

(** The options of a run without any flag, for a default port list. *)
Definition default_options : Options := ParseOptions "80,443,8000,8080,8443" no_flags.

(** A firewall that accepts the handshake and then drops everything: the
    read fails, the port is still open on the first attempt. *)
Definition net_read_fails : Z → Attempt := λ _, mkAttempt DialConn true false true.

(** One responsive page and the session that holds it. *)
Definition example_page : Page :=
  mkPage "page-1" "http://example.com/" "example.com" [] "200 OK" "" []
         "" "" "" false [] [] [].

Definition example_session : Session :=
  with_Pages (empty_session default_options [80])
             {[ "http://example.com/"%string := example_page ]}.

(** A page that has nothing but its URL. *)
Definition page_at (url : string) : Page :=
  mkPage "" url "" [] "" "" [] "" "" "" false [] [] [].

(** A run in which aquatone_urls.txt cannot be opened and the session file
    cannot be written, while the report is rendered. *)
Definition files_urls_and_session_fail : Files :=
  mkFiles false (λ _, true) true (λ _, Some (Some ["0:html"; "1:body"]%string))
          (λ _, true) true true true true false.

(** The runtime of a run over [example_session]. *)
Definition runtime_in_order : Runtime :=
  mkRuntime ["http://example.com/"%string] ["http://example.com/"%string]
            (λ _, seq 0 8) (uuid_seq "cluster-").

(** Three pages: [page_p] has the bare skeleton, [page_a] and [page_q] each
    add two elements of their own, so each is like [page_p] (similarity
    14/16) and they are unlike each other (14/18). *)
Definition skeleton : list string :=
  ["0:html"; "1:head"; "2:title"; "1:body"; "2:div"; "3:p"; "3:a"]%string.

Definition url_a : string := "http://a.example/".
Definition url_p : string := "http://p.example/".
Definition url_q : string := "http://q.example/".

Definition page_with (url : string) (structure : list string) : Page :=
  mkPage "" url "" [] "200 OK" "" structure "" "" "" false [] [] [].

Definition page_a : Page := page_with url_a (skeleton ++ ["2:footer"; "3:span"]%string).
Definition page_p : Page := page_with url_p skeleton.
Definition page_q : Page := page_with url_q (skeleton ++ ["2:table"; "3:tr"]%string).

Definition three_pages : Session :=
  with_Pages (empty_session default_options [])
             (list_to_map [(url_a, page_a); (url_p, page_p); (url_q, page_q)]).

(** Pages by URL, clusters oldest first. *)
Definition rt_sorted (run : string) : Runtime :=
  mkRuntime [url_a; url_p; url_q] [url_a; url_p; url_q] (λ _, [0; 1; 2]%nat)
            (uuid_seq run).

(** Pages in the opposite order, clusters oldest first. *)
Definition rt_reversed (run : string) : Runtime :=
  mkRuntime [url_q; url_p; url_a] [url_q; url_p; url_a] (λ _, [0; 1; 2]%nat)
            (uuid_seq run).

(** Pages by URL, clusters newest first. *)
Definition rt_newest_first (run : string) : Runtime :=
  mkRuntime [url_a; url_p; url_q] [url_a; url_p; url_q] (λ _, [2; 1; 0]%nat)
            (uuid_seq run).

(** The state in which the third page, [page_q], is clustered. *)
Definition two_clustered : Session :=
  with_clusters three_pages [("a-0"%string, [url_a; url_p])].

End Samples.

(** * Vocabulary of the further properties *)

Section MoreVocabulary.
Import Core Agents Main.

(** A header that does not carry both flags. *)
Definition exclusive (h : Header) : Prop :=
  DecreasesSecurity h && IncreasesSecurity h = false.

(** The header that [AddHeader] makes of a name and a value. *)
Definition header_of (nv : string * string) : Header :=
  SetSecurityFlags (mkHeader nv.1 nv.2 false false).

(** A call of one of the three methods that add to a page, and a sequence of
    such calls made on a page one after the other. *)
Inductive PageCall :=
| CallAddHeader (name value : string)
| CallAddTag (text tagType link : string)
| CallAddNote (text noteType : string).

Definition do_call (p : Page) (c : PageCall) : Page :=
  match c with
  | CallAddHeader name value => AddHeader p name value
  | CallAddTag text tagType link => PageMethods.AddTag p text tagType link
  | CallAddNote text noteType => PageMethods.AddNote p text noteType
  end.

(** What a sequence of calls adds to each of the three lists. *)
Definition headers_of (calls : list PageCall) : list Header :=
  omap (λ c, match c with
             | CallAddHeader name value => Some (header_of (name, value))
             | _ => None
             end) calls.

Definition tags_of (calls : list PageCall) : list Tag :=
  omap (λ c, match c with
             | CallAddTag text tagType link =>
                 Some (mkTag text tagType link
                             (Go.hex (Go.sha1_Sum (text +:+ tagType +:+ link))))
             | _ => None
             end) calls.

Definition notes_of (calls : list PageCall) : list Note :=
  omap (λ c, match c with
             | CallAddNote text noteType => Some (mkNote text noteType)
             | _ => None
             end) calls.

(** The sixteen digits that [%x] prints, and the strings made of them. *)
Definition hex_char (c : ascii) : Prop :=
  c ∈ list_ascii_of_string "0123456789abcdef".

Definition is_hex (s : string) : Prop := Forall hex_char (list_ascii_of_string s).



End MoreVocabulary.

(** * Vocabulary of the port scans *)

Section ScanVocabulary.
Import Core Agents PortScan.

(** The goroutine finds its port open: its first or its second attempt gets
    a connection and sets the read deadline. *)
Definition port_open (t : Task) : bool :=
  attempt_okb (task_net t 0) || attempt_okb (task_net t 1).

Definition in_phase (ph : Phase) (ts : list Task) : list Task :=
  filter (λ t, phase t = ph) ts.

Definition unfinished (ts : list Task) : list Task :=
  filter (λ t, phase t ≠ Finished) ts.

(** The goroutines that have returned, by what they found. *)
Definition counted (open : bool) (ts : list Task) : list Task :=
  filter (λ t, phase t = Finished ∧ port_open t = open) ts.

Definition of_call (k : nat) (ts : list Task) : list Task :=
  filter (λ t, task_call t = k) ts.

Definition task_event (t : Task) : Event := TCPPort_event (task_port t) (task_host t).

(** The number of slots of the semaphore of a scanner. *)
Definition slots (a : TCPPortScanner) : Z :=
  match scanWorker a with
  | Some capacity => Z.max 0 capacity
  | None => 0
  end.

(** The slots taken are the goroutines that scan, and there are no more of
    them than the semaphore has slots. *)
Definition slots_ok (a : TCPPortScanner) (sc : Scans) : Prop :=
  in_use sc = Z.of_nat (length (in_phase Scanning (tasks sc)))
  ∧ in_use sc ≤ slots a.

(** The books of a scan that started from the session [s0]. *)
Definition accounts_ok (s0 : Session) (sc : Scans) : Prop :=
  sessionWaitGroup sc = Z.of_nat (length (unfinished (tasks sc)))
  ∧ options (sc_session sc) = options s0
  ∧ ports (sc_session sc) = ports s0
  ∧ Pages (sc_session sc) = Pages s0
  ∧ stats (sc_session sc)
    = mkStats (PortOpen (stats s0) + length (counted true (tasks sc)))
              (PortClosed (stats s0) + length (counted false (tasks sc)))
              (ScreenshotSuccessful (stats s0)) (ScreenshotFailed (stats s0))
  ∧ published (sc_session sc)
    ≡ₚ published s0 ++ (task_event <$> counted true (tasks sc)).

(** The wait group of every call counts the goroutines of the call that
    have not returned, and is at zero once the call is completed. *)
Definition calls_ok (sc : Scans) : Prop :=
  Forall (λ t, (task_call t < length (calls sc))%nat) (tasks sc)
  ∧ ∀ k c, calls sc !! k = Some c →
           wg c = Z.of_nat (length (unfinished (of_call k (tasks sc))))
           ∧ (completed c = true → wg c = 0).

(** No goroutine has taken a slot yet: nothing of the session that the
    scans write has changed, and every call waits for all its ports. *)
Definition idle (s0 : Session) (sc : Scans) : Prop :=
  Forall (λ t, phase t = Waiting) (tasks sc)
  ∧ in_use sc = 0
  ∧ stats (sc_session sc) = stats s0
  ∧ published (sc_session sc) = published s0
  ∧ ports (sc_session sc) = ports s0
  ∧ sessionWaitGroup sc = Z.of_nat (length (tasks sc))
  ∧ Forall (λ c, wg c = Z.of_nat (length (ports s0))
                 ∧ (completed c = true → wg c = 0)) (calls sc).

(** The hosts among the moves that resolve. *)
Definition resolves (m : Move) : bool :=
  match m with HostFound _ (Some _) => true | _ => false end.

Definition resolved (moves : list Move) : nat :=
  length (filter (λ m, resolves m = true) moves).

(** Every goroutine runs, in the order in which they were started: taking
    the slot is one move, the scan the next. *)
Definition one_by_one (n : nat) : list Move :=
  flat_map (λ i, [RunTask i; RunTask i]) (seq 0 n).

End ScanVocabulary.

(** * Sample scans *)

Section ScanSamples.
Import Core Agents PortScan.

(** A run with [--threads n] over three ports, and its registered scanner. *)
Definition scan_session (n : Z) : Session :=
  empty_session
    (ParseOptions "80,443,8000,8080,8443"
       (mkCommandLine (Some n) None None None None None None None
                      None None None None None None None None))
    [80; 443; 8080].

Definition scanner (n : Z) : TCPPortScanner :=
  mkTCPPortScanner (Some (scan_session n)) (Some n).

(** The scanner of a run without [--threads]. *)
Definition default_scanner : TCPPortScanner :=
  mkTCPPortScanner (Some (empty_session default_options [80; 443])) (Some 0).

(** A network on which the first goroutine finds its port open, at once,
    and every other goroutine is refused twice. *)
Definition net_first_open : nat → Z → Attempt :=
  λ i _, match i with
         | O => mkAttempt DialConn true true true
         | _ => mkAttempt (DialError false) true true true
         end.

(** One host; two goroutines take the two slots, the third has to wait
    until the first has returned. *)
Definition two_at_a_time : list Move :=
  [HostFound "example.com" (Some ["192.0.2.7"%string]);
   RunTask 0; RunTask 1; RunTask 2; RunTask 0; RunTask 2].

(** A host that resolves and one that does not, and every goroutine given
    all the time it wants. *)
Definition two_hosts : list Move :=
  [HostFound "example.com" (Some ["192.0.2.7"%string]);
   HostFound "nowhere.invalid" None;
   RunTask 0; RunTask 1; RunTask 0; RunTask 1; RunTask 2; RunTask 2;
   RunWaiter 0].

(** The scanner after these moves. *)
Definition after (n : Z) (moves : list Move) : Scans :=
  default (start (scan_session n))
          (run (scanner n) net_first_open moves (start (scan_session n))).

End ScanSamples.

(** * Vocabulary and samples of the screenshotter *)

Section ScreenshotVocabulary.
Import Core Agents Screenshotter.

Definition all_digits (s : string) : Prop :=
  Forall (λ c, is_digit c = true) (list_ascii_of_string s).

Definition no_digits (s : string) : Prop :=
  Forall (λ c, is_digit c = false) (list_ascii_of_string s).

(** The lines that the two warnings about the binary print. *)
Definition warn_google_chrome : LogLine :=
  (Out.Warn,
   "Using Google Chrome for screenshots. Install Chromium for potentially better results and stability.\n"%string).

Definition warn_old_version : LogLine :=
  (Out.Warn,
   "An older version of Chrome/Chromium (version %d) is installed. Screenshotting of HTTPS URLs might be unreliable or fail.\n"%string).

Definition warn_unparsed_version : LogLine :=
  (Out.Warn,
   "Unable to parse major version from '%s': %v. Screenshotting might be unreliable.\n"%string).

Definition debug_version : LogLine :=
  (Out.Debug, "[%s] Chrome/Chromium version: %s\n"%string).

(** The paths of [paths] that name a Google Chrome. *)
Definition google_chrome_paths : list string :=
  ["/usr/bin/google-chrome";
   "/usr/bin/google-chrome-beta";
   "/usr/bin/google-chrome-unstable";
   "/Applications/Google Chrome.app/Contents/MacOS/Google Chrome";
   "/Applications/Google Chrome Canary.app/Contents/MacOS/Google Chrome Canary";
   "C:/Program Files (x86)/Google/Chrome/Application/chrome.exe"]%string.

(** The screenshot has been taken: Chrome has exited by itself, with
    status 0, before [seconds] seconds are over. *)
Definition chrome_in_time (run : ChromeRun) (seconds : Z) : Prop :=
  ∃ after, run = Exits after true ∧ after ≤ seconds * Go.Second.

(** A Linux machine with Google Chrome 120 and Chromium 71 installed. *)
Definition linux_both : Machine :=
  mkMachine
    (λ p, if String.eqb p "/usr/bin/google-chrome" || String.eqb p "/usr/bin/chromium"
          then StatOk else StatNotExist)
    (λ p, if String.eqb p "/usr/bin/google-chrome"
          then Some "Google Chrome 120.0.6099.109"%string
          else Some "Chromium 71.0.3578.98"%string)
    (Some "/tmp/aquatone-chrome123"%string)
    (λ _, true).

(** A machine without any browser. *)
Definition no_browser : Machine :=
  mkMachine (λ _, StatNotExist) (λ _, None) (Some "/tmp/aquatone-chrome123"%string)
            (λ _, true).

End ScreenshotVocabulary.

(** * Vocabulary of the clusters *)

Section ClusterVocabulary.
Import Core Main.

(** Every member of every cluster has a page, and its page is similar, at
    0.80 or more, to the page of every member that is before it in the
    cluster. *)
Definition like_its_predecessors (GetSimilarity : list string → list string → Q)
    (s : Session) (m : Clusters) : Prop :=
  ∀ k c l1 u l2, (k, c) ∈ m → c = l1 ++ u :: l2 →
    ∃ page, GetPage s u = Some page ∧ similar_to_all GetSimilarity s page l1.

(** Every page is stored under its own URL. *)
Definition keyed_by_URL (s : Session) : Prop :=
  ∀ key page, Pages s !! key = Some page → URL page = key.

End ClusterVocabulary.

(** * Vocabulary of the structure pass *)

Section StructureVocabulary.
Import Core Main.

(** The same page, but for its structure. *)
Definition same_but_structure (p p' : Page) : Prop :=
  ∃ structure, p' = set_PageStructure p structure.

(** What the structure pass leaves alone. *)
Definition same_but_pages (s s' : Session) : Prop :=
  options s' = options s ∧ stats s' = stats s ∧ ports s' = ports s
  ∧ PageSimilarityClusters s' = PageSimilarityClusters s
  ∧ published s' = published s.

End StructureVocabulary.

(** * Properties *)

(** ** Test vectors

    Digests of FIPS 180, parses of net/url, and the file names that
    core/session_test.go expects. *)

Example sha1_empty :
  Go.hex (Go.sha1_Sum "") = "da39a3ee5e6b4b0d3255bfef95601890afd80709"%string.
Proof. vm_compute. reflexivity. Qed.

Example sha1_abc :
  Go.hex (Go.sha1_Sum "abc") = "a9993e364706816aba3e25717850c26c9cd0d89d"%string.
Proof. vm_compute. reflexivity. Qed.

Example parse_port : Go.Parse "http://example.com:8080/path?x=1#frag"
  = Some (Go.mkURL "http" "" "example.com:8080" "/path" "x=1" "frag").
Proof. vm_compute. reflexivity. Qed.

Example parse_request_hostport :
  Go.ParseRequestURI "example.com:8080" = Some (Go.mkURL "example.com" "8080" "" "" "" "").
Proof. vm_compute. reflexivity. Qed.

Example parse_request_bare : Go.ParseRequestURI "example.com" = None.
Proof. vm_compute. reflexivity. Qed.

Example base_simple :
  Core.baseFilenameOf (Go.mkURL "http" "" "example.com" "" "" "")
  = Some "http__example_com__da39a3ee5e6b4b0d"%string.
Proof. vm_compute. reflexivity. Qed.
Example base_port :
  (Go.Parse "http://example.com:8080/path" ≫= Core.baseFilenameOf)
  = Some "http__example_com__8080__4f26609ad3f5185f"%string.
Proof. vm_compute. reflexivity. Qed.
Example base_frag :
  (Go.Parse "http://example.com/path#section1" ≫= Core.baseFilenameOf)
  = Some "http__example_com__acc59d181f4e3bc8"%string.
Proof. vm_compute. reflexivity. Qed.
Example base_mixed :
  (Go.Parse "http://test.org/Some/MixedCasePath" ≫= Core.baseFilenameOf)
  = Some "http__test_org__7c796ef14121b26e"%string.
Proof. vm_compute. reflexivity. Qed.
Example base_sub :
  (Go.Parse "https://sub.domain.example.com/resource" ≫= Core.baseFilenameOf)
  = Some "https__sub_domain_example_com__cec4ccb8f55dc23a"%string.
Proof. vm_compute. reflexivity. Qed.

(** ** Header classification *)

Section HeaderFlags.
Import Core.

Lemma xss_in_both_tables :
  is_Some (degradingSecurityHeaders !! "x-xss-protection"%string)
  ∧ is_Some (increasingSecurityHeaders !! "x-xss-protection"%string).
Proof. split; vm_compute; eauto. Qed.

Lemma xss_flags (h : Header) :
  Go.ToLower (Name h) = "x-xss-protection"%string →
  decreasesSecurity h = negb (Go.HasPrefix (Value h) "1")
  ∧ increasesSecurity h = Go.HasPrefix (Value h) "1".
Proof.
  intros Hn. unfold decreasesSecurity, increasesSecurity. rewrite Hn.
  split; reflexivity.
Qed.

(** C7. After [SetSecurityFlags] a header never has both [DecreasesSecurity]
    and [IncreasesSecurity] set, whatever its name and value; for a name
    that lower-cases to [x-xss-protection], which both tables list, exactly
    one of the flags is set: [IncreasesSecurity] when the value starts with
    "1", [DecreasesSecurity] otherwise. *)
Theorem SetSecurityFlags_never_both (h : Header) :
  let h' := SetSecurityFlags h in
  DecreasesSecurity h' && IncreasesSecurity h' = false
  ∧ (Go.ToLower (Name h) = "x-xss-protection"%string →
     DecreasesSecurity h' = negb (Go.HasPrefix (Value h) "1")
     ∧ IncreasesSecurity h' = Go.HasPrefix (Value h) "1").
Proof.
  cbv zeta. split.
  - unfold SetSecurityFlags.
    destruct (decreasesSecurity h); [reflexivity|].
    destruct (increasesSecurity h); reflexivity.
  - intros Hn. destruct (xss_flags h Hn) as [Hd Hi].
    unfold SetSecurityFlags. rewrite Hd, Hi.
    destruct (Go.HasPrefix (Value h) "1"); split; reflexivity.
Qed.

Lemma SetSecurityFlags_never_both_witness :
  let h' := SetSecurityFlags (mkHeader "X-XSS-Protection" "0" false false) in
  DecreasesSecurity h' && IncreasesSecurity h' = false
  ∧ DecreasesSecurity h' = true ∧ IncreasesSecurity h' = false.
Proof.
  destruct (SetSecurityFlags_never_both
              (mkHeader "X-XSS-Protection" "0" false false)) as [H1 H2].
  split; [exact H1|]. apply H2. reflexivity.
Defined.

Example flags_xss_on :
  SetSecurityFlags (mkHeader "X-XSS-Protection" "1; mode=block" false false)
  = mkHeader "X-XSS-Protection" "1; mode=block" false true.
Proof. vm_compute. reflexivity. Qed.

Example flags_xss_off :
  SetSecurityFlags (mkHeader "X-XSS-Protection" "0" false false)
  = mkHeader "X-XSS-Protection" "0" true false.
Proof. vm_compute. reflexivity. Qed.

Example flags_server :
  SetSecurityFlags (mkHeader "SERVER" "Apache/2.4.1 (Unix)" false true)
  = mkHeader "SERVER" "Apache/2.4.1 (Unix)" true false.
Proof. vm_compute. reflexivity. Qed.

End HeaderFlags.

(** ** The port scanner *)

Section PortScanner.
Import Core Agents.

Lemma ParseOptions_Threads (defaultPorts : string) (cl : CommandLine) :
  Threads (ParseOptions defaultPorts cl) = Some (default 0 (flag_threads cl)).
Proof. reflexivity. Qed.

(** C1, as the code has it. The semaphore of a registered scanner has the
    depth that the session's [Threads] option holds; the options of
    [ParseOptions] always hold one, the value of [--threads] and 0 when the
    flag is absent; the depth is 100 only for a session whose [Threads]
    pointer is nil. *)
Theorem Register_semaphore_depth (a : TCPPortScanner) (s : Session) :
  (∀ t, Threads (options s) = Some t → 0 ≤ t →
        Register None a s = Returned (mkTCPPortScanner (Some s) (Some t)))
  ∧ (Threads (options s) = None →
     Register None a s = Returned (mkTCPPortScanner (Some s) (Some 100)))
  ∧ (∀ defaultPorts cl, options s = ParseOptions defaultPorts cl →
     Threads (options s) = Some (default 0 (flag_threads cl))).
Proof.
  repeat split.
  - intros t Ht Hpos. unfold Register. rewrite Ht.
    destruct (Z.ltb_spec t 0); [lia | reflexivity].
  - intros Hn. unfold Register. rewrite Hn. reflexivity.
  - intros dp cl ->. apply ParseOptions_Threads.
Qed.

Lemma Register_semaphore_depth_witness :
  Register None NewTCPPortScanner (empty_session default_options [80; 443])
  = Returned (mkTCPPortScanner (Some (empty_session default_options [80; 443])) (Some 0)).
Proof.
  apply (Register_semaphore_depth NewTCPPortScanner
           (empty_session default_options [80; 443])); [reflexivity | lia].
Defined.

(** C1, as the claim has it, fails: without [--threads] the scanner is
    registered with a semaphore of depth 0, not 100. *)
Lemma Register_default_depth_not_100 :
  ¬ (∀ (cl : CommandLine) (defaultPorts : string) (portList : list Z),
       flag_threads cl = None →
       ∃ a, Register None NewTCPPortScanner
              (empty_session (ParseOptions defaultPorts cl) portList) = Returned a
            ∧ scanWorker a = Some 100).
Proof.
  intros H.
  destruct (H no_flags "80,443"%string [80; 443] eq_refl) as (a & Hr & Hd).
  vm_compute in Hr. inversion Hr; subst. discriminate Hd.
Qed.

Lemma attempt_okb_spec (n : Attempt) : attempt_okb n = true ↔ attempt_ok n.
Proof.
  unfold attempt_okb, attempt_ok.
  destruct (dial n); split; intros H; try discriminate; try tauto;
    destruct H as [H ?]; discriminate H.
Qed.

Lemma scanPort_result timeout n port host st :
  (scanPort timeout n port host st).1 = attempt_okb n.
Proof.
  unfold scanPort, attempt_okb.
  destruct (dial n) as [[]| |]; try reflexivity.
  destruct (setReadDeadline_ok n); reflexivity.
Qed.

Lemma scanPort_session timeout n port host st :
  stats (scanPort timeout n port host st).2.1 = stats st.1
  ∧ published (scanPort timeout n port host st).2.1 = published st.1.
Proof.
  unfold scanPort, close_conn.
  destruct (dial n) as [[]| |], (setReadDeadline_ok n), (read_ok n), (close_ok n);
    split; reflexivity.
Qed.

Lemma scanPort_actions timeout n port host st :
  (scanPort timeout n port host st).2.2 = st.2 ++ [Dial host port timeout].
Proof.
  unfold scanPort, close_conn.
  destruct (dial n) as [[]| |], (setReadDeadline_ok n), (read_ok n), (close_ok n);
    reflexivity.
Qed.

(** The retry loop from its start: the attempts made, whether one succeeded,
    and that it stops by its own condition within two iterations. *)
Lemma attemptLoop_from_start timeout net port host st :
  let r := attemptLoop 2 timeout net port host 0 false st in
  r.1.2 = attempt_okb (net 0) || attempt_okb (net 1)
  ∧ ((r.1.1 <? 2) && negb r.1.2 = false)
  ∧ stats r.2.1 = stats st.1
  ∧ published r.2.1 = published st.1
  ∧ r.2.2 = st.2 ++
      (if attempt_okb (net 0) then [Dial host port timeout]
       else [Dial host port timeout; Sleep (500 * Go.Millisecond);
             Dial host port timeout]).
Proof.
  cbv zeta. simpl attemptLoop.
  pose proof (scanPort_result timeout (net 0) port host st) as R0.
  pose proof (scanPort_session timeout (net 0) port host st) as [S0 P0].
  pose proof (scanPort_actions timeout (net 0) port host st) as A0.
  destruct (scanPort timeout (net 0) port host st) as [ok0 st0].
  simpl in R0, S0, P0, A0. subst ok0.
  destruct (attempt_okb (net 0)); simpl.
  - repeat split; assumption.
  - change (0 + 1) with 1.
    set (st1 := act (logS st0 Out.Debug _) _).
    pose proof (scanPort_result timeout (net 1) port host st1) as R1.
    pose proof (scanPort_session timeout (net 1) port host st1) as [S1 P1].
    pose proof (scanPort_actions timeout (net 1) port host st1) as A1.
    destruct (scanPort timeout (net 1) port host st1) as [ok1 st2].
    simpl in R1, S1, P1, A1. subst ok1.
    assert (st1.2 = st0.2 ++ [Sleep (500 * Go.Millisecond)]) as E by reflexivity.
    destruct (attempt_okb (net 1)); simpl; repeat split;
      rewrite ?S1, ?P1, ?A1, ?E, ?A0, <- ?app_assoc; simpl; auto.
Qed.

(** C3. For a scanned host and port the goroutine ends, and the port is
    reported open exactly when the first or the second attempt got a
    connection and could set its read deadline, whatever the one-byte read
    and the close returned; otherwise it is reported closed and no event is
    published. There is a second attempt only after a failed first one, after
    a sleep of 500 ms, and there is never a third. *)
Theorem scanned_port_open_iff (net : Z → Attempt) (port : Z) (host : string)
    (s : Session) (acts : list Action) (ms : Z) :
  ScanTimeout (options s) = Some ms →
  ∃ s' acts' timeout,
    scanTimeout s = Some timeout
    ∧ scanWorkerBody net port host (s, acts) = Some (s', acts')
    ∧ (reported_open s s' port host ↔ attempt_ok (net 0) ∨ attempt_ok (net 1))
    ∧ (reported_closed s s' ↔ ¬ (attempt_ok (net 0) ∨ attempt_ok (net 1)))
    ∧ acts' = acts ++
        (if attempt_okb (net 0) then [Dial host port timeout]
         else [Dial host port timeout; Sleep (500 * Go.Millisecond);
               Dial host port timeout])
    ∧ (∀ n r c, attempt_ok n ↔
         attempt_ok (mkAttempt (dial n) (setReadDeadline_ok n) r c)).
Proof.
  intros Hms.
  assert (∃ timeout, scanTimeout s = Some timeout) as [timeout Ht].
  { unfold scanTimeout. rewrite Hms. simpl. eauto. }
  unfold scanWorkerBody. simpl fst. rewrite Ht. cbn -[attemptLoop].
  pose proof (attemptLoop_from_start timeout net port host (s, acts)) as L.
  cbv zeta in L.
  destruct (attemptLoop 2 timeout net port host 0 false (s, acts))
    as [[attempts success] [s1 acts1]].
  simpl in L. destruct L as (Hs & _ & Hst & Hpub & Hacts).
  assert (success = true ↔ attempt_ok (net 0) ∨ attempt_ok (net 1)) as Hok.
  { rewrite Hs, orb_true_iff, !attempt_okb_spec. reflexivity. }
  assert (∀ n r c, attempt_ok n ↔
            attempt_ok (mkAttempt (dial n) (setReadDeadline_ok n) r c)) as Hread.
  { intros n r c. unfold attempt_ok. simpl. reflexivity. }
  destruct success.
  - eexists _, _, timeout. split; [reflexivity|]. split; [reflexivity|].
    unfold reported_open, reported_closed, TCPPort_event. simpl.
    rewrite Hst, Hpub.
    split; [|split; [|split; [exact Hacts | exact Hread]]].
    + split; [intros _; apply Hok; reflexivity | intros _; repeat split; reflexivity].
    + split; [intros (Hc & _); lia | intros Hn; exfalso; apply Hn, Hok; reflexivity].
  - eexists _, _, timeout. split; [reflexivity|]. split; [reflexivity|].
    unfold reported_open, reported_closed, TCPPort_event. simpl.
    rewrite Hst, Hpub.
    split; [|split; [|split; [exact Hacts | exact Hread]]].
    + split; [intros (Hc & _); lia | intros Hn; apply Hok in Hn; discriminate].
    + split; [intros _ Hn; apply Hok in Hn; discriminate
             | intros _; repeat split; reflexivity].
Qed.

Lemma scanned_port_open_iff_witness :
  ∃ s' acts' timeout,
    scanTimeout (empty_session default_options [80]) = Some timeout
    ∧ scanWorkerBody net_read_fails 80 "example.com"
        (empty_session default_options [80], []) = Some (s', acts')
    ∧ (reported_open (empty_session default_options [80]) s' 80 "example.com"
       ↔ attempt_ok (net_read_fails 0) ∨ attempt_ok (net_read_fails 1))
    ∧ (reported_closed (empty_session default_options [80]) s'
       ↔ ¬ (attempt_ok (net_read_fails 0) ∨ attempt_ok (net_read_fails 1)))
    ∧ acts' = [] ++
        (if attempt_okb (net_read_fails 0) then [Dial "example.com" 80 timeout]
         else [Dial "example.com" 80 timeout; Sleep (500 * Go.Millisecond);
               Dial "example.com" 80 timeout])
    ∧ (∀ n r c, attempt_ok n ↔
         attempt_ok (mkAttempt (dial n) (setReadDeadline_ok n) r c)).
Proof.
  apply (scanned_port_open_iff net_read_fails 80 "example.com"
           (empty_session default_options [80]) [] 100).
  reflexivity.
Defined.

(** A port that refuses the first dial and accepts the second. *)
Example scan_second_attempt :
  let net := λ k : Z, if k =? 0 then mkAttempt (DialError false) true true true
                      else mkAttempt DialConn true false true in
  (λ r, (stats r.1, published r.1, r.2)) <$>
    scanWorkerBody net 8080 "h" (empty_session default_options [8080], [])
  = Some (mkStats 1 0 0 0, [TCPPort_event 8080 "h"],
          [Dial "h" 8080 (5 * Go.Second); Sleep (500 * Go.Millisecond);
           Dial "h" 8080 (5 * Go.Second)]).
Proof. vm_compute. reflexivity. Qed.

(** Scenario 3 of the spec: the dial times out, twice. *)
Example scan_timeout_closed :
  let net := λ _ : Z, mkAttempt (DialError true) true true true in
  (λ r, (stats r.1, published r.1)) <$>
    scanWorkerBody net 100 "192.0.2.1" (empty_session default_options [100], [])
  = Some (mkStats 0 1 0 0, []).
Proof. vm_compute. reflexivity. Qed.

End PortScanner.

(** ** The screenshotter *)

Section Screenshotter.
Import Core Agents.

(** Without overflow the deadline is [ScreenshotTimeout] seconds: the option
    is multiplied by 1000 before it is counted in milliseconds. *)
Lemma screenshotDeadline_seconds (s : Session) (ms : Z) :
  ScreenshotTimeout (options s) = Some ms →
  0 ≤ ms ≤ 9223372036 →
  screenshotDeadline s = Some (ms * Go.Second).
Proof.
  intros H Hr. unfold screenshotDeadline. rewrite H. simpl. f_equal.
  unfold Go.mul64, Go.wrap64, Go.Millisecond, Go.Second.
  rewrite (Z.mod_small (ms * 1000 + 2 ^ 63)) by lia.
  replace (ms * 1000 + 2 ^ 63 - 2 ^ 63) with (ms * 1000) by lia.
  rewrite Z.mod_small by lia. lia.
Qed.

(** C2 on the default options. The deadline of the Chrome process is
    30000 s (30 000 000 ms), not the 30000 ms of [ScreenshotTimeout]; a Chrome
    that needs a minute is not killed, and its screenshot counts as
    successful. *)
Theorem screenshot_deadline_default :
  screenshotDeadline example_session = Some (30000000 * Go.Millisecond)
  ∧ screenshotDeadline example_session ≠ Some (30000 * Go.Millisecond)
  ∧ wait_chrome (30000000 * Go.Millisecond) (Exits (60 * Go.Second) true) = Some WaitOk
  ∧ wait_chrome (30000 * Go.Millisecond) (Exits (60 * Go.Second) true)
    = Some WaitKilledAtDeadline
  ∧ (stats <$> OnURLResponsive Go.Parse (Exits (60 * Go.Second) true)
                 "http://example.com/" example_session)
    = Some (mkStats 0 0 1 0).
Proof.
  repeat split; try (vm_compute; reflexivity).
  vm_compute. discriminate.
Qed.

End Screenshotter.

(** ** The driver: dispatch of the targets *)

Section Dispatch.
Import Core Main.

Variable url_ParseRequestURI : string → option Go.URL.

Local Abbreviation isURL := (Main.isURL url_ParseRequestURI).
Local Abbreviation hasSupportedScheme := (Main.hasSupportedScheme url_ParseRequestURI).
Local Abbreviation publishTarget := (Main.publishTarget url_ParseRequestURI).
Local Abbreviation processTargets := (Main.processTargets url_ParseRequestURI).
Local Abbreviation target_events := (target_events url_ParseRequestURI).

Lemma publishTarget_published (s : Session) (target : string) :
  published (publishTarget s target) = published s ++ target_events target.
Proof.
  unfold Main.publishTarget, target_events.
  destruct (isURL target); [destruct (hasSupportedScheme target)|]; simpl;
    rewrite ?app_nil_r; reflexivity.
Qed.

Lemma foldl_publishTarget_published (targets : list string) (s : Session) :
  published (foldl publishTarget s targets)
  = published s ++ concat (map target_events targets).
Proof.
  revert s. induction targets as [|t ts IH]; intros s; simpl.
  - rewrite app_nil_r. reflexivity.
  - rewrite IH, publishTarget_published, <- app_assoc. reflexivity.
Qed.

(** C10. The driver publishes [SessionStart], then for each target in turn
    its events, then [SessionEnd]; a target that parses as a request URI with
    a scheme other than http and https has no event at all, a target that
    does not parse or has no scheme has one [Host] event, and a target with
    scheme http or https has one [URL] event. *)
Theorem driver_drops_other_schemes (s : Session) (targets : list string) :
  ∃ ev : string → list Event,
    published (processTargets s targets)
    = published s ++ mkEvent Topic.SessionStart []
        :: concat (map ev targets) ++ [mkEvent Topic.SessionEnd []]
    ∧ ∀ t,
        (∀ u, url_ParseRequestURI t = Some u → Go.Scheme u ≠ ""%string →
              Go.Scheme u ≠ "http"%string → Go.Scheme u ≠ "https"%string →
              ev t = [])
        ∧ (url_ParseRequestURI t = None → ev t = [mkEvent Topic.Host [AString t]])
        ∧ (∀ u, url_ParseRequestURI t = Some u → Go.Scheme u = ""%string →
                ev t = [mkEvent Topic.Host [AString t]])
        ∧ (∀ u, url_ParseRequestURI t = Some u →
                Go.Scheme u = "http"%string ∨ Go.Scheme u = "https"%string →
                ev t = [mkEvent Topic.URL [AString t]]).
Proof.
  exists target_events. split.
  - unfold Main.processTargets. simpl.
    rewrite foldl_publishTarget_published. simpl.
    rewrite <- !app_assoc. reflexivity.
  - intros t. unfold target_events, Main.isURL, Main.hasSupportedScheme.
    repeat split.
    + intros u -> H0 H1 H2.
      apply String.eqb_neq in H0, H1, H2. rewrite H0, H1, H2. reflexivity.
    + intros ->. reflexivity.
    + intros u -> ->. reflexivity.
    + intros u -> [-> | ->]; reflexivity.
Qed.

End Dispatch.

(** With the request-URI parser standing in for net/url: [host:port] parses
    with the host as its scheme and is dropped. *)
Lemma driver_drops_other_schemes_witness :
  ∃ ev : string → list Core.Event,
    Core.published
      (Main.processTargets Go.ParseRequestURI
         (Core.empty_session default_options [80])
         ["https://example.org/x"; "example.com"; "example.com:8080"; "ftp://a.b"]%string)
    = [] ++ Core.mkEvent Core.Topic.SessionStart []
        :: concat (map ev ["https://example.org/x"; "example.com";
                           "example.com:8080"; "ftp://a.b"]%string)
        ++ [Core.mkEvent Core.Topic.SessionEnd []]
    ∧ ev "example.com:8080"%string = []
    ∧ ev "ftp://a.b"%string = []
    ∧ ev "example.com"%string = [Core.mkEvent Core.Topic.Host [Core.AString "example.com"]]
    ∧ ev "https://example.org/x"%string
      = [Core.mkEvent Core.Topic.URL [Core.AString "https://example.org/x"]].
Proof.
  destruct (driver_drops_other_schemes Go.ParseRequestURI
              (Core.empty_session default_options [80])
              ["https://example.org/x"; "example.com"; "example.com:8080"; "ftp://a.b"]%string)
    as (ev & Hpub & Hev).
  exists ev. split; [exact Hpub|].
  split; [|split; [|split]].
  - eapply (Hev "example.com:8080"%string); [vm_compute; reflexivity | | |];
      vm_compute; discriminate.
  - eapply (Hev "ftp://a.b"%string); [vm_compute; reflexivity | | |];
      vm_compute; discriminate.
  - apply (Hev "example.com"%string). vm_compute. reflexivity.
  - eapply (Hev "https://example.org/x"%string); [vm_compute; reflexivity |].
    right. reflexivity.
Defined.

Example dispatch_example :
  Core.published
    (Main.processTargets Go.ParseRequestURI (Core.empty_session default_options [80])
       ["https://example.org/x"; "example.com"; "example.com:8080"; "ftp://a.b"]%string)
  = [Core.mkEvent Core.Topic.SessionStart [];
     Core.mkEvent Core.Topic.URL [Core.AString "https://example.org/x"];
     Core.mkEvent Core.Topic.Host [Core.AString "example.com"];
     Core.mkEvent Core.Topic.SessionEnd []].
Proof. vm_compute. reflexivity. Qed.

(** ** Base file names *)

Section BaseFilenames.
Import Core.

Lemma append_cons (c : ascii) (a b : string) :
  String c a +:+ b = String c (a +:+ b).
Proof. reflexivity. Qed.

Lemma ToLower_app (a b : string) :
  Go.ToLower (a +:+ b) = Go.ToLower a +:+ Go.ToLower b.
Proof.
  induction a as [|c a IH]; [reflexivity|].
  rewrite append_cons. simpl Go.ToLower. rewrite append_cons, IH. reflexivity.
Qed.

Lemma append_inv_head (a x y : string) : a +:+ x = a +:+ y → x = y.
Proof.
  induction a as [|c a IH]; intros H; [exact H|].
  rewrite !append_cons in H. injection H as H. apply IH, H.
Qed.

Lemma be_bytes_spec (n : nat) (x : Z) :
  length (Go.be_bytes n x) = n ∧ Forall is_byte (Go.be_bytes n x).
Proof.
  induction n as [|n [IHl IHf]]; simpl; [split; [reflexivity | constructor]|].
  split; [rewrite IHl; reflexivity|].
  constructor; [|exact IHf]. unfold is_byte. apply Z.mod_pos_bound. lia.
Qed.

(** A SHA-1 digest has 20 bytes. *)
Lemma sha1_Sum_spec (s : string) :
  length (Go.sha1_Sum s) = 20%nat ∧ Forall is_byte (Go.sha1_Sum s).
Proof.
  unfold Go.sha1_Sum.
  destruct (Go.sha1_blocks _ _ _) as [[[[h0 h1] h2] h3] h4].
  split.
  - rewrite !length_app. rewrite !(proj1 (be_bytes_spec 4 _)). reflexivity.
  - rewrite !Forall_app. repeat split; apply be_bytes_spec.
Qed.

Lemma hex_digit_lower (d : Z) :
  0 ≤ d < 16 → Go.lower_ascii (Go.hex_digit d) = Go.hex_digit d.
Proof.
  intros H.
  assert (d = 0 ∨ d = 1 ∨ d = 2 ∨ d = 3 ∨ d = 4 ∨ d = 5 ∨ d = 6 ∨ d = 7 ∨ d = 8
          ∨ d = 9 ∨ d = 10 ∨ d = 11 ∨ d = 12 ∨ d = 13 ∨ d = 14 ∨ d = 15)
    as Hd by lia.
  repeat (destruct Hd as [-> | Hd]; [vm_compute; reflexivity|]).
  subst d. vm_compute. reflexivity.
Qed.

(** [%x] prints lower-case digits only. *)
Lemma ToLower_hex (bs : list Z) :
  Forall is_byte bs → Go.ToLower (Go.hex bs) = Go.hex bs.
Proof.
  induction 1 as [|b bs Hb _ IH]; simpl; [reflexivity|].
  unfold is_byte in Hb.
  rewrite !hex_digit_lower, IH; [reflexivity | |].
  - apply Z.mod_pos_bound. lia.
  - split; [apply Z.div_pos; lia | apply Z.div_lt_upper_bound; lia].
Qed.

Lemma hex_length (bs : list Z) : String.length (Go.hex bs) = (2 * length bs)%nat.
Proof. induction bs as [|b bs IH]; simpl; [reflexivity | rewrite IH; lia]. Qed.

Lemma slice_to_is_Some (n : nat) (s : string) :
  (n ≤ String.length s)%nat → is_Some (Go.slice_to n s).
Proof.
  revert s. induction n as [|n IH]; intros s H; simpl; [eauto|].
  destruct s as [|c s]; simpl in H; [lia|].
  destruct (IH s ltac:(lia)) as [r Hr]. rewrite Hr. simpl. eauto.
Qed.

Lemma slice_to_lower (n : nat) (s r : string) :
  Go.ToLower s = s → Go.slice_to n s = Some r → Go.ToLower r = r.
Proof.
  revert s r. induction n as [|n IH]; intros s r Hs Hr; simpl in Hr.
  - injection Hr as <-. reflexivity.
  - destruct s as [|c s]; [discriminate|].
    simpl in Hs. injection Hs as Hc Hs.
    destruct (Go.slice_to n s) as [r'|] eqn:E; [|discriminate].
    simpl in Hr. injection Hr as <-. simpl.
    rewrite Hc, (IH s r' Hs E). reflexivity.
Qed.

Lemma pathHash_spec (u : Go.URL) :
  ∃ h, pathHash u = Some h ∧ Go.ToLower h = h.
Proof.
  unfold pathHash.
  destruct (sha1_Sum_spec (Go.Path u +:+ Go.Fragment u)) as [Hl Hb].
  destruct (slice_to_is_Some 16 (Go.hex (Go.sha1_Sum (Go.Path u +:+ Go.Fragment u))))
    as [h Hh].
  { rewrite hex_length, Hl. lia. }
  exists h. split; [exact Hh|].
  eapply slice_to_lower; [|exact Hh]. apply ToLower_hex, Hb.
Qed.

Lemma append_assoc (a b c : string) : (a +:+ b) +:+ c = a +:+ (b +:+ c).
Proof.
  induction a as [|x a IH]; [reflexivity|].
  rewrite !append_cons, IH. reflexivity.
Qed.

Lemma baseFilenameOf_spec (u : Go.URL) (h : string) :
  pathHash u = Some h →
  Go.ToLower h = h →
  baseFilenameOf u = Some (Go.ToLower (filenamePrefix u) +:+ h).
Proof.
  intros Hh Hl. unfold baseFilenameOf. fold (pathHash u). rewrite Hh. simpl.
  f_equal. unfold filenamePrefix.
  rewrite <- Hl at 2. rewrite <- ToLower_app. f_equal.
  rewrite !append_assoc. reflexivity.
Qed.

(** [BaseFilename] never panics on a parsed URL. *)
Lemma baseFilenameOf_total (u : Go.URL) : is_Some (baseFilenameOf u).
Proof.
  destruct (pathHash_spec u) as (h & Hh & Hl).
  rewrite (baseFilenameOf_spec u h Hh Hl). eauto.
Qed.

Section WithParser.

Variable url_Parse : string → option Go.URL.

(** C8, as the code has it. For two pages whose URLs parse with the same
    scheme and host, [BaseFilename] returns a name for each; the names are
    equal exactly when the first 16 hexadecimal digits of the SHA-1 of
    path followed by fragment are; they are equal when the concatenations of
    path and fragment are equal, so in particular when path and fragment are
    equal and only the query string differs. *)
Theorem BaseFilename_equal_iff_hash (p1 p2 : Page) (u1 u2 : Go.URL) :
  url_Parse (URL p1) = Some u1 →
  url_Parse (URL p2) = Some u2 →
  Go.Scheme u1 = Go.Scheme u2 →
  Go.Host u1 = Go.Host u2 →
  ∃ f1 f2 h1 h2,
    BaseFilename url_Parse p1 = Some f1 ∧ BaseFilename url_Parse p2 = Some f2
    ∧ pathHash u1 = Some h1 ∧ pathHash u2 = Some h2
    ∧ (f1 = f2 ↔ h1 = h2)
    ∧ (Go.Path u1 +:+ Go.Fragment u1 = Go.Path u2 +:+ Go.Fragment u2 → f1 = f2)
    ∧ (Go.Path u1 = Go.Path u2 → Go.Fragment u1 = Go.Fragment u2 → f1 = f2).
Proof.
  intros P1 P2 Hs Hh.
  destruct (pathHash_spec u1) as (h1 & Hh1 & Hl1).
  destruct (pathHash_spec u2) as (h2 & Hh2 & Hl2).
  exists (Go.ToLower (filenamePrefix u1) +:+ h1),
         (Go.ToLower (filenamePrefix u2) +:+ h2), h1, h2.
  assert (filenamePrefix u1 = filenamePrefix u2) as Hp.
  { unfold filenamePrefix. rewrite Hs, Hh. reflexivity. }
  unfold BaseFilename, ParsedURL. rewrite P1, P2. simpl.
  rewrite (baseFilenameOf_spec u1 h1 Hh1 Hl1), (baseFilenameOf_spec u2 h2 Hh2 Hl2).
  repeat split; try assumption.
  - rewrite Hp. apply append_inv_head.
  - intros ->. rewrite Hp. reflexivity.
  - intros Hpf. rewrite Hp. f_equal.
    unfold pathHash in Hh1, Hh2. rewrite Hpf in Hh1. congruence.
  - intros HP HF. rewrite Hp. f_equal.
    unfold pathHash in Hh1, Hh2. rewrite HP, HF in Hh1. congruence.
Qed.

End WithParser.

(** Two URLs that differ in their query strings only. *)
Lemma BaseFilename_equal_iff_hash_witness :
  BaseFilename Go.Parse (page_at "http://example.com/path?x=1")
  = BaseFilename Go.Parse (page_at "http://example.com/path?y=2&z").
Proof.
  destruct (BaseFilename_equal_iff_hash Go.Parse
              (page_at "http://example.com/path?x=1")
              (page_at "http://example.com/path?y=2&z")
              (Go.mkURL "http" "" "example.com" "/path" "x=1" "")
              (Go.mkURL "http" "" "example.com" "/path" "y=2&z" "")
              eq_refl eq_refl eq_refl eq_refl)
    as (f1 & f2 & h1 & h2 & -> & -> & _ & _ & _ & _ & Hq).
  f_equal. apply Hq; reflexivity.
Defined.

(** C8, as the claim has it, fails: [http://example.com/a#b] and
    [http://example.com/ab] differ in path and fragment only, and have the
    same base file name, because path and fragment are hashed back to back. *)
Lemma BaseFilename_path_fragment_collide :
  ¬ (∀ (p1 p2 : Page) (u1 u2 : Go.URL),
       Go.Parse (URL p1) = Some u1 →
       Go.Parse (URL p2) = Some u2 →
       Go.Scheme u1 = Go.Scheme u2 → Go.Opaque u1 = Go.Opaque u2 →
       Go.Host u1 = Go.Host u2 → Go.RawQuery u1 = Go.RawQuery u2 →
       Go.Path u1 ≠ Go.Path u2 ∨ Go.Fragment u1 ≠ Go.Fragment u2 →
       BaseFilename Go.Parse p1 ≠ BaseFilename Go.Parse p2).
Proof.
  intros H.
  apply (H (page_at "http://example.com/a#b") (page_at "http://example.com/ab")
           (Go.mkURL "http" "" "example.com" "/a" "" "b")
           (Go.mkURL "http" "" "example.com" "/ab" "" ""));
    [vm_compute; reflexivity .. | left; simpl; discriminate | vm_compute; reflexivity].
Qed.

Example base_collision :
  BaseFilename Go.Parse (page_at "http://example.com/a#b")
  = Some "http__example_com__68094e6041202b24"%string
  ∧ BaseFilename Go.Parse (page_at "http://example.com/ab")
    = Some "http__example_com__68094e6041202b24"%string.
Proof. split; vm_compute; reflexivity. Qed.

End BaseFilenames.

(** ** Post-processing *)

Section PostProcessing.
Import Core Main.

Variable url_Parse : string → option Go.URL.
Variable url_ParseRequestURI : string → option Go.URL.
Variable GetSimilarity : list string → list string → Q.

Local Abbreviation clusterPage := (Main.clusterPage GetSimilarity).
Local Abbreviation clusterLoop := (Main.clusterLoop GetSimilarity).
Local Abbreviation clusterPages := (Main.clusterPages GetSimilarity).
Local Abbreviation analyzePages := (Main.analyzePages url_Parse GetSimilarity).
Local Abbreviation main_from_targets :=
  (Main.main_from_targets url_Parse url_ParseRequestURI GetSimilarity).
Local Abbreviation pages_parse := (pages_parse url_Parse).

Lemma grows_refl (s : Session) : grows s s.
Proof. exists []. rewrite app_nil_r. reflexivity. Qed.

Lemma grows_trans (s1 s2 s3 : Session) : grows s1 s2 → grows s2 s3 → grows s1 s3.
Proof.
  intros [l1 H1] [l2 H2]. exists (l1 ++ l2). rewrite H2, H1, app_assoc. reflexivity.
Qed.

Lemma grows_log (s s' : Session) (l : Out.Level) (f : string) :
  grows s s' → grows s (log s' l f).
Proof.
  intros [k H]. exists (k ++ [(l, f)]). simpl. rewrite H, app_assoc. reflexivity.
Qed.

Lemma grows_same (s s' : Session) : output s' = output s → grows s s'.
Proof. intros H. exists []. rewrite app_nil_r. exact H. Qed.

Lemma grows_elem (s s' : Session) (x : LogLine) :
  grows s s' → x ∈ output s → x ∈ output s'.
Proof. intros [l H] Hx. rewrite H. apply elem_of_app. left. exact Hx. Qed.

Lemma logged (s : Session) (l : Out.Level) (f : string) : (l, f) ∈ output (log s l f).
Proof. simpl. apply elem_of_app. right. apply list_elem_of_singleton. reflexivity. Qed.

Lemma logged_before (s : Session) (l : Out.Level) (f : string) (x : LogLine) :
  x ∈ output s → x ∈ output (log s l f).
Proof. intros H. simpl. apply elem_of_app. left. exact H. Qed.

Ltac log_grows := repeat apply grows_log; apply grows_refl.
Ltac log_elem := first [apply logged | apply logged_before; log_elem].

Lemma processTargets_keeps (s : Session) (targets : list string) :
  Pages (Main.processTargets url_ParseRequestURI s targets) = Pages s
  ∧ output (Main.processTargets url_ParseRequestURI s targets) = output s.
Proof.
  assert (∀ s0, Pages (foldl (Main.publishTarget url_ParseRequestURI) s0 targets)
                = Pages s0
                ∧ output (foldl (Main.publishTarget url_ParseRequestURI) s0 targets)
                  = output s0) as H.
  { induction targets as [|t ts IH]; intros s0; simpl; [split; reflexivity|].
    destruct (IH (Main.publishTarget url_ParseRequestURI s0 t)) as [-> ->].
    unfold Main.publishTarget.
    destruct (Main.isURL _ t); [destruct (Main.hasSupportedScheme _ t)|];
      split; reflexivity. }
  unfold Main.processTargets. simpl.
  destruct (H (Publish s Topic.SessionStart [])) as [-> ->]. split; reflexivity.
Qed.

Lemma pages_parse_insert (s : Session) (key : string) (page : Page)
    (structure : list string) :
  pages_parse s → Pages s !! key = Some page →
  pages_parse (with_Pages s (<[key := set_PageStructure page structure]> (Pages s))).
Proof.
  intros Hp Hk k q. simpl. rewrite lookup_insert. case_decide as E.
  - intros [= <-]. simpl. apply (Hp key page Hk).
  - apply Hp.
Qed.

Lemma structureStep_ok (fs : Files) (s : Session) (w : list string) (key : string) :
  pages_parse s →
  ∃ s' w', Main.structureStep url_Parse fs (s, w) key = Some (s', w')
           ∧ pages_parse s' ∧ grows s s'
           ∧ (urlsFile_opens fs = false → w' = w).
Proof.
  intros Hp. unfold Main.structureStep.
  destruct (Pages s !! key) as [page|] eqn:E.
  2: { exists s, w. repeat split; [exact Hp | apply grows_refl]. }
  destruct (Hp key page E) as [u Hu].
  unfold BaseFilename, ParsedURL. rewrite Hu. simpl.
  destruct (baseFilenameOf_total u) as [base Hb]. rewrite Hb. simpl.
  destruct (bodyFile fs _) as [[structure|]|].
  - pose proof (pages_parse_insert s key page structure Hp E) as Hp'.
    repeat match goal with |- context [if ?b then _ else _] => destruct b eqn:? end;
      eexists _, _; (split; [reflexivity|]);
      (split; [exact Hp'|]);
      (split; [first [apply grows_same; reflexivity
                     | apply grows_log, grows_same; reflexivity
                     | apply grows_log, grows_log, grows_same; reflexivity]
              | first [reflexivity | congruence]]).
  - repeat match goal with |- context [if ?b then _ else _] => destruct b eqn:? end;
      eexists _, _; (split; [reflexivity|]);
      (split; [exact Hp|]);
      (split; [first [apply grows_log, grows_refl
                     | apply grows_log, grows_log, grows_refl]
              | reflexivity]).
  - eexists _, _; (split; [reflexivity|]); (split; [exact Hp|]);
      (split; [apply grows_log, grows_refl | reflexivity]).
Qed.

Lemma structuresLoop_ok (fs : Files) (keys : list string) (s : Session)
    (w : list string) :
  pages_parse s →
  ∃ s' w', Main.structuresLoop url_Parse fs keys (s, w) = Some (s', w')
           ∧ pages_parse s' ∧ grows s s'
           ∧ (urlsFile_opens fs = false → w' = w).
Proof.
  revert s w. induction keys as [|key keys IH]; intros s w Hp.
  - exists s, w. repeat split; [exact Hp | apply grows_refl].
  - change (Main.structuresLoop url_Parse fs (key :: keys) (s, w))
      with (Main.structureStep url_Parse fs (s, w) key
              ≫= λ st', Main.structuresLoop url_Parse fs keys st').
    destruct (structureStep_ok fs s w key Hp) as (s1 & w1 & -> & Hp1 & G1 & W1).
    simpl. destruct (IH s1 w1 Hp1) as (s2 & w2 & -> & Hp2 & G2 & W2).
    exists s2, w2. repeat split; [exact Hp2 | eapply grows_trans; eassumption |].
    intros Hf. rewrite (W2 Hf), (W1 Hf). reflexivity.
Qed.

(** The clustering loop prints nothing. *)
Lemma clusterLoop_output (rt : Runtime) (pages : list Page) (k : nat)
    (st : Session * nat) :
  output (clusterLoop rt pages k st).1 = output st.1.
Proof.
  revert k st. induction pages as [|page pages IH]; intros k st; simpl;
    [reflexivity|].
  rewrite IH. unfold Main.clusterPage. destruct st as [s nu].
  destruct (findCluster _ _ _ _); reflexivity.
Qed.

Lemma analyzePages_ok (fs : Files) (rt : Runtime) (s : Session) :
  pages_parse s →
  ∃ s' written,
    analyzePages fs rt s = Some (s', written)
    ∧ grows s s'
    ∧ (Out.Important, "Clustering similar pages..."%string) ∈ output s'
    ∧ (urlsFile_opens fs = false →
       (Out.Error, "Failed to open %s: %v\n"%string) ∈ output s' ∧ written = []).
Proof.
  intros Hp. unfold Main.analyzePages.
  set (s0 := if urlsFile_opens fs then _ else _).
  assert (pages_parse s0) as Hp0.
  { subst s0. destruct (urlsFile_opens fs); exact Hp. }
  assert (grows s s0) as G0.
  { subst s0. destruct (urlsFile_opens fs); repeat apply grows_log; apply grows_refl. }
  destruct (structuresLoop_ok fs (structures_order rt) s0 [] Hp0)
    as (s1 & w1 & -> & _ & G1 & W1).
  simpl.
  set (s2 := Main.clusterPages GetSimilarity rt _).
  set (s3 := if _ && _ then _ else _).
  assert (grows s1 s2 ∧ (Out.Important, "Clustering similar pages..."%string) ∈ output s2)
    as [G2 Hc].
  { assert (output s2
            = ((output s1 ++ [(Out.Important, " done\n"%string)])
                 ++ [(Out.Important, "Clustering similar pages..."%string)])
                ++ [(Out.Important, " done\n"%string)]) as E.
    { subst s2. unfold Main.clusterPages. simpl. rewrite clusterLoop_output.
      reflexivity. }
    split.
    - eexists. rewrite E, <- !app_assoc. reflexivity.
    - rewrite E, !elem_of_app, !list_elem_of_singleton. auto. }
  assert (grows s2 s3) as G3.
  { subst s3. destruct (_ && _); [apply grows_log|]; apply grows_refl. }
  exists s3, w1. split; [reflexivity|].
  split; [eauto using grows_trans|].
  split; [eapply grows_elem; eassumption|].
  intros Hf. split; [|exact (W1 Hf)].
  eapply grows_elem; [eapply grows_trans; [exact G1|eapply grows_trans; eassumption]|].
  subst s0. rewrite Hf. apply logged.
Qed.

Lemma generateHTMLReport_spec (fs : Files) (s : Session) :
  grows s (generateHTMLReport fs s).2
  ∧ (Out.Important, "Generating HTML report..."%string)
      ∈ output (generateHTMLReport fs s).2
  ∧ ((generateHTMLReport fs s).1 = None ↔ report_ok fs = true).
Proof.
  unfold generateHTMLReport, report_ok.
  destruct (template_reads fs), (report_opens fs), (report_renders fs),
    (report_closes fs); cbn [fst snd negb andb];
    (split; [log_grows|]); (split; [log_elem|]); split; congruence.
Qed.

Lemma saveSessionAndPrintStats_spec (fs : Files) (s : Session) :
  grows s (saveSessionAndPrintStats fs s)
  ∧ (Out.Important, "Writing session file..."%string)
      ∈ output (saveSessionAndPrintStats fs s)
  ∧ (session_saves fs = false →
     (Out.Error, "Failed to save session file: %v\n"%string)
       ∈ output (saveSessionAndPrintStats fs s)).
Proof.
  unfold saveSessionAndPrintStats.
  destruct (session_saves fs);
    (split; [log_grows|]); (split; [log_elem|]);
    intros H; [discriminate|]. log_elem.
Qed.

(** [main] comes to the post-processing when the session is set up, no
    session file is to be loaded, the agents register and there are targets. *)
Lemma main_reaches_post_processing (su : Startup) (fs : Files) (rt : Runtime)
    (sess : Session) (target : string) (targets : list string) :
  newSession su = Some sess →
  Version (options sess) = Some false →
  outDir_stat su = Directory →
  SessionPath (options sess) = Some ""%string →
  registerAgents_ok su = true →
  readTargets su = Some (target :: targets) →
  Main.main url_Parse url_ParseRequestURI GetSimilarity su fs rt
  = (λ r, (r.1.1, Some r.1.2, r.2)) <$>
      main_from_targets fs rt (log sess Out.Important "%s v%s started at %s\n\n")
                        (target :: targets).
Proof.
  intros H1 H2 H3 H4 H5 H6. unfold Main.main.
  rewrite H1, H2, H3. unfold loadSessionAndGenerateReport.
  cbn [options log]. rewrite H4. cbn [mbind option_bind String.eqb].
  rewrite H5, H6. cbn [negb].
  destruct (Main.main_from_targets _ _ _ _ _ _ _) as [[[code s'] w]|]; reflexivity.
Qed.

(** C9. Once the targets are read, the run ends with an exit status, and on
    the way it prints that it clusters the pages and that it generates the
    report, whether or not aquatone_urls.txt could be opened (when it could
    not, an error is printed and nothing is written to it). The exit status
    is 1 exactly when the report could not be produced, in particular when
    rendering it fails, and a fatal line is printed then; otherwise it is 0
    whether or not the session file could be written, and a failed write is
    printed as an error. *)
Theorem post_processing_errors (fs : Files) (rt : Runtime) (s : Session)
    (targets : list string) :
  pages_parse s →
  ∃ code s' written,
    main_from_targets fs rt s targets = Some (code, s', written)
    ∧ (Out.Important, "Clustering similar pages..."%string) ∈ output s'
    ∧ (Out.Important, "Generating HTML report..."%string) ∈ output s'
    ∧ (urlsFile_opens fs = false →
       (Out.Error, "Failed to open %s: %v\n"%string) ∈ output s' ∧ written = [])
    ∧ (code = 1 ↔ report_ok fs = false)
    ∧ (code = 0 ↔ report_ok fs = true)
    ∧ (template_reads fs = true → report_opens fs = true →
       report_renders fs = false →
       code = 1 ∧ (Out.Fatal, "Error generating HTML report: %v\n"%string) ∈ output s')
    ∧ (report_ok fs = true → session_saves fs = false →
       code = 0
       ∧ (Out.Error, "Failed to save session file: %v\n"%string) ∈ output s').
Proof.
  intros Hp. unfold Main.main_from_targets.
  destruct (processTargets_keeps s targets) as [HP HO].
  set (s1 := Main.processTargets url_ParseRequestURI s targets) in *.
  assert (pages_parse s1) as Hp1.
  { intros k q. rewrite HP. apply Hp. }
  destruct (analyzePages_ok fs rt s1 Hp1) as (s2 & w & -> & G2 & Hc & Hu).
  simpl.
  destruct (generateHTMLReport_spec fs s2) as (G3 & Hg & Hr).
  destruct (generateHTMLReport fs s2) as [[err|] s3]; simpl in G3, Hg, Hr.
  - assert (report_ok fs = false) as Hf.
    { destruct (report_ok fs); [|reflexivity].
      destruct Hr as [_ Hr]. discriminate (Hr eq_refl). }
    eexists 1, _, w. split; [reflexivity|].
    assert (grows s2 (log s3 Out.Fatal "Error generating HTML report: %v\n")) as G
      by (apply grows_log, G3).
    split; [eapply grows_elem; [exact G | exact Hc]|].
    split; [eapply grows_elem; [apply grows_log, grows_refl | exact Hg]|].
    split; [intros Ho; destruct (Hu Ho) as [Ho1 Ho2]; split;
              [eapply grows_elem; [exact G | exact Ho1] | assumption]|].
    split; [tauto|]. split; [split; [lia | congruence]|].
    split; [intros _ _ _; split; [reflexivity | apply logged]|].
    congruence.
  - assert (report_ok fs = true) as Ht by (apply Hr; reflexivity).
    destruct (saveSessionAndPrintStats_spec fs s3) as (G4 & Hw & Hs).
    eexists 0, _, w. split; [reflexivity|].
    assert (grows s2 (saveSessionAndPrintStats fs s3)) as G
      by (eapply grows_trans; eassumption).
    split; [eapply grows_elem; [exact G | exact Hc]|].
    split; [eapply grows_elem; [exact G4 | exact Hg]|].
    split; [intros Ho; destruct (Hu Ho) as [Ho1 Ho2]; split;
              [eapply grows_elem; [exact G | exact Ho1] | assumption]|].
    split; [split; [lia | congruence]|]. split; [tauto|].
    split.
    + intros H1 H2 H3. unfold report_ok in Ht. rewrite H1, H2, H3 in Ht. discriminate.
    + intros _ Hsave. split; [reflexivity | apply Hs, Hsave].
Qed.

End PostProcessing.

Lemma post_processing_errors_witness :
  ∃ code s' written,
    Main.main_from_targets Go.Parse Go.ParseRequestURI Core.lcs_ratio
      files_urls_and_session_fail runtime_in_order example_session
      ["http://example.com/"%string] = Some (code, s', written)
    ∧ code = 0 ∧ written = []
    ∧ (Core.Out.Error, "Failed to open %s: %v\n"%string) ∈ Core.output s'
    ∧ (Core.Out.Error, "Failed to save session file: %v\n"%string) ∈ Core.output s'.
Proof.
  destruct (post_processing_errors Go.Parse Go.ParseRequestURI Core.lcs_ratio
              files_urls_and_session_fail runtime_in_order example_session
              ["http://example.com/"%string])
    as (code & s' & w & Hm & _ & _ & Hu & _ & _ & _ & Hs).
  - intros key page H. unfold example_session in H. simpl in H.
    apply lookup_singleton_Some in H as [_ <-]. vm_compute. eauto.
  - exists code, s', w. split; [exact Hm|].
    destruct (Hu eq_refl) as [Ho Hw]. destruct (Hs eq_refl eq_refl) as [Hc Hsv].
    repeat split; assumption.
Defined.

Example post_processing_render_fails :
  (λ r, (r.1.1, last (Core.output r.1.2))) <$>
    Main.main_from_targets Go.Parse Go.ParseRequestURI Core.lcs_ratio
      (Main.mkFiles true (λ _, true) true (λ _, None) (λ _, true)
                    true true false true true)
      runtime_in_order example_session ["http://example.com/"%string]
  = Some (1, Some (Core.Out.Fatal, "Error generating HTML report: %v\n"%string)).
Proof. vm_compute. reflexivity. Qed.

(** ** The clustering pass *)

(** *** The cluster map as a list of entries with distinct keys *)

Section ClusterMap.
Import Core Main.

Lemma cl_get_lookup (m : Clusters) (i : nat) (k : string) (c : list string) :
  NoDup m.*1 → m !! i = Some (k, c) → cl_get k m = c.
Proof.
  revert i. induction m as [|[k' v] m IH]; intros i Hnd Hi; [discriminate|].
  apply NoDup_cons in Hnd as [Hk' Hnd]. simpl.
  destruct i as [|i]; simpl in Hi.
  - injection Hi as -> ->. rewrite String.eqb_refl. reflexivity.
  - destruct (String.eqb_spec k' k) as [->|Hne].
    + exfalso. apply Hk'. apply list_elem_of_fmap. exists (k, c).
      split; [reflexivity|]. eapply list_elem_of_lookup_2, Hi.
    + eapply IH; eassumption.
Qed.

Lemma cl_set_lookup (m : Clusters) (i : nat) (k : string) (c v : list string) :
  NoDup m.*1 → m !! i = Some (k, c) → cl_set k v m = <[i := (k, v)]> m.
Proof.
  revert i. induction m as [|[k' v'] m IH]; intros i Hnd Hi; [discriminate|].
  apply NoDup_cons in Hnd as [Hk' Hnd]. simpl.
  destruct i as [|i]; simpl in Hi.
  - injection Hi as -> ->. rewrite String.eqb_refl. reflexivity.
  - destruct (String.eqb_spec k' k) as [->|Hne].
    + exfalso. apply Hk'. apply list_elem_of_fmap. exists (k, c).
      split; [reflexivity|]. eapply list_elem_of_lookup_2, Hi.
    + simpl. f_equal. eapply IH; eassumption.
Qed.

Lemma cl_set_fresh (m : Clusters) (k : string) (v : list string) :
  k ∉ m.*1 → cl_set k v m = m ++ [(k, v)].
Proof.
  induction m as [|[k' v'] m IH]; intros Hk; [reflexivity|]. simpl.
  apply not_elem_of_cons in Hk as [Hne Hk].
  destruct (String.eqb_spec k' k) as [->|_]; [contradiction|].
  rewrite IH by exact Hk. reflexivity.
Qed.

Lemma cl_set_elem (m : Clusters) (k : string) (v : list string) (e : string * list string) :
  e ∈ cl_set k v m → e ∈ m ∨ e = (k, v).
Proof.
  induction m as [|[k' v'] m IH]; simpl.
  - intros H. apply list_elem_of_singleton in H. right. exact H.
  - destruct (String.eqb_spec k' k) as [->|_]; intros H;
      apply elem_of_cons in H as [->|H].
    + right. reflexivity.
    + left. right. exact H.
    + left. left.
    + destruct (IH H) as [?|?]; [left; right; assumption | right; assumption].
Qed.

Lemma cl_get_elem (m : Clusters) (k : string) :
  cl_get k m = [] ∨ (k, cl_get k m) ∈ m.
Proof.
  induction m as [|[k' v'] m IH]; simpl; [left; reflexivity|].
  destruct (String.eqb_spec k' k) as [->|_].
  - right. left.
  - destruct IH as [?|?]; [left; assumption | right; right; assumption].
Qed.

(** A [range] that visits every position once visits every entry once. *)
Lemma range_clusters_seq (pre m : Clusters) :
  omap (λ i, (pre ++ m) !! i) (seq (length pre) (length m)) = m.
Proof.
  revert pre. induction m as [|e m IH]; intros pre; [reflexivity|].
  simpl. rewrite list_lookup_middle by reflexivity. f_equal.
  specialize (IH (pre ++ [e])). rewrite <- app_assoc, length_app in IH.
  simpl in IH. rewrite Nat.add_1_r in IH. exact IH.
Qed.

Lemma range_clusters_Permutation (order : list nat) (m : Clusters) :
  order ≡ₚ seq 0 (length m) → range_clusters order m ≡ₚ m.
Proof.
  intros H. unfold range_clusters. rewrite H.
  pose proof (range_clusters_seq [] m) as E. simpl in E. rewrite E. reflexivity.
Qed.

Lemma range_clusters_elem (order : list nat) (m : Clusters) (e : string * list string) :
  e ∈ range_clusters order m → ∃ i, m !! i = Some e.
Proof.
  unfold range_clusters. intros H. apply list_elem_of_omap in H as (i & _ & Hi).
  exists i. exact Hi.
Qed.

End ClusterMap.

(** *** One page at a time *)

Section Clustering.
Import Core Main.

Variable GetSimilarity : list string → list string → Q.

Local Abbreviation addToCluster := (Main.addToCluster GetSimilarity).
Local Abbreviation findCluster := (Main.findCluster GetSimilarity).
Local Abbreviation clusterPage := (Main.clusterPage GetSimilarity).
Local Abbreviation clusterLoop := (Main.clusterLoop GetSimilarity).
Local Abbreviation clusterPages := (Main.clusterPages GetSimilarity).
Local Abbreviation similar_to_all := (similar_to_all GetSimilarity).

Lemma lt_080_false (x : Q) : lt_080 x = false ↔ (80 # 100 <= x)%Q.
Proof.
  unfold lt_080. rewrite negb_false_iff. apply Qle_bool_iff.
Qed.

Lemma addToCluster_spec (s : Session) (page : Page) (cluster : list string) :
  (∀ pageURL, pageURL ∈ cluster → is_Some (GetPage s pageURL)) →
  addToCluster s page cluster = true ↔ similar_to_all s page cluster.
Proof.
  unfold similar_to_all.
  induction cluster as [|u cluster IH]; intros Hk; simpl.
  - split; [|reflexivity]. intros _ x Hx. inversion Hx.
  - destruct (Hk u) as [page2 H2]; [left|]. rewrite H2.
    assert (∀ x, x ∈ cluster → is_Some (GetPage s x)) as Hk'.
    { intros x Hx. apply Hk. right. exact Hx. }
    specialize (IH Hk').
    destruct (lt_080 _) eqn:E.
    + split; [discriminate|]. intros H.
      destruct (H u) as (q & Hq & Hle); [left|].
      rewrite H2 in Hq. injection Hq as <-.
      apply lt_080_false in Hle. congruence.
    + apply lt_080_false in E. rewrite IH. split.
      * intros H x Hx. apply elem_of_cons in Hx as [->|Hx]; [eauto | apply H, Hx].
      * intros H x Hx. apply H. right. exact Hx.
Qed.

(** [findCluster] answers with the first visited cluster that takes the
    page. *)
Lemma findCluster_Some (s : Session) (page : Page) (visit : Clusters) (k : string) :
  findCluster s page visit = Some k →
  ∃ before c after,
    visit = before ++ (k, c) :: after
    ∧ Forall (λ e, addToCluster s page e.2 = false) before
    ∧ addToCluster s page c = true.
Proof.
  induction visit as [|[k' c'] visit IH]; simpl; [discriminate|].
  destruct (addToCluster s page c') eqn:E.
  - intros [= <-]. exists [], c', visit. repeat split; [constructor | exact E].
  - intros H. destruct (IH H) as (before & c & after & -> & Hb & Hc).
    exists ((k', c') :: before), c, after. repeat split; [|exact Hc].
    constructor; [exact E | exact Hb].
Qed.

Lemma findCluster_None (s : Session) (page : Page) (visit : Clusters) :
  findCluster s page visit = None →
  Forall (λ e, addToCluster s page e.2 = false) visit.
Proof.
  induction visit as [|[k' c'] visit IH]; simpl; [constructor|].
  destruct (addToCluster s page c') eqn:E; [discriminate|].
  intros H. constructor; [exact E | exact (IH H)].
Qed.

Lemma rejects_spec (s : Session) (page : Page) (m visit : Clusters) :
  members_known s m → (∀ e, e ∈ visit → e ∈ m) →
  Forall (λ e, addToCluster s page e.2 = false) visit →
  Forall (λ e, ¬ similar_to_all s page e.2) visit.
Proof.
  intros Hk Hsub. rewrite !Forall_forall. intros H [k c] He. simpl.
  rewrite <- addToCluster_spec.
  - specialize (H _ He). simpl in H. rewrite H. discriminate.
  - intros u Hu. eapply Hk; [apply Hsub, He | exact Hu].
Qed.

(** The hypotheses of the next theorem hold again after the iteration, when
    the page is stored under its own URL. *)
Lemma clusterPage_members_known (rt : Runtime) (order : list nat) (page : Page)
    (s : Session) (nu : nat) :
  members_known s (PageSimilarityClusters s) →
  is_Some (GetPage s (URL page)) →
  members_known (clusterPage rt order page (s, nu)).1
                (PageSimilarityClusters (clusterPage rt order page (s, nu)).1).
Proof.
  intros Hk Hp. unfold Main.clusterPage.
  destruct (findCluster s page _) as [kk|]; simpl; intros k c u Hin Hu;
    apply cl_set_elem in Hin as [Hin | [= -> ->]].
  - exact (Hk k c u Hin Hu).
  - apply elem_of_app in Hu as [Hu|Hu].
    + destruct (cl_get_elem (PageSimilarityClusters s) kk) as [E | Hold].
      * rewrite E in Hu. inversion Hu.
      * exact (Hk _ _ u Hold Hu).
    + apply list_elem_of_singleton in Hu as ->. exact Hp.
  - exact (Hk k c u Hin Hu).
  - apply list_elem_of_singleton in Hu as ->. exact Hp.
Qed.

(** C4. One iteration of the clustering loop, for a cluster map with
    distinct keys whose members are pages of the session, and a UUID that is
    not yet a key. The clusters are visited in the order of this [range]
    (each of them once when the order is a permutation of the positions).
    Either some visited cluster is the first in which the page has similarity
    at least 0.80 with every member, and then the page's URL is appended to
    that cluster and nothing else changes; or no visited cluster is such, and
    then a cluster holding just this URL is stored under the new UUID. *)
Theorem clusterPage_first_accepting_cluster (rt : Runtime) (order : list nat)
    (page : Page) (s : Session) (nu : nat) :
  NoDup (PageSimilarityClusters s).*1 →
  uuid_New rt nu ∉ (PageSimilarityClusters s).*1 →
  members_known s (PageSimilarityClusters s) →
  let m := PageSimilarityClusters s in
  let visit := range_clusters order m in
  (order ≡ₚ seq 0 (length m) → visit ≡ₚ m)
  ∧ ((∃ before k c after m1 m2,
        visit = before ++ (k, c) :: after
        ∧ Forall (λ e, ¬ similar_to_all s page e.2) before
        ∧ similar_to_all s page c
        ∧ m = m1 ++ (k, c) :: m2
        ∧ clusterPage rt order page (s, nu)
          = (with_clusters s (m1 ++ (k, c ++ [URL page]) :: m2), nu))
     ∨ (Forall (λ e, ¬ similar_to_all s page e.2) visit
        ∧ clusterPage rt order page (s, nu)
          = (with_clusters s (m ++ [(uuid_New rt nu, [URL page])]), S nu))).
Proof.
  intros Hnd Hfresh Hknown m visit.
  split; [apply range_clusters_Permutation|].
  assert (∀ e, e ∈ visit → e ∈ m) as Hsub.
  { intros e He. apply range_clusters_elem in He as [i Hi].
    eapply list_elem_of_lookup_2, Hi. }
  unfold Main.clusterPage. fold m. fold visit.
  destruct (findCluster s page visit) as [k|] eqn:F.
  - left. destruct (findCluster_Some s page visit k F)
      as (before & c & after & Hv & Hb & Hc).
    assert ((k, c) ∈ visit) as Hin.
    { rewrite Hv. apply elem_of_app. right. left. }
    destruct (range_clusters_elem order m _ Hin) as [i Hi].
    pose proof (cl_get_lookup m i k c Hnd Hi) as Hget.
    pose proof (cl_set_lookup m i k c (c ++ [URL page]) Hnd Hi) as Hset.
    exists before, k, c, after, (take i m), (drop (S i) m).
    split; [exact Hv|]. split.
    { apply (rejects_spec s page m before Hknown); [|exact Hb].
      intros e He. apply Hsub. rewrite Hv. apply elem_of_app. left. exact He. }
    split.
    { apply addToCluster_spec; [|exact Hc].
      intros u Hu. eapply Hknown; [eapply list_elem_of_lookup_2, Hi | exact Hu]. }
    split; [symmetry; apply take_drop_middle, Hi|].
    rewrite Hget, Hset. f_equal. f_equal.
    apply insert_take_drop. eapply lookup_lt_Some, Hi.
  - right. split.
    + apply (rejects_spec s page m visit Hknown Hsub).
      apply findCluster_None, F.
    + rewrite (cl_set_fresh m _ _ Hfresh). reflexivity.
Qed.

(** *** The whole pass, without the keys

    With distinct keys the pass acts on the clusters by position: the keys
    are the UUIDs drawn so far, in the order in which they were drawn. *)

Lemma findCluster_find_pos (s : Session) (page : Page) (order : list nat)
    (m : Clusters) :
  findCluster s page (range_clusters order m)
  = find_pos (addToCluster s page) order m.*2 ≫= λ i, fst <$> m !! i.
Proof.
  unfold range_clusters.
  induction order as [|i order IH]; [reflexivity|]. simpl.
  rewrite list_lookup_fmap.
  destruct (m !! i) as [[k c]|] eqn:E; simpl; [|exact IH].
  destruct (Main.addToCluster GetSimilarity s page c); [|exact IH].
  simpl. rewrite E. reflexivity.
Qed.

Lemma find_pos_Some (accept : list string → bool) (order : list nat)
    (vs : list (list string)) (i : nat) :
  find_pos accept order vs = Some i → is_Some (vs !! i).
Proof.
  induction order as [|j order IH]; simpl; [discriminate|].
  destruct (vs !! j) as [c|] eqn:E; [|exact IH].
  destruct (accept c); [|exact IH]. intros [= <-]. eauto.
Qed.

Lemma keys_after_NoDup (rt : Runtime) (keys0 : list string) (nu : nat) :
  NoDup keys0 → Inj (=) (=) (uuid_New rt) → (∀ n, uuid_New rt n ∉ keys0) →
  NoDup (keys_after rt keys0 nu) ∧ uuid_New rt nu ∉ keys_after rt keys0 nu.
Proof.
  intros Hnd Hinj Hnew. unfold keys_after. split.
  - apply NoDup_app. split; [exact Hnd|]. split.
    + intros x Hx H. apply list_elem_of_fmap in H as (j & -> & _).
      exact (Hnew j Hx).
    + apply NoDup_fmap_2; [exact Hinj | apply NoDup_seq].
  - intros H. apply elem_of_app in H as [H|H]; [exact (Hnew nu H)|].
    apply list_elem_of_fmap in H as (j & Hj & Hin).
    apply Hinj in Hj. subst j. apply elem_of_seq in Hin. lia.
Qed.

(** One iteration, seen on the values and on the keys. *)
Lemma clusterPage_values (rt : Runtime) (keys0 : list string) (order : list nat)
    (page : Page) (s : Session) (nu : nat) :
  NoDup keys0 → Inj (=) (=) (uuid_New rt) → (∀ n, uuid_New rt n ∉ keys0) →
  (PageSimilarityClusters s).*1 = keys_after rt keys0 nu →
  let st' := clusterPage rt order page (s, nu) in
  (PageSimilarityClusters st'.1).*2
  = step_values (addToCluster s page) order (URL page) (PageSimilarityClusters s).*2
  ∧ (PageSimilarityClusters st'.1).*1 = keys_after rt keys0 st'.2
  ∧ Pages st'.1 = Pages s.
Proof.
  intros Hnd0 Hinj Hnew Hkeys. cbv zeta.
  set (m := PageSimilarityClusters s) in *.
  destruct (keys_after_NoDup rt keys0 nu Hnd0 Hinj Hnew) as [Hnd Hfresh].
  rewrite <- Hkeys in Hnd, Hfresh.
  assert (keys_after rt keys0 (S nu) = keys_after rt keys0 nu ++ [uuid_New rt nu])
    as Hnext.
  { unfold keys_after. rewrite seq_S, fmap_app, app_assoc. reflexivity. }
  unfold Main.clusterPage, step_values. fold m.
  rewrite findCluster_find_pos.
  destruct (find_pos (addToCluster s page) order m.*2) as [i|] eqn:F; simpl.
  - destruct (find_pos_Some _ _ _ _ F) as [c Hc].
    rewrite list_lookup_fmap in Hc.
    destruct (m !! i) as [[k c']|] eqn:E; [|discriminate].
    simpl in Hc. injection Hc as ->. simpl.
    rewrite (cl_get_lookup m i k c Hnd E), (cl_set_lookup m i k c _ Hnd E).
    repeat split.
    + rewrite list_fmap_insert. simpl.
      apply list_eq. intros j. destruct (decide (i = j)) as [<-|Hne].
      * rewrite list_lookup_insert_eq, list_lookup_alter_eq, list_lookup_fmap, E;
          [reflexivity|].
        rewrite length_fmap. eapply lookup_lt_Some, E.
      * rewrite list_lookup_insert_ne, list_lookup_alter_ne by exact Hne.
        reflexivity.
    + rewrite list_fmap_insert. simpl. rewrite <- Hkeys.
      apply list_insert_id. rewrite list_lookup_fmap, E. reflexivity.
  - rewrite (cl_set_fresh m _ _ Hfresh), !fmap_app.
    repeat split.
    refine (eq_trans _ (eq_sym Hnext)). rewrite Hkeys. reflexivity.
Qed.

Lemma addToCluster_Pages (s s' : Session) (page : Page) (cluster : list string) :
  Pages s' = Pages s → addToCluster s' page cluster = addToCluster s page cluster.
Proof.
  intros H. induction cluster as [|u cluster IH]; [reflexivity|]. simpl.
  unfold GetPage. rewrite H, IH. reflexivity.
Qed.

Lemma find_pos_ext (f g : list string → bool) (order : list nat)
    (vs : list (list string)) :
  (∀ c, f c = g c) → find_pos f order vs = find_pos g order vs.
Proof.
  intros H. induction order as [|i order IH]; [reflexivity|]. simpl.
  rewrite IH. destruct (vs !! i); [rewrite H|]; reflexivity.
Qed.

Lemma values_loop_ext (f g : Page → list string → bool) (o1 o2 : nat → list nat)
    (pages : list Page) (k : nat) (vs : list (list string)) :
  (∀ p c, f p c = g p c) → (∀ j, o1 j = o2 j) →
  values_loop f o1 pages k vs = values_loop g o2 pages k vs.
Proof.
  intros Hf Ho. revert k vs. induction pages as [|p pages IH]; intros k vs;
    [reflexivity|]. simpl.
  rewrite IH. unfold step_values.
  rewrite Ho, (find_pos_ext (f p) (g p)) by apply Hf. reflexivity.
Qed.

(** The loop, seen on the values: the UUIDs drawn do not matter. *)
Lemma clusterLoop_values (rt : Runtime) (keys0 : list string) (pages : list Page)
    (k : nat) (s : Session) (nu : nat) :
  NoDup keys0 → Inj (=) (=) (uuid_New rt) → (∀ n, uuid_New rt n ∉ keys0) →
  (PageSimilarityClusters s).*1 = keys_after rt keys0 nu →
  (PageSimilarityClusters (clusterLoop rt pages k (s, nu)).1).*2
  = values_loop (addToCluster s) (clusters_order rt) pages k
                (PageSimilarityClusters s).*2.
Proof.
  intros Hnd Hinj Hnew. revert k s nu.
  induction pages as [|page pages IH]; intros k s nu Hkeys; [reflexivity|].
  cbn [Main.clusterLoop values_loop].
  destruct (clusterPage_values rt keys0 (clusters_order rt k) page s nu
              Hnd Hinj Hnew Hkeys) as (Hv & Hk & Hp).
  destruct (clusterPage rt (clusters_order rt k) page (s, nu)) as [s' nu'].
  simpl in Hv, Hk, Hp.
  rewrite (IH (S k) s' nu' Hk), Hv.
  apply values_loop_ext; [|reflexivity].
  intros p c. apply addToCluster_Pages, Hp.
Qed.

Lemma clusterPages_values (rt : Runtime) (s : Session) :
  fresh_for rt (PageSimilarityClusters s) →
  (PageSimilarityClusters (clusterPages rt s)).*2
  = values_loop (addToCluster s) (clusters_order rt) (range_Pages rt s) 0
                (PageSimilarityClusters s).*2.
Proof.
  intros (Hnd & Hinj & Hnew). unfold Main.clusterPages. simpl.
  set (s0 := log s Out.Important "Clustering similar pages...").
  rewrite (clusterLoop_values rt (PageSimilarityClusters s).*1 _ 0 s0 0 Hnd Hinj Hnew).
  - apply values_loop_ext; [|reflexivity]. intros p c.
    apply addToCluster_Pages. reflexivity.
  - unfold keys_after. simpl. rewrite app_nil_r. reflexivity.
Qed.

(** Every iteration adds the page to exactly one cluster. *)
Lemma step_values_members (accept : list string → bool) (order : list nat)
    (u : string) (vs : list (list string)) :
  length (concat (step_values accept order u vs)) = S (length (concat vs)).
Proof.
  unfold step_values.
  destruct (find_pos accept order vs) as [i|] eqn:F.
  - destruct (find_pos_Some _ _ _ _ F) as [c Hc].
    rewrite <- (take_drop_middle vs i c Hc) at 1.
    rewrite alter_app_r_alt by (rewrite length_take; apply lookup_lt_Some in Hc; lia).
    rewrite length_take, Nat.min_l by (apply lookup_lt_Some in Hc; lia).
    rewrite Nat.sub_diag. simpl.
    rewrite <- (take_drop_middle vs i c Hc) at 3.
    rewrite !concat_app. simpl. rewrite !length_app. simpl. lia.
  - rewrite concat_app, length_app. simpl. lia.
Qed.

Lemma values_loop_members (accept : Page → list string → bool) (orders : nat → list nat)
    (pages : list Page) (k : nat) (vs : list (list string)) :
  length (concat (values_loop accept orders pages k vs))
  = (length (concat vs) + length pages)%nat.
Proof.
  revert k vs. induction pages as [|p pages IH]; intros k vs; simpl; [lia|].
  rewrite IH, step_values_members. lia.
Qed.

(** C5, as the code has it. Two runs of the clustering pass from the same
    session, with the same iteration orders over pages and clusters, end with
    the same clusters in the same order, whatever new UUIDs each run draws
    (in particular from the empty cluster map that [main] starts with). The
    pass does not clear the map: every page it iterates is added to exactly
    one cluster, on top of what the map held before. *)
Theorem clusterPages_same_orders_same_partition (rt1 rt2 : Runtime) (s : Session) :
  pages_order rt1 = pages_order rt2 →
  (∀ k, clusters_order rt1 k = clusters_order rt2 k) →
  fresh_for rt1 (PageSimilarityClusters s) →
  fresh_for rt2 (PageSimilarityClusters s) →
  (PageSimilarityClusters (clusterPages rt1 s)).*2
  = (PageSimilarityClusters (clusterPages rt2 s)).*2
  ∧ length (concat (PageSimilarityClusters (clusterPages rt1 s)).*2)
    = (length (concat (PageSimilarityClusters s).*2)
       + length (range_Pages rt1 s))%nat.
Proof.
  intros Hp Ho F1 F2.
  rewrite (clusterPages_values rt1 s F1), (clusterPages_values rt2 s F2).
  split.
  - unfold range_Pages. rewrite Hp. apply values_loop_ext; [reflexivity | exact Ho].
  - apply values_loop_members.
Qed.

(** The pages are taken one after the other, each with the clusters that
    the pages before it have left. *)
Lemma clusterLoop_snoc (rt : Runtime) (done : list Page) (page : Page) (k : nat)
    (st : Session * nat) :
  clusterLoop rt (done ++ [page]) k st
  = clusterPage rt (clusters_order rt (k + length done)) page
                (clusterLoop rt done k st).
Proof.
  revert k st. induction done as [|p done IH]; intros k st; simpl.
  - rewrite Nat.add_0_r. reflexivity.
  - rewrite IH. replace (S k + length done)%nat with (k + S (length done))%nat by lia.
    reflexivity.
Qed.

(** *** The order of the pages shows in the clusters *)

Lemma clusterPage_sublist (rt : Runtime) (order : list nat) (page : Page)
    (st : Session * nat) (done : list string) :
  (∀ k c, (k, c) ∈ PageSimilarityClusters st.1 → c `sublist_of` done) →
  ∀ k c, (k, c) ∈ PageSimilarityClusters (clusterPage rt order page st).1 →
         c `sublist_of` done ++ [URL page].
Proof.
  destruct st as [s nu]. simpl. intros Hinv k c.
  unfold Main.clusterPage.
  destruct (findCluster s page _) as [kk|]; simpl; intros Hin;
    apply cl_set_elem in Hin as [Hin | [= -> ->]].
  - apply sublist_inserts_r. eapply Hinv, Hin.
  - destruct (cl_get_elem (PageSimilarityClusters s) kk) as [-> | Hold].
    + apply sublist_inserts_l. reflexivity.
    + apply sublist_app; [eapply Hinv, Hold | reflexivity].
  - apply sublist_inserts_r. eapply Hinv, Hin.
  - apply sublist_inserts_l. reflexivity.
Qed.

Lemma clusterLoop_sublist (rt : Runtime) (pages : list Page) (j : nat)
    (st : Session * nat) (done : list string) :
  (∀ k c, (k, c) ∈ PageSimilarityClusters st.1 → c `sublist_of` done) →
  ∀ k c, (k, c) ∈ PageSimilarityClusters (clusterLoop rt pages j st).1 →
         c `sublist_of` done ++ (URL <$> pages).
Proof.
  revert j st done. induction pages as [|page pages IH]; intros j st done Hinv k c.
  - simpl. rewrite app_nil_r. apply Hinv.
  - cbn [Main.clusterLoop]. intros Hin.
    rewrite fmap_cons.
    replace (done ++ URL page :: (URL <$> pages))
      with ((done ++ [URL page]) ++ (URL <$> pages))
      by (rewrite <- app_assoc; reflexivity).
    eapply IH; [|exact Hin].
    apply clusterPage_sublist, Hinv.
Qed.

(** C6, as the code has it. The pages are clustered in the order in which
    the [range] over the page map delivers them, whatever that order is: it
    is an input of the pass, not sorted. From an empty cluster map, every
    cluster lists its members in that order of iteration. *)
Theorem clusterPages_members_in_iteration_order (rt : Runtime) (s : Session) :
  PageSimilarityClusters s = [] →
  ∀ k c, (k, c) ∈ PageSimilarityClusters (clusterPages rt s) →
         c `sublist_of` (URL <$> range_Pages rt s).
Proof.
  intros Hempty k c. unfold Main.clusterPages. simpl. intros Hin.
  eapply (clusterLoop_sublist rt _ 0 _ []); [|exact Hin].
  simpl. rewrite Hempty. intros k' c' H. inversion H.
Qed.

End Clustering.

(** *** Three pages: two like the third, not like each other *)

Section ThreePages.
Import Core Main.

Example similarities :
  (lcs_ratio (PageStructure page_a) (PageStructure page_p) == 14 # 16)%Q
  ∧ (lcs_ratio (PageStructure page_p) (PageStructure page_q) == 14 # 16)%Q
  ∧ (lcs_ratio (PageStructure page_a) (PageStructure page_q) == 14 # 18)%Q.
Proof. repeat split. Qed.

Lemma uuid_seq_inj (run : string) : Inj (=) (=) (uuid_seq run).
Proof.
  intros i j H. unfold uuid_seq in H. apply append_inv_head in H.
  apply (inj pretty) in H. exact H.
Qed.

Example clusters_sorted :
  PageSimilarityClusters (clusterPages lcs_ratio (rt_sorted "a-") three_pages)
  = [("a-0"%string, [url_a; url_p]); ("a-1"%string, [url_q])].
Proof. vm_compute. reflexivity. Qed.

Example clusters_reversed :
  PageSimilarityClusters (clusterPages lcs_ratio (rt_reversed "a-") three_pages)
  = [("a-0"%string, [url_q; url_p]); ("a-1"%string, [url_a])].
Proof. vm_compute. reflexivity. Qed.

Example clusters_second_pass :
  PageSimilarityClusters
    (clusterPages lcs_ratio (rt_newest_first "b-")
       (clusterPages lcs_ratio (rt_newest_first "a-") three_pages))
  = [("a-0"%string, [url_a; url_p; url_a]); ("a-1"%string, [url_q; url_p; url_q])].
Proof. vm_compute. reflexivity. Qed.

Lemma three_keys_distinct : NoDup [url_a; url_p; url_q].
Proof. compute_done. Qed.

Lemma three_pages_keys :
  (map_to_list (Pages three_pages)).*1 ≡ₚ [url_a; url_p; url_q].
Proof.
  unfold three_pages, with_Pages. cbn [Pages].
  rewrite map_to_list_to_map by exact three_keys_distinct. reflexivity.
Qed.

Lemma uuid_seq_fresh_for (run : string) : fresh_for (rt_sorted run) [].
Proof.
  split; [constructor|]. split; [apply uuid_seq_inj|]. intros n H. inversion H.
Qed.

Lemma clusterPage_first_accepting_cluster_witness :
  ([0%nat] ≡ₚ seq 0 1 →
   range_clusters [0%nat] [("a-0"%string, [url_a; url_p])]
   ≡ₚ [("a-0"%string, [url_a; url_p])])
  ∧ ((∃ before k c after m1 m2,
        range_clusters [0%nat] [("a-0"%string, [url_a; url_p])]
        = before ++ (k, c) :: after
        ∧ Forall (λ e, ¬ similar_to_all lcs_ratio two_clustered page_q e.2) before
        ∧ similar_to_all lcs_ratio two_clustered page_q c
        ∧ [("a-0"%string, [url_a; url_p])] = m1 ++ (k, c) :: m2
        ∧ clusterPage lcs_ratio (rt_sorted "a-") [0%nat] page_q (two_clustered, 1%nat)
          = (with_clusters two_clustered (m1 ++ (k, c ++ [URL page_q]) :: m2), 1%nat))
     ∨ (Forall (λ e, ¬ similar_to_all lcs_ratio two_clustered page_q e.2)
               (range_clusters [0%nat] [("a-0"%string, [url_a; url_p])])
        ∧ clusterPage lcs_ratio (rt_sorted "a-") [0%nat] page_q (two_clustered, 1%nat)
          = (with_clusters two_clustered
               ([("a-0"%string, [url_a; url_p])]
                  ++ [(uuid_New (rt_sorted "a-") 1, [URL page_q])]), 2%nat))).
Proof.
  apply (clusterPage_first_accepting_cluster lcs_ratio (rt_sorted "a-") [0%nat]
           page_q two_clustered 1).
  - compute_done.
  - compute_done.
  - intros k c u Hin Hu. simpl in Hin.
    apply list_elem_of_singleton in Hin. injection Hin as -> ->.
    apply elem_of_cons in Hu as [->|Hu]; [vm_compute; eauto|].
    apply list_elem_of_singleton in Hu as ->. vm_compute. eauto.
Defined.

Lemma clusterPages_same_orders_same_partition_witness :
  (PageSimilarityClusters (clusterPages lcs_ratio (rt_sorted "a-") three_pages)).*2
  = (PageSimilarityClusters (clusterPages lcs_ratio (rt_sorted "b-") three_pages)).*2
  ∧ length (concat (PageSimilarityClusters
                      (clusterPages lcs_ratio (rt_sorted "a-") three_pages)).*2)
    = (length (concat (PageSimilarityClusters three_pages).*2)
       + length (range_Pages (rt_sorted "a-") three_pages))%nat.
Proof.
  apply (clusterPages_same_orders_same_partition lcs_ratio
           (rt_sorted "a-") (rt_sorted "b-") three_pages).
  - reflexivity.
  - intros k. reflexivity.
  - apply uuid_seq_fresh_for.
  - apply uuid_seq_fresh_for.
Defined.

(** C5, as the claim has it, fails: a second pass over the session that the
    first pass has clustered, with the same iteration orders (clusters newest
    first) and new UUIDs, puts [url_p] into the cluster of [url_q] as well,
    where the first pass had kept the two apart; and every cluster has gained
    members. *)
Lemma clusterPages_twice_differs :
  ¬ (∀ (rt1 rt2 : Runtime) (s : Session),
       PageSimilarityClusters s = [] →
       pages_order rt2 = pages_order rt1 →
       (∀ k, clusters_order rt2 k = clusters_order rt1 k) →
       fresh_for rt1 (PageSimilarityClusters s) →
       fresh_for rt2 (PageSimilarityClusters (clusterPages lcs_ratio rt1 s)) →
       same_partition
         (PageSimilarityClusters (clusterPages lcs_ratio rt2 (clusterPages lcs_ratio rt1 s)))
         (PageSimilarityClusters (clusterPages lcs_ratio rt1 s))).
Proof.
  intros H.
  specialize (H (rt_newest_first "a-") (rt_newest_first "b-") three_pages
                eq_refl eq_refl (λ _, eq_refl)).
  assert (together
            (PageSimilarityClusters
               (clusterPages lcs_ratio (rt_newest_first "b-")
                  (clusterPages lcs_ratio (rt_newest_first "a-") three_pages)))
            url_p url_q
          = together
              (PageSimilarityClusters
                 (clusterPages lcs_ratio (rt_newest_first "a-") three_pages))
              url_p url_q) as E.
  { apply H.
    - split; [constructor|]. split; [apply uuid_seq_inj|]. intros n Hn. inversion Hn.
    - split; [compute_done|].
      split; [apply uuid_seq_inj|].
      intros n Hn.
      assert ((PageSimilarityClusters
                 (clusterPages lcs_ratio (rt_newest_first "a-") three_pages)).*1
              = ["a-0"; "a-1"]%string) as K by (vm_compute; reflexivity).
      rewrite K in Hn. simpl in Hn. unfold uuid_seq in Hn.
      apply elem_of_cons in Hn as [Hn|Hn];
        [|apply list_elem_of_singleton in Hn];
        rewrite append_cons in Hn; discriminate Hn. }
  vm_compute in E. discriminate E.
Qed.

Lemma clusterPages_members_in_iteration_order_witness :
  [url_a; url_p] `sublist_of` (URL <$> range_Pages (rt_sorted "a-") three_pages).
Proof.
  apply (clusterPages_members_in_iteration_order lcs_ratio (rt_sorted "a-")
           three_pages eq_refl "a-0"%string).
  rewrite clusters_sorted. left.
Defined.

(** C6, as the claim has it, fails: nothing sorts the pages, and two
    executions over the same page map that receive its keys in different
    orders (both enumerate the same three keys) cluster [url_a] with [url_p]
    in one and apart in the other. *)
Lemma clusterPages_depends_on_page_order :
  ¬ (∀ (rt1 rt2 : Runtime) (s : Session),
       PageSimilarityClusters s = [] →
       pages_order rt1 ≡ₚ (map_to_list (Pages s)).*1 →
       pages_order rt2 ≡ₚ (map_to_list (Pages s)).*1 →
       (∀ k, clusters_order rt1 k = clusters_order rt2 k) →
       (∀ n, uuid_New rt1 n = uuid_New rt2 n) →
       same_partition
         (PageSimilarityClusters (clusterPages lcs_ratio rt1 s))
         (PageSimilarityClusters (clusterPages lcs_ratio rt2 s))).
Proof.
  intros H.
  specialize (H (rt_sorted "a-") (rt_reversed "a-") three_pages eq_refl).
  assert (together
            (PageSimilarityClusters (clusterPages lcs_ratio (rt_sorted "a-") three_pages))
            url_a url_p
          = together
              (PageSimilarityClusters
                 (clusterPages lcs_ratio (rt_reversed "a-") three_pages))
              url_a url_p) as E.
  { apply H.
    - symmetry. apply three_pages_keys.
    - rewrite three_pages_keys. simpl.
      symmetry. apply (Permutation_rev [url_a; url_p; url_q]).
    - intros k. reflexivity.
    - intros n. reflexivity. }
  rewrite clusters_sorted, clusters_reversed in E. vm_compute in E. discriminate E.
Qed.

(** Scenario 6 of the spec: two pages with the same skeleton and one with a
    disjoint skeleton make two clusters, of two pages and of one. *)
Example two_alike_one_apart :
  let s :=
    with_Pages (empty_session default_options [])
      (list_to_map [(url_a, page_with url_a skeleton);
                    (url_p, page_with url_p skeleton);
                    (url_q, page_with url_q ["0:svg"; "1:g"; "2:path"]%string)]) in
  (PageSimilarityClusters (clusterPages lcs_ratio (rt_sorted "a-") s)).*2
  = [[url_a; url_p]; [url_q]].
Proof. vm_compute. reflexivity. Qed.

End ThreePages.

(** * Further properties of the code *)

(** ** Headers, tags and notes of a page *)

Section PageProperties.
Import Core PageMethods.

Ltac table_cases H :=
  apply elem_of_list_to_map_2 in H;
  repeat (apply elem_of_cons in H as [H|H]; [injection H as -> ->|]);
  [.. | inversion H].

(** What the table of degrading headers holds for a lower-cased name. *)
Lemma decreasesSecurity_cases (h : Header) :
  decreasesSecurity h = true ↔
    Go.ToLower (Name h) ∈ ["server"; "wpe-backend"; "x-powered-by"; "x-cf-powered-by";
                           "x-pingback"]%string
    ∨ (Go.ToLower (Name h) = "access-control-allow-origin"%string
       ∧ Value h = "*"%string)
    ∨ (Go.ToLower (Name h) = "x-xss-protection"%string
       ∧ Go.HasPrefix (Value h) "1" = false).
Proof.
  unfold decreasesSecurity. split.
  - destruct (degradingSecurityHeaders !! Go.ToLower (Name h)) as [f|] eqn:E;
      [|discriminate].
    unfold degradingSecurityHeaders in E. table_cases E; intros Hv.
    + left. set_solver.
    + left. set_solver.
    + left. set_solver.
    + left. set_solver.
    + left. set_solver.
    + right. left. split; [reflexivity|]. apply String.eqb_eq, Hv.
    + right. right. split; [reflexivity|]. apply negb_true_iff, Hv.
  - intros [Hin | [[Hn Hv] | [Hn Hv]]].
    + repeat (apply elem_of_cons in Hin as [-> | Hin]; [reflexivity|]).
      inversion Hin.
    + rewrite Hn, Hv. reflexivity.
    + rewrite Hn. change (negb (Go.HasPrefix (Value h) "1") = true).
      rewrite Hv. reflexivity.
Qed.

Lemma increasesSecurity_cases (h : Header) :
  increasesSecurity h = true ↔
    Go.ToLower (Name h) ∈ ["content-security-policy";
                           "content-security-policy-report-only";
                           "strict-transport-security"; "x-frame-options";
                           "referrer-policy"; "public-key-pins"]%string
    ∨ (Go.ToLower (Name h) = "x-permitted-cross-domain-policies"%string
       ∧ Go.ToLower (Value h) = "master-only"%string)
    ∨ (Go.ToLower (Name h) = "x-content-type-options"%string
       ∧ Go.ToLower (Value h) = "nosniff"%string)
    ∨ (Go.ToLower (Name h) = "x-xss-protection"%string
       ∧ Go.HasPrefix (Value h) "1" = true).
Proof.
  unfold increasesSecurity. split.
  - destruct (increasingSecurityHeaders !! Go.ToLower (Name h)) as [f|] eqn:E;
      [|discriminate].
    unfold increasingSecurityHeaders in E. table_cases E; intros Hv.
    + left. set_solver.
    + left. set_solver.
    + left. set_solver.
    + left. set_solver.
    + left. set_solver.
    + left. set_solver.
    + right. left. split; [reflexivity|]. apply String.eqb_eq, Hv.
    + right. right. left. split; [reflexivity|]. apply String.eqb_eq, Hv.
    + right. right. right. split; [reflexivity|]. exact Hv.
  - intros [Hin | [[Hn Hv] | [[Hn Hv] | [Hn Hv]]]].
    + repeat (apply elem_of_cons in Hin as [-> | Hin]; [reflexivity|]).
      inversion Hin.
    + rewrite Hn. change (String.eqb (Go.ToLower (Value h)) "master-only" = true).
      rewrite Hv. reflexivity.
    + rewrite Hn. change (String.eqb (Go.ToLower (Value h)) "nosniff" = true).
      rewrite Hv. reflexivity.
    + rewrite Hn. exact Hv.
Qed.

Ltac split_membership H :=
  repeat (apply elem_of_cons in H as [H|H]); try (inversion H; fail).

Lemma predicates_never_both (h : Header) :
  decreasesSecurity h && increasesSecurity h = false.
Proof.
  destruct (decreasesSecurity h) eqn:Ed; [|reflexivity].
  destruct (increasesSecurity h) eqn:Ei; [exfalso|reflexivity].
  apply decreasesSecurity_cases in Ed. apply increasesSecurity_cases in Ei.
  destruct Ed as [Hd | [[Hd _] | [Hd Hp]]];
    destruct Ei as [Hi | [[Hi _] | [[Hi _] | [Hi Hq]]]];
    try split_membership Hd; try split_membership Hi; congruence.
Qed.

Lemma SetSecurityFlags_stores (h : Header) :
  SetSecurityFlags h
  = mkHeader (Name h) (Value h) (decreasesSecurity h) (increasesSecurity h).
Proof.
  pose proof (predicates_never_both h) as H. unfold SetSecurityFlags.
  destruct (decreasesSecurity h), (increasesSecurity h);
    try reflexivity; discriminate H.
Qed.

(** X1. The two tables never both apply: no header, whatever its name and
    value, is both degrading and increasing.  So [SetSecurityFlags] stores
    the answers of [decreasesSecurity] and [increasesSecurity] as they are,
    whatever flags the header carried, and setting the flags twice is
    setting them once. *)
Theorem security_predicates_never_both (h : Header) :
  decreasesSecurity h && increasesSecurity h = false
  ∧ DecreasesSecurity (SetSecurityFlags h) = decreasesSecurity h
  ∧ IncreasesSecurity (SetSecurityFlags h) = increasesSecurity h
  ∧ SetSecurityFlags (SetSecurityFlags h) = SetSecurityFlags h
  ∧ (∀ d i, SetSecurityFlags (mkHeader (Name h) (Value h) d i) = SetSecurityFlags h).
Proof.
  split; [apply predicates_never_both|].
  rewrite !SetSecurityFlags_stores. repeat split.
  intros d i. rewrite !SetSecurityFlags_stores. reflexivity.
Qed.


(** [AddHeader] many times over, for the headers of a response in order. *)
Lemma AddHeader_foldl (l : list (string * string)) (p : Page) :
  foldl (λ q nv, AddHeader q nv.1 nv.2) p l
  = mkPage (UUID p) (URL p) (Hostname p) (Addrs p) (Status p) (PageTitle p)
           (PageStructure p) (HeadersPath p) (BodyPath p) (ScreenshotPath p)
           (HasScreenshot p) (Headers p ++ (header_of <$> l)) (Tags p) (Notes p).
Proof.
  revert p. induction l as [|nv l IH]; intros p; simpl.
  - rewrite app_nil_r. destruct p; reflexivity.
  - rewrite IH. simpl. rewrite <- app_assoc. reflexivity.
Qed.

(** X3. The headers of a page are the headers that were added, in the order
    of the calls, each classified by its own name and value; when the
    headers the page had carry at most one flag each, so do all headers
    afterwards.  Nothing else of the page changes. *)
Theorem AddHeader_keeps_order_and_flags (l : list (string * string)) (p : Page) :
  Forall exclusive (Headers p) →
  let p' := foldl (λ q nv, AddHeader q nv.1 nv.2) p l in
  Headers p' = Headers p ++ (header_of <$> l)
  ∧ Forall exclusive (Headers p')
  ∧ (UUID p', URL p', Hostname p', Addrs p', Status p', PageTitle p', PageStructure p')
    = (UUID p, URL p, Hostname p, Addrs p, Status p, PageTitle p, PageStructure p)
  ∧ (HeadersPath p', BodyPath p', ScreenshotPath p', HasScreenshot p', Tags p', Notes p')
    = (HeadersPath p, BodyPath p, ScreenshotPath p, HasScreenshot p, Tags p, Notes p).
Proof.
  intros Hex. cbv zeta. rewrite AddHeader_foldl. cbn [Headers UUID URL Hostname Addrs
    Status PageTitle PageStructure HeadersPath BodyPath ScreenshotPath HasScreenshot
    Tags Notes].
  split; [reflexivity|]. split; [|split; reflexivity].
  apply Forall_app. split; [exact Hex|].
  apply Forall_fmap, Forall_forall. intros nv _. unfold exclusive, header_of. simpl.
  rewrite SetSecurityFlags_stores. simpl. apply predicates_never_both.
Qed.

(** A page that came with two headers, then a response that adds three. *)
Lemma AddHeader_keeps_order_and_flags_witness :
  Forall exclusive (Headers (AddHeader example_page "X-Frame-Options" "DENY"))
  ∧ (Name <$> Headers (foldl (λ q nv, AddHeader q nv.1 nv.2)
                             (AddHeader example_page "X-Frame-Options" "DENY")
                             [("Server", "nginx"); ("X-XSS-Protection", "1; mode=block");
                              ("Content-Type", "text/html")]%string))
    = (Name <$> Headers example_page)
      ++ ["X-Frame-Options"; "Server"; "X-XSS-Protection"; "Content-Type"]%string.
Proof.
  assert (Forall exclusive (Headers (AddHeader example_page "X-Frame-Options" "DENY"))) as H.
  { repeat constructor. }
  split; [exact H|].
  destruct (AddHeader_keeps_order_and_flags
              [("Server", "nginx"); ("X-XSS-Protection", "1; mode=block");
               ("Content-Type", "text/html")]%string _ H) as [E _].
  rewrite E. rewrite fmap_app. reflexivity.
Defined.

Lemma do_calls (calls : list PageCall) (p : Page) :
  foldl do_call p calls
  = mkPage (UUID p) (URL p) (Hostname p) (Addrs p) (Status p) (PageTitle p)
           (PageStructure p) (HeadersPath p) (BodyPath p) (ScreenshotPath p)
           (HasScreenshot p) (Headers p ++ headers_of calls) (Tags p ++ tags_of calls)
           (Notes p ++ notes_of calls).
Proof.
  revert p. induction calls as [|c calls IH]; intros p.
  - simpl. rewrite !app_nil_r. destruct p; reflexivity.
  - cbn [foldl]. rewrite IH.
    destruct c; cbn; rewrite <- ?app_assoc; reflexivity.
Qed.

(** X4. Headers, tags and notes are kept in three lists that do not touch
    each other.  After any sequence of calls of [AddHeader], [AddTag] and
    [AddNote], each list is what it was, followed by what the calls of its
    own method added, in their order; no other field of the page has
    changed.  So two sequences that make the same calls of each method give
    the same page, however the three kinds of calls are interleaved. *)
Theorem AddHeader_AddTag_AddNote_commute (p : Page) (calls : list PageCall) :
  Headers (foldl do_call p calls) = Headers p ++ headers_of calls
  ∧ Tags (foldl do_call p calls) = Tags p ++ tags_of calls
  ∧ Notes (foldl do_call p calls) = Notes p ++ notes_of calls
  ∧ (UUID (foldl do_call p calls), URL (foldl do_call p calls),
     Hostname (foldl do_call p calls), Addrs (foldl do_call p calls),
     Status (foldl do_call p calls), PageTitle (foldl do_call p calls),
     PageStructure (foldl do_call p calls))
    = (UUID p, URL p, Hostname p, Addrs p, Status p, PageTitle p, PageStructure p)
  ∧ (HeadersPath (foldl do_call p calls), BodyPath (foldl do_call p calls),
     ScreenshotPath (foldl do_call p calls), HasScreenshot (foldl do_call p calls))
    = (HeadersPath p, BodyPath p, ScreenshotPath p, HasScreenshot p)
  ∧ ∀ calls', headers_of calls' = headers_of calls → tags_of calls' = tags_of calls →
              notes_of calls' = notes_of calls →
              foldl do_call p calls' = foldl do_call p calls.
Proof.
  rewrite !do_calls. cbn [Headers Tags Notes UUID URL Hostname Addrs Status PageTitle
    PageStructure HeadersPath BodyPath ScreenshotPath HasScreenshot].
  do 5 (split; [reflexivity|]).
  intros calls' Hh Ht Hn. rewrite do_calls, Hh, Ht, Hn. reflexivity.
Qed.

Example interleavings_agree (p : Page) :
  foldl do_call p [CallAddHeader "Server" "nginx"; CallAddTag "CMS" "tech" "";
                   CallAddNote "default page" "info"; CallAddHeader "Date" "today"]
  = foldl do_call p [CallAddNote "default page" "info"; CallAddHeader "Server" "nginx";
                     CallAddHeader "Date" "today"; CallAddTag "CMS" "tech" ""].
Proof. rewrite !do_calls. reflexivity. Qed.

(** The digest in hexadecimal: forty digits, none of them upper case. *)
Lemma hex_sha1_shape (s : string) :
  String.length (Go.hex (Go.sha1_Sum s)) = 40%nat
  ∧ Go.ToLower (Go.hex (Go.sha1_Sum s)) = Go.hex (Go.sha1_Sum s).
Proof.
  destruct (sha1_Sum_spec s) as [Hl Hb]. split.
  - rewrite hex_length, Hl. reflexivity.
  - apply ToLower_hex. exact Hb.
Qed.

Lemma hex_digit_char (d : Z) : 0 ≤ d < 16 → hex_char (Go.hex_digit d).
Proof.
  intros H.
  assert (d = 0 ∨ d = 1 ∨ d = 2 ∨ d = 3 ∨ d = 4 ∨ d = 5 ∨ d = 6 ∨ d = 7 ∨ d = 8
          ∨ d = 9 ∨ d = 10 ∨ d = 11 ∨ d = 12 ∨ d = 13 ∨ d = 14 ∨ d = 15)
    as Hd by lia.
  unfold hex_char.
  repeat (destruct Hd as [-> | Hd]; [compute_done|]).
  subst d. compute_done.
Qed.

Lemma hex_is_hex (bs : list Z) : Forall is_byte bs → is_hex (Go.hex bs).
Proof.
  unfold is_hex. induction 1 as [|b bs Hb _ IH]; simpl; [constructor|].
  unfold is_byte in Hb.
  apply Forall_cons. split.
  { apply hex_digit_char.
    split; [apply Z.div_pos; lia | apply Z.div_lt_upper_bound; lia]. }
  apply Forall_cons. split; [|exact IH].
  apply hex_digit_char, Z.mod_pos_bound. lia.
Qed.



(** X5. The tag that [AddTag] appends carries the text, type and link it was
    given and a hash of forty lower-case hexadecimal digits; it has a link
    exactly when the link is not empty.  The hash is taken over the three
    strings written back to back, so moving the end of the text into the
    start of the type gives a different tag with the same hash. *)
Theorem AddTag_hash (p : Page) (text tagType link : string) :
  ∃ h, Tags (AddTag p text tagType link) = Tags p ++ [mkTag text tagType link h]
       ∧ String.length h = 40%nat ∧ is_hex h
       ∧ HasLink (mkTag text tagType link h) = negb (String.eqb link "")
       ∧ ∀ (q : Page) (a b : string),
           text = a +:+ b →
           Tags (AddTag q a (b +:+ tagType) link)
           = Tags q ++ [mkTag a (b +:+ tagType) link h].
Proof.
  exists (Go.hex (Go.sha1_Sum (text +:+ tagType +:+ link))).
  destruct (sha1_Sum_spec (text +:+ tagType +:+ link)) as [Hl Hb].
  split; [reflexivity|]. split; [rewrite hex_length, Hl; reflexivity|].
  split; [apply hex_is_hex, Hb|]. split.
  - unfold HasLink. cbn [Link]. destruct (String.eqb link ""); reflexivity.
  - intros q a b ->. unfold AddTag. cbn [Tags].
    rewrite <- !append_assoc. reflexivity.
Qed.

End PageProperties.

(** ** The shape of base file names *)

Section BaseFilenameShape.
Import Core.

Lemma lower_ascii_eqb (c d : ascii) :
  Go.lower_ascii d = d → (∀ e, Go.lower_ascii e = d → e = d) →
  Ascii.eqb (Go.lower_ascii c) d = Ascii.eqb c d.
Proof.
  intros Hd Hinj. destruct (Ascii.eqb_spec c d) as [->|Hne].
  - rewrite Hd. apply Ascii.eqb_refl.
  - apply Ascii.eqb_neq. intros H. apply Hne, Hinj, H.
Qed.

Lemma lower_ascii_dot (e : ascii) : Go.lower_ascii e = "."%char → e = "."%char.
Proof.
  destruct e as [[] [] [] [] [] [] [] []]; vm_compute; intros H;
    first [reflexivity | discriminate H].
Qed.


Lemma ToLower_ReplaceAll_dot (s : string) :
  Go.ToLower (Go.ReplaceAll s "." "_") = Go.ReplaceAll (Go.ToLower s) "." "_".
Proof.
  induction s as [|c s IH]; [reflexivity|].
  cbn [Go.ReplaceAll Go.ToLower].
  rewrite (lower_ascii_eqb c "." eq_refl lower_ascii_dot).
  destruct (Ascii.eqb c ".").
  - change (Go.ToLower (String "_" (Go.ReplaceAll s "." "_"))
            = String "_" (Go.ReplaceAll (Go.ToLower s) "." "_")).
    cbn [Go.ToLower]. rewrite IH. reflexivity.
  - cbn [Go.ToLower]. rewrite IH. reflexivity.
Qed.









Section WithParser.

Variable url_Parse : string → option Go.URL.



End WithParser.


End BaseFilenameShape.

(** ** The goroutines of the port scanner *)

Section PortScans.
Import Core Agents PortScan.

(** X8. Every dial of the port scanner has a timeout of at least five
    seconds: a [ScanTimeout] below 5000 ms, the default of 100 ms among
    them, is replaced by five seconds, and so is one so large that its
    nanoseconds overflow to a negative duration.  From 5000 ms up to the
    overflow the timeout is the option. *)
Theorem scanTimeout_at_least_five_seconds (s : Session) (ms : Z) :
  ScanTimeout (options s) = Some ms →
  ∃ t, scanTimeout s = Some t
       ∧ 5 * Go.Second ≤ t < 2 ^ 63
       ∧ (- 9223372036854 ≤ ms ≤ 9223372036854 →
          t = Z.max (5 * Go.Second) (ms * Go.Millisecond))
       ∧ (9223372036855 ≤ ms ≤ 18446744073709 → t = 5 * Go.Second)
       ∧ (∀ defaultPorts cl, options s = ParseOptions defaultPorts cl →
            flag_scan_timeout cl = None → t = 5 * Go.Second).
Proof.
  intros Hms. unfold scanTimeout. rewrite Hms. simpl.
  eexists. split; [reflexivity|].
  assert (- 2 ^ 63 ≤ Go.mul64 ms Go.Millisecond < 2 ^ 63) as Hr.
  { unfold Go.mul64, Go.wrap64.
    pose proof (Z.mod_pos_bound (ms * Go.Millisecond + 2 ^ 63) (2 ^ 64)). lia. }
  unfold Go.Second in *. split; [|split; [|split]].
  - destruct (Z.ltb_spec (Go.mul64 ms Go.Millisecond) (5 * 1000000000)); lia.
  - intros Hs.
    assert (Go.mul64 ms Go.Millisecond = ms * Go.Millisecond) as ->.
    { unfold Go.mul64, Go.wrap64, Go.Millisecond.
      rewrite Z.mod_small by lia. lia. }
    unfold Go.Millisecond.
    destruct (Z.ltb_spec (ms * 1000000) (5 * 1000000000)); lia.
  - intros Hs.
    assert (Go.mul64 ms Go.Millisecond = ms * Go.Millisecond - 2 ^ 64) as ->.
    { unfold Go.mul64, Go.wrap64, Go.Millisecond.
      replace (ms * 1000000 + 2 ^ 63)
        with ((ms * 1000000 - 2 ^ 63) + 1 * 2 ^ 64) by lia.
      rewrite Z.mod_add by lia. rewrite Z.mod_small by lia. lia. }
    unfold Go.Millisecond.
    destruct (Z.ltb_spec (ms * 1000000 - 2 ^ 64) (5 * 1000000000)); lia.
  - intros dp cl Ho Hf. rewrite Ho in Hms. simpl in Hms. rewrite Hf in Hms.
    injection Hms as <-. reflexivity.
Qed.

Lemma scanTimeout_at_least_five_seconds_witness :
  scanTimeout example_session = Some (5 * Go.Second).
Proof.
  destruct (scanTimeout_at_least_five_seconds example_session 100 eq_refl)
    as (t & -> & _ & _ & _ & Hd).
  f_equal. apply (Hd "80,443,8000,8080,8443"%string no_flags); reflexivity.
Defined.

(** *** What one goroutine does to the session *)

Lemma scanPort_keeps timeout n port host st :
  options (scanPort timeout n port host st).2.1 = options st.1
  ∧ ports (scanPort timeout n port host st).2.1 = ports st.1
  ∧ Pages (scanPort timeout n port host st).2.1 = Pages st.1.
Proof.
  unfold scanPort, close_conn.
  destruct (dial n) as [[]| |], (setReadDeadline_ok n), (read_ok n), (close_ok n);
    repeat split; reflexivity.
Qed.

Lemma attemptLoop_keeps n timeout net port host attempts success st :
  let r := attemptLoop n timeout net port host attempts success st in
  options r.2.1 = options st.1 ∧ ports r.2.1 = ports st.1 ∧ Pages r.2.1 = Pages st.1.
Proof.
  cbv zeta. revert attempts success st.
  induction n as [|n IH]; intros attempts success st; simpl; [repeat split|].
  destruct ((attempts <? 2) && negb success); [|repeat split].
  set (st1 := if 0 <? attempts then _ else st).
  assert (options st1.1 = options st.1 ∧ ports st1.1 = ports st.1
          ∧ Pages st1.1 = Pages st.1) as (E1 & E2 & E3).
  { subst st1. destruct (0 <? attempts); repeat split. }
  pose proof (scanPort_keeps timeout (net attempts) port host st1) as (K1 & K2 & K3).
  destruct (scanPort timeout (net attempts) port host st1) as [ok st2].
  simpl in K1, K2, K3.
  destruct (IH (attempts + 1) (if ok then true else success) st2) as (I1 & I2 & I3).
  rewrite I1, I2, I3, K1, K2, K3. auto.
Qed.

(** The goroutine of a port: it ends when the session has a [ScanTimeout],
    and then it has counted the port once, open or closed, and published it
    when open; options, ports and pages are as before. *)
Lemma scanWorkerBody_effect net port host (st st' : ScanState) :
  scanWorkerBody net port host st = Some st' →
  let open := attempt_okb (net 0) || attempt_okb (net 1) in
  options st'.1 = options st.1 ∧ ports st'.1 = ports st.1
  ∧ Pages st'.1 = Pages st.1
  ∧ stats st'.1 = (if open then IncrementPortOpen (stats st.1)
                   else IncrementPortClosed (stats st.1))
  ∧ published st'.1
    = published st.1 ++ (if open then [TCPPort_event port host] else []).
Proof.
  unfold scanWorkerBody. destruct (scanTimeout st.1) as [timeout|]; [|discriminate].
  cbn -[attemptLoop]. destruct st as [s acts].
  pose proof (attemptLoop_from_start timeout net port host (s, acts)) as L.
  pose proof (attemptLoop_keeps 2 timeout net port host 0 false (s, acts)) as K.
  cbv zeta in L, K.
  destruct (attemptLoop 2 timeout net port host 0 false (s, acts))
    as [[attempts success] [s1 acts1]].
  simpl in L, K. destruct L as (Hs & _ & Hst & Hpub & _).
  destruct K as (K1 & K2 & K3). rewrite <- Hs.
  destruct success; intros H; injection H as <-; simpl;
    rewrite ?Hst, ?Hpub, ?K1, ?K2, ?K3, ?app_nil_r; repeat split; reflexivity.
Qed.

Lemma scanWorkerBody_ends net port host (st : ScanState) (ms : Z) :
  ScanTimeout (options st.1) = Some ms →
  is_Some (scanWorkerBody net port host st).
Proof.
  intros Hms. unfold scanWorkerBody, scanTimeout. rewrite Hms. cbn -[attemptLoop].
  match goal with |- context [attemptLoop ?n ?t ?f ?p ?h ?a ?b ?s] =>
    destruct (attemptLoop n t f p h a b s) as [[attempts success] st1] end.
  destruct success; eauto.
Qed.

(** *** Lists of goroutines *)

Lemma split_at {A} (l : list A) (i : nat) (x : A) :
  l !! i = Some x →
  ∃ l1 l2, l = l1 ++ x :: l2 ∧ ∀ y, <[i := y]> l = l1 ++ y :: l2.
Proof.
  intros H. exists (take i l), (drop (S i) l). split.
  - symmetry. apply take_drop_middle, H.
  - intros y. apply insert_take_drop. apply lookup_lt_Some in H. exact H.
Qed.

Lemma run_invariant (P : Scans → Prop) (a : TCPPortScanner) (net : nat → Z → Attempt) :
  (∀ m sc sc', P sc → step a net m sc = Some sc' → P sc') →
  ∀ moves sc sc', P sc → run a net moves sc = Some sc' → P sc'.
Proof.
  intros Hstep moves. induction moves as [|m moves IH]; intros sc sc' HP Hrun.
  - injection Hrun as <-. exact HP.
  - simpl in Hrun. destruct (step a net m sc) as [sc1|] eqn:E; [|discriminate].
    simpl in Hrun. eapply IH; [|exact Hrun]. eapply Hstep; eassumption.
Qed.

(** The loop of [OnHost] over the ports: one waiting goroutine a port, in
    the order of the ports, and both wait groups counted up by as many. *)
Lemma spawn_all net k host (ps : list Z) (sc : Scans) :
  let sc' := foldl (spawn net k host) sc ps in
  ∃ new, tasks sc' = tasks sc ++ new
         ∧ task_port <$> new = ps
         ∧ Forall (λ t, phase t = Waiting ∧ task_call t = k ∧ task_host t = host) new
         ∧ sc_session sc' = sc_session sc ∧ sc_actions sc' = sc_actions sc
         ∧ in_use sc' = in_use sc
         ∧ sessionWaitGroup sc' = sessionWaitGroup sc + Z.of_nat (length ps)
         ∧ length (calls sc') = length (calls sc)
         ∧ ∀ j, calls sc' !! j
                = (if decide (j = k) then wg_Add (Z.of_nat (length ps)) <$> calls sc !! j
                   else calls sc !! j).
Proof.
  cbv zeta. revert sc. induction ps as [|p ps IH]; intros sc.
  - exists []. simpl. rewrite app_nil_r, Z.add_0_r.
    repeat split; try constructor.
    intros j. destruct (decide (j = k)); [|reflexivity].
    destruct (calls sc !! j) as [[w c]|]; [|reflexivity].
    simpl. unfold wg_Add. simpl. rewrite Z.add_0_r. reflexivity.
  - simpl foldl. destruct (IH (spawn net k host sc p))
      as (new & Ht & Hp & Hf & Hs & Ha & Hu & Hw & Hl & Hc).
    exists (mkTask k host p (net (length (tasks sc))) Waiting :: new).
    rewrite Ht, Hs, Ha, Hu, Hw, Hl. cbn [spawn tasks sc_session sc_actions in_use
      sessionWaitGroup calls]. rewrite <- app_assoc.
    split; [reflexivity|]. split; [rewrite fmap_cons, Hp; reflexivity|].
    split; [constructor; [repeat split | exact Hf]|].
    split; [reflexivity|]. split; [reflexivity|]. split; [reflexivity|].
    split; [cbn [length]; lia|]. split; [apply length_alter|].
    intros j. rewrite Hc. cbn [spawn calls]. rewrite list_lookup_alter.
    repeat case_decide; try congruence. subst j.
    destruct (calls sc !! k) as [[w c]|]; [|reflexivity].
    cbn [fmap option_fmap option_map]. unfold wg_Add. cbn [wg completed length].
    do 2 f_equal. lia.
Qed.

Lemma waiting_not_scanning (k : nat) (host : string) (new : list Task) :
  Forall (λ t, phase t = Waiting ∧ task_call t = k ∧ task_host t = host) new →
  in_phase Scanning new = [] ∧ unfinished new = new
  ∧ (∀ o, counted o new = []) ∧ of_call k new = new
  ∧ (∀ j, j ≠ k → of_call j new = []).
Proof.
  unfold in_phase, unfinished, counted, of_call.
  induction 1 as [|t new (Hp & Hc & _) _ (I1 & I2 & I3 & I4 & I5)];
    [repeat split|].
  rewrite !filter_cons. repeat split.
  - rewrite decide_False by congruence. exact I1.
  - rewrite decide_True by congruence. rewrite I2. reflexivity.
  - intros o. rewrite filter_cons, decide_False by (intros [? _]; congruence).
    apply I3.
  - rewrite decide_True by congruence. rewrite I4. reflexivity.
  - intros j Hj. rewrite filter_cons, decide_False by congruence. apply I5, Hj.
Qed.

Lemma step_slots_ok a net m sc sc' :
  slots_ok a sc → step a net m sc = Some sc' → slots_ok a sc'.
Proof.
  intros [Hu Hle] Hstep. destruct m as [host lookup | i | k]; simpl in Hstep.
  - unfold OnHost in Hstep. destruct (session a); [|discriminate].
    destruct lookup as [ips|]; injection Hstep as <-; [|split; assumption].
    match goal with |- slots_ok _ (foldl ?f ?sc0 ?ps) =>
      destruct (spawn_all net (length (calls sc)) host ps sc0)
        as (new & Ht & _ & Hf & _ & _ & Hin & _) end.
    cbv zeta in Ht, Hin. unfold slots_ok. rewrite Hin, Ht. cbn [tasks in_use].
    unfold in_phase in *. rewrite filter_app, length_app.
    destruct (waiting_not_scanning _ _ _ Hf) as (E & _). unfold in_phase in E.
    rewrite E. simpl. split; [lia | exact Hle].
  - unfold runTask in Hstep. destruct (tasks sc !! i) as [t|] eqn:Et;
      [|injection Hstep as <-; split; assumption].
    destruct (split_at _ _ _ Et) as (l1 & l2 & El & Ei).
    unfold slots_ok, in_phase in *.
    destruct (phase t) eqn:Ep.
    + injection Hstep as <-. unfold acquire, slots in *.
      destruct (scanWorker a) as [capacity|]; [|split; assumption].
      destruct (Z.ltb_spec (in_use sc) capacity); [|split; assumption].
      cbn [tasks in_use]. rewrite Ei, filter_app, filter_cons, length_app.
      rewrite El, filter_app, filter_cons, length_app in Hu.
      rewrite decide_False in Hu by congruence.
      rewrite decide_True by reflexivity. simpl. split; lia.
    + unfold finish in Hstep.
      destruct (scanWorkerBody _ _ _ _) as [st|]; [|discriminate].
      injection Hstep as <-. cbn [tasks in_use].
      rewrite Ei, filter_app, filter_cons, length_app.
      rewrite El, filter_app, filter_cons, length_app in Hu.
      rewrite decide_True in Hu by assumption.
      rewrite decide_False by discriminate. simpl in Hu. split; lia.
    + injection Hstep as <-. split; assumption.
  - injection Hstep as <-. unfold runWaiter.
    destruct (calls sc !! k) as [c|]; [|split; assumption].
    destruct (negb (completed c) && (wg c =? 0)); split; assumption.
Qed.

Lemma step_accounts_ok a net s0 m sc sc' :
  accounts_ok s0 sc → step a net m sc = Some sc' → accounts_ok s0 sc'.
Proof.
  intros (Hw & Ho & Hp & Hg & Hs & Hpub) Hstep.
  destruct m as [host lookup | i | k]; simpl in Hstep.
  - unfold OnHost in Hstep. destruct (session a); [|discriminate].
    destruct lookup as [ips|]; injection Hstep as <-;
      [|repeat split; assumption].
    match goal with |- accounts_ok _ (foldl ?f ?sc0 ?ps) =>
      destruct (spawn_all net (length (calls sc)) host ps sc0)
        as (new & Ht & Hps & Hf & Hse & _ & _ & Hwg & _) end.
    cbv zeta in Ht, Hse, Hwg.
    destruct (waiting_not_scanning _ _ _ Hf) as (_ & Eu & Ec & _).
    unfold accounts_ok. rewrite Ht, Hse, Hwg. cbn [tasks sc_session sessionWaitGroup].
    unfold unfinished, counted in *. rewrite !filter_app, !Ec, !app_nil_r, Eu, length_app.
    apply (f_equal length) in Hps. rewrite length_fmap in Hps.
    cbn [log ports] in Hps. rewrite Hps.
    repeat split; try assumption. lia.
  - unfold runTask in Hstep. destruct (tasks sc !! i) as [t|] eqn:Et;
      [|injection Hstep as <-; repeat split; assumption].
    destruct (split_at _ _ _ Et) as (l1 & l2 & El & Ei).
    unfold accounts_ok, unfinished, counted in *.
    destruct (phase t) eqn:Ep.
    + injection Hstep as <-. unfold acquire.
      destruct (scanWorker a) as [capacity|]; [|repeat split; assumption].
      destruct (in_use sc <? capacity); [|repeat split; assumption].
      cbn [tasks sc_session sessionWaitGroup].
      rewrite El in Hw, Hs, Hpub. rewrite Ei.
      rewrite !filter_app, !filter_cons in *.
      rewrite decide_True in Hw by congruence.
      rewrite !decide_False in Hs by (intros [? _]; congruence).
      rewrite decide_False in Hpub by (intros [? _]; congruence).
      rewrite decide_True by discriminate.
      rewrite !decide_False by (intros [? _]; discriminate).
      rewrite !length_app in *. repeat split; assumption.
    + unfold finish in Hstep.
      destruct (scanWorkerBody _ _ _ _) as [st|] eqn:Eb; [|discriminate].
      injection Hstep as <-. cbn [tasks sc_session sessionWaitGroup].
      apply scanWorkerBody_effect in Eb. cbv zeta in Eb. cbn [fst] in Eb.
      destruct Eb as (Bo & Bp & Bg & Bs & Bpub).
      rewrite Bo, Bp, Bg, Bs, Bpub, Hs.
      rewrite El in Hw, Hpub. rewrite Ei. rewrite El.
      rewrite !filter_app, !filter_cons in *.
      rewrite decide_True in Hw by congruence.
      rewrite decide_False in Hpub by (intros [? _]; congruence).
      rewrite !(decide_False (P := phase t = Finished ∧ _)) by (intros [? _]; congruence).
      rewrite decide_False by (intros H; apply H; reflexivity).
      rewrite !length_app in *. cbn [length] in Hw.
      split; [lia|]. split; [exact Ho|]. split; [exact Hp|]. split; [exact Hg|].
      fold (port_open t). change (port_open (set_phase t Finished)) with (port_open t).
      destruct (port_open t) eqn:Eo.
      * rewrite decide_True by (split; reflexivity).
        rewrite decide_False by (intros [_ ?]; discriminate).
        split.
        -- unfold IncrementPortOpen. cbn [PortOpen PortClosed ScreenshotSuccessful
             ScreenshotFailed length]. f_equal. lia.
        -- rewrite Hpub, !fmap_app, fmap_cons.
           change (task_event (set_phase t Finished))
             with (TCPPort_event (task_port t) (task_host t)).
           rewrite <- !app_assoc.
           apply Permutation_app_head, Permutation_app_head.
           symmetry. apply Permutation_cons_append.
      * rewrite decide_False by (intros [_ ?]; discriminate).
        rewrite decide_True by (split; reflexivity).
        split.
        -- unfold IncrementPortClosed. cbn [PortOpen PortClosed ScreenshotSuccessful
             ScreenshotFailed length]. f_equal. lia.
        -- rewrite app_nil_r. exact Hpub.
    + injection Hstep as <-. repeat split; assumption.
  - injection Hstep as <-. unfold runWaiter.
    destruct (calls sc !! k) as [c|]; [|repeat split; assumption].
    destruct (negb (completed c) && (wg c =? 0)); repeat split; assumption.
Qed.

Lemma unfinished_of_call_app (k : nat) (l1 l2 : list Task) :
  unfinished (of_call k (l1 ++ l2))
  = unfinished (of_call k l1) ++ unfinished (of_call k l2).
Proof. unfold unfinished, of_call. rewrite !filter_app. reflexivity. Qed.

Lemma unfinished_of_call_cons (k : nat) (t : Task) (l : list Task) :
  length (unfinished (of_call k (t :: l)))
  = ((if decide (task_call t = k ∧ phase t ≠ Finished) then 1 else 0)
     + length (unfinished (of_call k l)))%nat.
Proof.
  unfold unfinished, of_call. rewrite filter_cons.
  destruct (decide (task_call t = k)) as [Hc|Hc].
  - rewrite filter_cons. destruct (decide (phase t ≠ Finished)) as [Hp|Hp].
    + rewrite decide_True by (split; assumption). reflexivity.
    + rewrite decide_False by (intros [_ ?]; contradiction). reflexivity.
  - rewrite decide_False by (intros [? _]; contradiction). reflexivity.
Qed.

Lemma of_call_later (k : nat) (l : list Task) :
  Forall (λ t, (task_call t < k)%nat) l → of_call k l = [].
Proof.
  unfold of_call. induction 1 as [|t l Ht _ IH]; [reflexivity|].
  rewrite filter_cons, decide_False by lia. exact IH.
Qed.

Lemma step_calls_ok a net m sc sc' :
  calls_ok sc → step a net m sc = Some sc' → calls_ok sc'.
Proof.
  intros (Hlt & Hwg) Hstep.
  destruct m as [host lookup | i | k]; simpl in Hstep.
  - unfold OnHost in Hstep. destruct (session a); [|discriminate].
    destruct lookup as [ips|]; injection Hstep as <-; [|split; assumption].
    match goal with |- calls_ok (foldl ?f ?sc0 ?ps) =>
      destruct (spawn_all net (length (calls sc)) host ps sc0)
        as (new & Ht & Hps & Hf & _ & _ & _ & _ & Hlen & Hc) end.
    cbv zeta in Ht, Hlen, Hc. cbn [tasks calls] in Ht, Hlen, Hc.
    rewrite length_app in Hlen. cbn [length] in Hlen.
    destruct (waiting_not_scanning _ _ _ Hf) as (_ & Eu & _ & Ek & Ene).
    apply (f_equal length) in Hps. rewrite length_fmap in Hps.
    unfold calls_ok. rewrite Ht, Hlen. split.
    + apply Forall_app. split.
      * eapply Forall_impl; [exact Hlt|]. simpl. intros; lia.
      * eapply Forall_impl; [exact Hf|]. simpl. intros t (_ & -> & _). lia.
    + intros k c Hk. rewrite Hc in Hk. rewrite unfinished_of_call_app.
      destruct (decide (k = length (calls sc))) as [->|Hne].
      * rewrite lookup_app_r, Nat.sub_diag in Hk by lia. simpl in Hk.
        injection Hk as <-. unfold wg_Add. cbn [wg completed].
        rewrite (of_call_later _ _ Hlt), Ek, Eu. simpl. split; [lia | discriminate].
      * assert (k < length (calls sc))%nat as Hk'.
        { apply lookup_lt_Some in Hk. rewrite length_app in Hk. simpl in Hk. lia. }
        rewrite lookup_app_l in Hk by exact Hk'.
        rewrite (Ene k Hne). simpl. rewrite app_nil_r. apply Hwg, Hk.
  - unfold runTask in Hstep. destruct (tasks sc !! i) as [t|] eqn:Et;
      [|injection Hstep as <-; split; assumption].
    destruct (split_at _ _ _ Et) as (l1 & l2 & El & Ei).
    assert (∀ ph, Forall (λ t0, (task_call t0 < length (calls sc))%nat)
                         (<[i := set_phase t ph]> (tasks sc))) as Hlt'.
    { intros ph. rewrite Ei. rewrite El in Hlt.
      apply Forall_app in Hlt as [H1 H2]. apply Forall_cons in H2 as [H2 H3].
      apply Forall_app. split; [exact H1|]. apply Forall_cons. split; assumption. }
    assert (∀ ph k, length (unfinished (of_call k (<[i := set_phase t ph]> (tasks sc))))
                    + (if decide (task_call t = k ∧ phase t ≠ Finished) then 1 else 0)
                    = length (unfinished (of_call k (tasks sc)))
                      + (if decide (task_call t = k ∧ ph ≠ Finished) then 1 else 0))%nat
      as Hcount.
    { intros ph k. rewrite Ei, El, !unfinished_of_call_app, !length_app,
        !unfinished_of_call_cons. cbn [task_call phase set_phase]. lia. }
    destruct (phase t) eqn:Ep.
    + injection Hstep as <-. unfold acquire.
      destruct (scanWorker a) as [capacity|]; [|split; assumption].
      destruct (in_use sc <? capacity); [|split; assumption].
      split; [apply Hlt'|]. cbn [tasks calls]. intros k c Hk.
      destruct (Hwg k c Hk) as [Hw Hc]. split; [|exact Hc].
      rewrite Hw. specialize (Hcount Scanning k).
      destruct (decide (task_call t = k)) as [E|E].
      * rewrite !decide_True in Hcount by (split; [exact E | discriminate]). lia.
      * rewrite !decide_False in Hcount by (intros [? _]; contradiction). lia.
    + unfold finish in Hstep.
      destruct (scanWorkerBody _ _ _ _) as [st|]; [|discriminate].
      injection Hstep as <-. split.
      { cbn [tasks calls]. rewrite length_alter. apply Hlt'. }
      cbn [tasks calls]. intros k c Hk. rewrite list_lookup_alter in Hk.
      specialize (Hcount Finished k).
      destruct (decide (task_call t = k)) as [E|E].
      * subst k. destruct (calls sc !! task_call t) as [c0|] eqn:Ec; [|discriminate].
        simpl in Hk. injection Hk as <-. destruct (Hwg _ c0 Ec) as [Hw Hc].
        rewrite decide_True in Hcount by (split; [reflexivity | discriminate]).
        rewrite decide_False in Hcount by (intros [_ H]; apply H; reflexivity).
        unfold wg_Add. cbn [wg completed]. split; [lia|].
        intros Hd. specialize (Hc Hd). lia.
      * rewrite !decide_False in Hcount by (intros [? _]; contradiction).
        destruct (Hwg k c Hk) as [Hw Hc]. split; [lia | exact Hc].
    + injection Hstep as <-. split; assumption.
  - injection Hstep as <-. unfold runWaiter.
    destruct (calls sc !! k) as [c|] eqn:Ec; [|split; assumption].
    destruct (negb (completed c) && (wg c =? 0)) eqn:Eb; [|split; assumption].
    apply andb_true_iff in Eb as [_ Ez]. apply Z.eqb_eq in Ez.
    split; cbn [tasks calls]; [rewrite length_insert; exact Hlt|].
    intros j c' Hj. destruct (decide (j = k)) as [->|Hne].
    + rewrite list_lookup_insert_eq in Hj by (apply lookup_lt_Some in Ec; exact Ec).
      injection Hj as <-. cbn [wg completed]. split; [apply (Hwg k c Ec) | intros _; exact Ez].
    + rewrite list_lookup_insert_ne in Hj by congruence. apply Hwg, Hj.
Qed.

Lemma start_ok (a : TCPPortScanner) (s : Session) :
  slots_ok a (start s) ∧ accounts_ok s (start s) ∧ calls_ok (start s).
Proof.
  split; [|split].
  - split; [reflexivity|]. unfold slots. simpl.
    destruct (scanWorker a); [apply Z.le_max_l | reflexivity].
  - unfold accounts_ok. simpl. rewrite !Nat.add_0_r, app_nil_r.
    destruct s as [o [] ? ? ? ? ?]. repeat split; reflexivity.
  - split; [constructor|]. intros k c H. discriminate H.
Qed.

(** X9. However the goroutines are scheduled and whenever hosts arrive, the
    slots taken in [scanWorker] are the goroutines between taking a slot and
    returning, and there are never more of them than the semaphore has
    slots: its capacity, which for a registered scanner is not negative. *)
Theorem scanWorker_bounds_the_scans (a : TCPPortScanner) (net : nat → Z → Attempt)
    (moves : list Move) (s : Session) (sc : Scans) :
  run a net moves (start s) = Some sc →
  in_use sc = Z.of_nat (length (in_phase Scanning (tasks sc)))
  ∧ Z.of_nat (length (in_phase Scanning (tasks sc))) ≤ slots a
  ∧ (∀ a0 s0, Register None a0 s0 = Returned a →
              ∃ capacity, scanWorker a = Some capacity ∧ slots a = capacity).
Proof.
  intros Hrun.
  destruct (run_invariant (slots_ok a) a net (step_slots_ok a net) moves _ _
              (proj1 (start_ok a s)) Hrun) as [Hu Hle].
  split; [exact Hu|]. split; [rewrite <- Hu; exact Hle|].
  intros a0 s0 Hr. unfold Register in Hr.
  destruct (Threads (options s0)) as [threads|].
  - destruct (Z.ltb_spec threads 0); [discriminate|]. injection Hr as <-.
    exists threads. unfold slots. simpl. split; [reflexivity | lia].
  - simpl in Hr. injection Hr as <-. exists 100. split; reflexivity.
Qed.

Lemma scanWorker_bounds_the_scans_witness :
  Z.of_nat (length (in_phase Scanning (tasks (after 2 two_at_a_time)))) ≤ 2.
Proof.
  apply (scanWorker_bounds_the_scans (scanner 2) net_first_open two_at_a_time
           (scan_session 2) (after 2 two_at_a_time)).
  vm_compute. reflexivity.
Defined.

Example two_at_a_time_phases :
  (λ sc, (phase <$> tasks sc, in_use sc, sessionWaitGroup sc, stats (sc_session sc)))
    <$> run (scanner 2) net_first_open two_at_a_time (start (scan_session 2))
  = Some ([Finished; Scanning; Scanning], 2, 2, mkStats 1 0 0 0).
Proof. vm_compute. reflexivity. Qed.

Lemma run_tasks_length a net s0 moves sc sc' :
  accounts_ok s0 sc → run a net moves sc = Some sc' →
  length (tasks sc') = (length (tasks sc) + resolved moves * length (ports s0))%nat.
Proof.
  revert sc. induction moves as [|m moves IH]; intros sc Hok Hrun.
  - injection Hrun as <-. simpl. lia.
  - simpl in Hrun. destruct (step a net m sc) as [sc1|] eqn:E; [|discriminate].
    simpl in Hrun. rewrite (IH sc1 (step_accounts_ok _ _ _ _ _ _ Hok E) Hrun).
    unfold resolved. rewrite filter_cons.
    destruct Hok as (_ & _ & Hp & _).
    destruct m as [host lookup | i | k]; simpl in E.
    + unfold OnHost in E. destruct (session a); [|discriminate].
      destruct lookup as [ips|]; injection E as <-.
      * match goal with |- context [foldl ?f ?sc0 ?ps] =>
          destruct (spawn_all net (length (calls sc)) host ps sc0)
            as (new & Ht & Hps & _) end.
        cbv zeta in Ht. rewrite Ht. cbn [tasks]. rewrite length_app.
        apply (f_equal length) in Hps. rewrite length_fmap in Hps.
        cbn [log ports] in Hps. rewrite Hps, Hp.
        rewrite decide_True by reflexivity. cbn [length]. lia.
      * rewrite decide_False by discriminate. reflexivity.
    + rewrite decide_False by discriminate.
      unfold runTask in E. destruct (tasks sc !! i) as [t|]; [|injection E as <-; reflexivity].
      destruct (phase t).
      * injection E as <-. unfold acquire. destruct (scanWorker a); [|reflexivity].
        destruct (in_use sc <? z); [|reflexivity].
        cbn [tasks]. rewrite length_insert. reflexivity.
      * unfold finish in E. destruct (scanWorkerBody _ _ _ _); [|discriminate].
        injection E as <-. cbn [tasks]. rewrite length_insert. reflexivity.
      * injection E as <-. reflexivity.
    + rewrite decide_False by discriminate. injection E as <-.
      unfold runWaiter. destruct (calls sc !! k) as [c|]; [|reflexivity].
      destruct (negb (completed c) && (wg c =? 0)); reflexivity.
Qed.

(** X10. However the goroutines are scheduled: every host that resolves
    gets one goroutine a port of the session and a host that does not
    resolve gets none; every goroutine that has returned has counted its
    port once, as open or as closed; the [TCPPort] events published are
    those of the ports counted open; and [session.WaitGroup] counts the
    goroutines that have not returned.  The scan touches neither the
    options, the ports, the pages nor the screenshot counters. *)
Theorem scanned_ports_are_counted_once (a : TCPPortScanner) (net : nat → Z → Attempt)
    (moves : list Move) (s : Session) (sc : Scans) :
  run a net moves (start s) = Some sc →
  length (tasks sc) = (resolved moves * length (ports s))%nat
  ∧ stats (sc_session sc)
    = mkStats (PortOpen (stats s) + length (counted true (tasks sc)))
              (PortClosed (stats s) + length (counted false (tasks sc)))
              (ScreenshotSuccessful (stats s)) (ScreenshotFailed (stats s))
  ∧ published (sc_session sc)
    ≡ₚ published s ++ (task_event <$> counted true (tasks sc))
  ∧ sessionWaitGroup sc = Z.of_nat (length (unfinished (tasks sc)))
  ∧ options (sc_session sc) = options s
  ∧ ports (sc_session sc) = ports s
  ∧ Pages (sc_session sc) = Pages s.
Proof.
  intros Hrun.
  pose proof (proj1 (proj2 (start_ok a s))) as H0.
  split; [apply (run_tasks_length a net s moves _ _ H0 Hrun)|].
  destruct (run_invariant (accounts_ok s) a net (step_accounts_ok a net s) moves _ _
              H0 Hrun) as (Hw & Ho & Hp & Hg & Hs & Hpub).
  repeat split; assumption.
Qed.

Lemma scanned_ports_are_counted_once_witness :
  length (tasks (after 2 two_hosts)) = 3%nat
  ∧ stats (sc_session (after 2 two_hosts)) = mkStats 1 2 0 0
  ∧ sessionWaitGroup (after 2 two_hosts) = 0.
Proof.
  destruct (scanned_ports_are_counted_once (scanner 2) net_first_open two_hosts
              (scan_session 2) (after 2 two_hosts))
    as (Hl & Hs & _ & Hw & _); [vm_compute; reflexivity|].
  rewrite Hl, Hs, Hw. repeat split; vm_compute; reflexivity.
Defined.

(** X11. The line that a host is completely scanned is printed only after
    every port goroutine of that call of [OnHost] has returned: the [wg] of a
    call counts its goroutines that have not returned, a completed call has
    none left, and once none is left the waiting goroutine completes the
    call as soon as it runs. *)
Theorem host_completed_after_all_ports (a : TCPPortScanner) (net : nat → Z → Attempt)
    (moves : list Move) (s : Session) (sc : Scans) :
  run a net moves (start s) = Some sc →
  ∀ k c, calls sc !! k = Some c →
    wg c = Z.of_nat (length (unfinished (of_call k (tasks sc))))
    ∧ (completed c = true →
       Forall (λ t, task_call t = k → phase t = Finished) (tasks sc))
    ∧ (unfinished (of_call k (tasks sc)) = [] →
       completed <$> calls (runWaiter k sc) !! k = Some true).
Proof.
  intros Hrun k c Hk.
  destruct (run_invariant calls_ok a net (step_calls_ok a net) moves _ _
              (proj2 (proj2 (start_ok a s))) Hrun) as [_ Hwg].
  destruct (Hwg k c Hk) as [Hw Hc]. split; [exact Hw|]. split.
  - intros Hd. specialize (Hc Hd). rewrite Hc in Hw.
    assert (unfinished (of_call k (tasks sc)) = []) as He.
    { apply length_zero_iff_nil. lia. }
    apply Forall_forall. intros t Ht Hcall.
    destruct (decide (phase t = Finished)) as [|Hn]; [assumption|].
    assert (t ∈ unfinished (of_call k (tasks sc))) as Hin.
    { unfold unfinished, of_call. apply list_elem_of_filter. split; [exact Hn|].
      apply list_elem_of_filter. split; assumption. }
    rewrite He in Hin. inversion Hin.
  - intros He. rewrite He in Hw. simpl in Hw. unfold runWaiter. rewrite Hk.
    destruct (completed c) eqn:Ed; simpl.
    + rewrite Hk. simpl. rewrite Ed. reflexivity.
    + rewrite Hw. simpl. rewrite list_lookup_insert_eq by (apply lookup_lt_Some in Hk; exact Hk).
      reflexivity.
Qed.

Lemma host_completed_after_all_ports_witness :
  completed <$> calls (after 2 two_hosts) !! 0%nat = Some true
  ∧ Forall (λ t, task_call t = 0%nat → phase t = Finished) (tasks (after 2 two_hosts)).
Proof.
  assert (calls (after 2 two_hosts) !! 0%nat = Some (mkCall 0 true)) as Hk
    by (vm_compute; reflexivity).
  split; [rewrite Hk; reflexivity|].
  apply (host_completed_after_all_ports (scanner 2) net_first_open two_hosts
           (scan_session 2) (after 2 two_hosts) ltac:(vm_compute; reflexivity)
           0%nat (mkCall 0 true) Hk).
  reflexivity.
Defined.

Lemma start_idle (s : Session) : idle s (start s).
Proof. repeat split; constructor. Qed.

(** While no goroutine can take a slot, or none is run, nothing happens. *)
Lemma step_idle a net s0 m sc :
  is_Some (session a) →
  slots a = 0 ∨ (∀ i, m ≠ RunTask i) →
  idle s0 sc →
  ∃ sc', step a net m sc = Some sc' ∧ idle s0 sc'.
Proof.
  intros [sa Hsa] Hno (Hw & Hu & Hs & Hpub & Hp & Hg & Hc).
  destruct m as [host lookup | i | k]; simpl.
  - unfold OnHost. rewrite Hsa. destruct lookup as [ips|].
    + eexists. split; [reflexivity|].
      match goal with |- idle _ (foldl ?f ?sc0 ?ps) =>
        remember ps as ps' eqn:Eps;
        destruct (spawn_all net (length (calls sc)) host ps' sc0)
          as (new & Ht & Hps & Hf & Hse & _ & Hin & Hwg & Hlen & Hcl) end.
      cbn [log ports] in Eps. rewrite Hp in Eps. subst ps'.
      cbv zeta in Ht, Hse, Hin, Hwg, Hlen, Hcl.
      cbn [tasks calls sc_session in_use sessionWaitGroup] in Ht, Hse, Hin, Hwg, Hlen, Hcl.
      apply (f_equal length) in Hps. rewrite length_fmap in Hps.
      unfold idle. rewrite Ht, Hse, Hin, Hwg. cbn [log stats published ports].
      split; [apply Forall_app; split;
              [exact Hw | eapply Forall_impl; [exact Hf|]; simpl; tauto]|].
      split; [exact Hu|]. split; [exact Hs|]. split; [exact Hpub|].
      split; [exact Hp|]. split; [rewrite length_app, Hg; lia|].
      apply Forall_lookup. intros j c Hj. rewrite Hcl in Hj.
      destruct (decide (j = length (calls sc))) as [->|Hne].
      * rewrite lookup_app_r, Nat.sub_diag in Hj by lia. simpl in Hj.
        injection Hj as <-. unfold wg_Add. cbn [wg completed].
        split; [reflexivity | discriminate].
      * assert (j < length (calls sc))%nat as Hj'.
        { apply lookup_lt_Some in Hj. rewrite length_app in Hj. simpl in Hj. lia. }
        rewrite lookup_app_l in Hj by exact Hj'.
        apply (proj1 (Forall_lookup _ _) Hc j c Hj).
    + eexists. split; [reflexivity|]. repeat split; assumption.
  - destruct Hno as [Hz | Hno]; [|exfalso; apply (Hno i); reflexivity].
    unfold runTask. destruct (tasks sc !! i) as [t|] eqn:Et.
    + rewrite (proj1 (Forall_lookup _ _) Hw i t Et). unfold acquire, slots in *.
      destruct (scanWorker a) as [capacity|].
      * destruct (Z.ltb_spec (in_use sc) capacity); [lia|].
        eexists. split; [reflexivity|]. repeat split; assumption.
      * eexists. split; [reflexivity|]. repeat split; assumption.
    + eexists. split; [reflexivity|]. repeat split; assumption.
  - eexists. split; [reflexivity|]. unfold runWaiter.
    destruct (calls sc !! k) as [c|] eqn:Ec; [|repeat split; assumption].
    destruct (negb (completed c) && (wg c =? 0)) eqn:Eb; [|repeat split; assumption].
    apply andb_true_iff in Eb as [_ Ez]. apply Z.eqb_eq in Ez.
    unfold idle. cbn [tasks calls sc_session in_use sessionWaitGroup log stats
      published ports].
    repeat (split; [assumption|]).
    apply Forall_lookup. intros j c' Hj. destruct (decide (j = k)) as [->|Hne].
    + rewrite list_lookup_insert_eq in Hj by (apply lookup_lt_Some in Ec; exact Ec).
      injection Hj as <-. cbn [wg completed].
      split; [apply (proj1 (Forall_lookup _ _) Hc k c Ec) | intros _; exact Ez].
    + rewrite list_lookup_insert_ne in Hj by congruence.
      apply (proj1 (Forall_lookup _ _) Hc j c' Hj).
Qed.

Lemma run_idle a net s0 moves sc :
  is_Some (session a) →
  slots a = 0 ∨ Forall (λ m, ∀ i, m ≠ RunTask i) moves →
  idle s0 sc →
  ∃ sc', run a net moves sc = Some sc' ∧ idle s0 sc'.
Proof.
  intros Hsa. revert sc. induction moves as [|m moves IH]; intros sc Hno Hi.
  - exists sc. split; [reflexivity | exact Hi].
  - assert (slots a = 0 ∨ (∀ i, m ≠ RunTask i)) as Hm.
    { destruct Hno as [Hz|Hf]; [left; exact Hz|].
      right. apply Forall_cons in Hf. apply Hf. }
    destruct (step_idle a net s0 m sc Hsa Hm Hi) as (sc1 & E1 & Hi1).
    assert (slots a = 0 ∨ Forall (λ m, ∀ i, m ≠ RunTask i) moves) as Hrest.
    { destruct Hno as [Hz|Hf]; [left; exact Hz|].
      right. apply Forall_cons in Hf. apply Hf. }
    destruct (IH sc1 Hrest Hi1) as (sc' & E' & Hi').
    exists sc'. simpl. rewrite E1. simpl. split; [exact E' | exact Hi'].
Qed.

(** X12. A scanner whose semaphore has no slot scans nothing: with capacity
    0, as [Register] makes it for the options of a command line without
    [--threads], and with the nil channel, every port goroutine stays where
    it asks for its slot, whatever the schedule.  No port is counted, no
    event is published, [session.WaitGroup] stays at one a port of every
    resolved host, and where the session has ports no host is ever
    completed. *)
Theorem no_slot_no_scan (a : TCPPortScanner) (net : nat → Z → Attempt)
    (moves : list Move) (s : Session) :
  is_Some (session a) →
  slots a = 0 →
  (∃ sc, run a net moves (start s) = Some sc
         ∧ Forall (λ t, phase t = Waiting) (tasks sc)
         ∧ stats (sc_session sc) = stats s
         ∧ published (sc_session sc) = published s
         ∧ sessionWaitGroup sc = Z.of_nat (resolved moves * length (ports s))
         ∧ (ports s ≠ [] → Forall (λ c, completed c = false) (calls sc)))
  ∧ (∀ defaultPorts cl portList a',
       flag_threads cl = None →
       Register None NewTCPPortScanner
                (empty_session (ParseOptions defaultPorts cl) portList) = Returned a' →
       is_Some (session a') ∧ slots a' = 0).
Proof.
  intros Hsa Hz. split.
  - destruct (run_idle a net s moves (start s) Hsa (or_introl Hz) (start_idle s))
      as (sc & Hrun & Hi).
    exists sc. split; [exact Hrun|].
    pose proof (run_tasks_length a net s moves _ _
                  (proj1 (proj2 (start_ok a s))) Hrun) as Hlen.
    simpl in Hlen. destruct Hi as (Hw & _ & Hs & Hpub & _ & Hg & Hc).
    split; [exact Hw|]. split; [exact Hs|]. split; [exact Hpub|].
    split; [rewrite Hg, Hlen; reflexivity|].
    intros Hne. eapply Forall_impl; [exact Hc|]. simpl. intros c [Hwc Hd].
    destruct (completed c); [|reflexivity].
    specialize (Hd eq_refl). exfalso. apply Hne.
    apply length_zero_iff_nil. lia.
  - intros dp cl pl a' Hf Hr. unfold Register in Hr. simpl in Hr.
    rewrite Hf in Hr. simpl in Hr. injection Hr as <-.
    split; [eexists; reflexivity | reflexivity].
Qed.

Lemma no_slot_no_scan_witness :
  ∃ sc, run default_scanner net_first_open
            [HostFound "example.com" (Some ["192.0.2.7"%string]);
             RunTask 0; RunTask 1; RunWaiter 0; RunTask 0; RunTask 1]
            (start (empty_session default_options [80; 443])) = Some sc
        ∧ Forall (λ t, phase t = Waiting) (tasks sc)
        ∧ stats (sc_session sc) = mkStats 0 0 0 0
        ∧ sessionWaitGroup sc = 2.
Proof.
  destruct (no_slot_no_scan default_scanner net_first_open
              [HostFound "example.com" (Some ["192.0.2.7"%string]);
               RunTask 0; RunTask 1; RunWaiter 0; RunTask 0; RunTask 1]
              (empty_session default_options [80; 443])
              ltac:(eexists; reflexivity) eq_refl)
    as [(sc & Hrun & Hw & Hs & _ & Hg & _) _].
  exists sc. split; [exact Hrun|]. split; [exact Hw|].
  split; [exact Hs | rewrite Hg; reflexivity].
Defined.

Lemma run_app a net (m1 m2 : list Move) (sc : Scans) :
  run a net (m1 ++ m2) sc = run a net m1 sc ≫= run a net m2.
Proof.
  revert sc. induction m1 as [|m m1 IH]; intros sc; [reflexivity|].
  simpl. destruct (step a net m sc) as [sc1|]; [apply IH | reflexivity].
Qed.

Lemma step_calls_length a net m sc sc' :
  step a net m sc = Some sc' →
  length (calls sc') = (length (calls sc) + (if resolves m then 1 else 0))%nat.
Proof.
  intros E. destruct m as [host lookup | i | k]; simpl in E.
  - unfold OnHost in E. destruct (session a); [|discriminate].
    destruct lookup as [ips|]; injection E as <-; [|simpl; lia].
    match goal with |- context [foldl ?f ?sc0 ?ps] =>
      destruct (spawn_all net (length (calls sc)) host ps sc0)
        as (_ & _ & _ & _ & _ & _ & _ & _ & Hlen & _) end.
    cbv zeta in Hlen. rewrite Hlen. cbn [calls resolves]. rewrite length_app.
    reflexivity.
  - simpl. rewrite Nat.add_0_r.
    unfold runTask in E. destruct (tasks sc !! i) as [t|]; [|injection E as <-; reflexivity].
    destruct (phase t).
    + injection E as <-. unfold acquire. destruct (scanWorker a) as [capacity|]; [|reflexivity].
      destruct (in_use sc <? capacity); reflexivity.
    + unfold finish in E. destruct (scanWorkerBody _ _ _ _); [|discriminate].
      injection E as <-. cbn [calls]. apply length_alter.
    + injection E as <-. reflexivity.
  - simpl. rewrite Nat.add_0_r. injection E as <-. unfold runWaiter.
    destruct (calls sc !! k) as [c|]; [|reflexivity].
    destruct (negb (completed c) && (wg c =? 0)); [|reflexivity].
    cbn [calls]. apply length_insert.
Qed.

Lemma run_calls_length a net moves sc sc' :
  run a net moves sc = Some sc' →
  length (calls sc') = (length (calls sc) + resolved moves)%nat.
Proof.
  revert sc. induction moves as [|m moves IH]; intros sc Hrun.
  - injection Hrun as <-. unfold resolved. rewrite filter_nil. simpl. lia.
  - simpl in Hrun. destruct (step a net m sc) as [sc1|] eqn:E; [|discriminate].
    simpl in Hrun. rewrite (IH sc1 Hrun), (step_calls_length _ _ _ _ _ E).
    unfold resolved. rewrite filter_cons. destruct (resolves m).
    + rewrite decide_True by reflexivity. simpl. lia.
    + rewrite decide_False by discriminate. lia.
Qed.

(** With a slot free, the goroutines from number [j] on take it one after
    the other and return. *)
Lemma one_by_one_runs a net capacity ms (n : nat) :
  scanWorker a = Some capacity → 1 ≤ capacity →
  ∀ (j : nat) (sc : Scans),
    ScanTimeout (options (sc_session sc)) = Some ms →
    in_use sc = 0 →
    length (tasks sc) = (j + n)%nat →
    (∀ i t, tasks sc !! i = Some t →
            phase t = if (i <? j)%nat then Finished else Waiting) →
    ∃ sc', run a net (flat_map (λ i, [RunTask i; RunTask i]) (seq j n)) sc = Some sc'
           ∧ Forall (λ t, phase t = Finished) (tasks sc').
Proof.
  intros Ha Hcap. induction n as [|n IH]; intros j sc Hms Hu Hlen Hph.
  - exists sc. split; [reflexivity|]. apply Forall_lookup. intros i t Hi.
    rewrite (Hph i t Hi). apply lookup_lt_Some in Hi.
    destruct (Nat.ltb_spec i j); [reflexivity | lia].
  - destruct (lookup_lt_is_Some_2 (tasks sc) j ltac:(lia)) as [t Et].
    pose proof (Hph j t Et) as Ep. rewrite Nat.ltb_irrefl in Ep.
    cbn [seq flat_map app run step].
    assert (runTask a j sc
            = Some (mkScans (sc_session sc) (sc_actions sc)
                            (<[j := set_phase t Scanning]> (tasks sc)) (calls sc)
                            (in_use sc + 1) (sessionWaitGroup sc))) as E1.
    { unfold runTask. rewrite Et, Ep. unfold acquire. rewrite Ha, Hu.
      destruct (Z.ltb_spec 0 capacity); [reflexivity | lia]. }
    rewrite E1. cbn [mbind option_bind].
    destruct (scanWorkerBody_ends (task_net t) (task_port t) (task_host t)
                (sc_session sc, sc_actions sc) ms Hms) as [st Eb].
    match goal with |- context [runTask a j ?sc1 ≫= _] =>
      assert (runTask a j sc1
              = Some (mkScans st.1 st.2 (<[j := set_phase t Finished]> (tasks sc))
                              (alter (wg_Add (-1)) (task_call t) (calls sc))
                              (in_use sc + 1 - 1) (sessionWaitGroup sc - 1))) as E2
    end.
    { unfold runTask. cbn [tasks].
      rewrite list_lookup_insert_eq by (apply lookup_lt_Some in Et; exact Et).
      cbn [phase set_phase]. unfold finish.
      cbn [sc_session sc_actions task_net task_port task_host task_call set_phase
           tasks calls in_use sessionWaitGroup].
      rewrite Eb. cbn [mbind option_bind]. rewrite list_insert_insert_eq. reflexivity. }
    rewrite E2. cbn [mbind option_bind].
    apply scanWorkerBody_effect in Eb. cbv zeta in Eb. destruct Eb as (Bo & _).
    apply (IH (S j)).
    + cbn [sc_session]. rewrite Bo. exact Hms.
    + cbn [in_use]. lia.
    + cbn [tasks]. rewrite length_insert. lia.
    + cbn [tasks]. intros i t' Hi. destruct (decide (i = j)) as [->|Hne].
      * rewrite list_lookup_insert_eq in Hi by (apply lookup_lt_Some in Et; exact Et).
        injection Hi as <-. cbn [phase set_phase].
        destruct (Nat.ltb_spec j (S j)); [reflexivity | lia].
      * rewrite list_lookup_insert_ne in Hi by congruence.
        rewrite (Hph i t' Hi).
        destruct (Nat.ltb_spec i j), (Nat.ltb_spec i (S j)); try reflexivity; lia.
Qed.

(** Once no goroutine of any call is left, the waiting goroutines complete
    their calls when they run. *)
Lemma waiters_run a net (n : nat) :
  ∀ (j : nat) (sc : Scans),
    Forall (λ c, wg c = 0) (calls sc) →
    (∀ i c, calls sc !! i = Some c → (i < j)%nat → completed c = true) →
    ∃ sc', run a net (RunWaiter <$> seq j n) sc = Some sc'
           ∧ tasks sc' = tasks sc
           ∧ (∀ i c, calls sc' !! i = Some c → (i < j + n)%nat → completed c = true).
Proof.
  induction n as [|n IH]; intros j sc Hz Hd.
  - exists sc. split; [reflexivity|]. split; [reflexivity|].
    intros i c Hi Hlt. apply (Hd i c Hi). lia.
  - cbn [seq fmap list_fmap run step mbind option_bind].
    destruct (IH (S j) (runWaiter j sc)) as (sc' & Hrun & Ht & Hc).
    + unfold runWaiter. destruct (calls sc !! j) as [c|] eqn:Ec; [|exact Hz].
      destruct (negb (completed c) && (wg c =? 0)); [|exact Hz].
      cbn [calls]. apply Forall_insert; [exact Hz|].
      apply (proj1 (Forall_lookup _ _) Hz j c Ec).
    + intros i c Hi Hlt. unfold runWaiter in Hi.
      destruct (calls sc !! j) as [cj|] eqn:Ec.
      * pose proof (proj1 (Forall_lookup _ _) Hz j cj Ec) as Hw. simpl in Hw.
        destruct (completed cj) eqn:Edone; simpl in Hi.
        -- destruct (decide (i = j)) as [->|Hne]; [congruence|].
           apply (Hd i c Hi). lia.
        -- rewrite Hw in Hi. simpl in Hi. destruct (decide (i = j)) as [->|Hne].
           ++ rewrite list_lookup_insert_eq in Hi by (apply lookup_lt_Some in Ec; exact Ec).
              injection Hi as <-. reflexivity.
           ++ rewrite list_lookup_insert_ne in Hi by congruence.
              apply (Hd i c Hi). lia.
      * destruct (decide (i = j)) as [->|Hne]; [congruence|].
        apply (Hd i c Hi). lia.
    + exists sc'. split; [exact Hrun|]. split.
      * rewrite Ht. unfold runWaiter. destruct (calls sc !! j) as [c|]; [|reflexivity].
        destruct (negb (completed c) && (wg c =? 0)); reflexivity.
      * intros i c Hi Hlt. apply (Hc i c Hi). lia.
Qed.

Lemma finished_counts (l : list Task) :
  Forall (λ t, phase t = Finished) l →
  unfinished l = [] ∧ in_phase Scanning l = []
  ∧ (length (counted true l) + length (counted false l) = length l)%nat
  ∧ ∀ k, unfinished (of_call k l) = [].
Proof.
  unfold unfinished, in_phase, counted, of_call.
  induction 1 as [|t l Ht _ (I1 & I2 & I3 & I4)]; [repeat split|].
  rewrite !filter_cons. split; [|split; [|split]].
  - rewrite decide_False by (intros H; apply H, Ht). exact I1.
  - rewrite decide_False by congruence. exact I2.
  - destruct (port_open t) eqn:Eo.
    + rewrite decide_True by (split; [exact Ht | reflexivity]).
      rewrite decide_False by (intros [_ ?]; discriminate). simpl. lia.
    + rewrite decide_False by (intros [_ ?]; discriminate).
      rewrite decide_True by (split; [exact Ht | reflexivity]). simpl. lia.
  - intros k. rewrite filter_cons. destruct (decide (task_call t = k)); [|apply I4].
    rewrite filter_cons, decide_False by (intros H; apply H, Ht). apply I4.
Qed.

Lemma resolved_app (m1 m2 : list Move) :
  resolved (m1 ++ m2) = (resolved m1 + resolved m2)%nat.
Proof. unfold resolved. rewrite filter_app, length_app. reflexivity. Qed.

Lemma resolved_none (l : list Move) :
  Forall (λ m, resolves m = false) l → resolved l = 0%nat.
Proof.
  unfold resolved. induction 1 as [|m l Hm _ IH]; [reflexivity|].
  rewrite filter_cons, decide_False by congruence. exact IH.
Qed.

(** X13. One slot is enough.  After any hosts have arrived, letting the port
    goroutines run one after the other, and then the waiting ones, ends the
    scan: every goroutine has returned, every port of every resolved host
    is counted as open or as closed, the semaphore is empty,
    [session.WaitGroup] is back at zero and every call is completed. *)
Theorem one_slot_ends_the_scan (a : TCPPortScanner) (net : nat → Z → Attempt)
    (hosts : list (string * option (list string))) (s : Session)
    (capacity ms : Z) :
  scanWorker a = Some capacity → 1 ≤ capacity →
  is_Some (session a) →
  ScanTimeout (options s) = Some ms →
  let arrivals := (λ h, HostFound h.1 h.2) <$> hosts in
  let n := resolved arrivals in
  ∃ sc, run a net (arrivals ++ one_by_one (n * length (ports s))
                            ++ (RunWaiter <$> seq 0 n)) (start s) = Some sc
        ∧ length (tasks sc) = (n * length (ports s))%nat
        ∧ Forall (λ t, phase t = Finished) (tasks sc)
        ∧ (PortOpen (stats (sc_session sc)) + PortClosed (stats (sc_session sc))
           = PortOpen (stats s) + PortClosed (stats s) + n * length (ports s))%nat
        ∧ in_use sc = 0 ∧ sessionWaitGroup sc = 0
        ∧ length (calls sc) = n
        ∧ Forall (λ c, completed c = true) (calls sc).
Proof.
  intros Ha Hcap Hsa Hms arrivals n.
  assert (Forall (λ m, ∀ i, m ≠ RunTask i) arrivals) as Hhosts.
  { subst arrivals. apply Forall_fmap, Forall_forall. intros h _ i. discriminate. }
  destruct (run_idle a net s arrivals (start s) Hsa (or_intror Hhosts) (start_idle s))
    as (sc1 & R1 & Hw1 & Hu1 & _).
  destruct (start_ok a s) as (S0 & A0 & C0).
  pose proof (run_invariant _ a net (step_accounts_ok a net s) _ _ _ A0 R1) as A1.
  pose proof (run_tasks_length a net s _ _ _ A0 R1) as L1. simpl in L1.
  pose proof (run_calls_length a net _ _ _ R1) as K1. simpl in K1.
  fold n in L1, K1.
  destruct (one_by_one_runs a net capacity ms (n * length (ports s)) Ha Hcap 0%nat sc1)
    as (sc2 & R2 & Hf2).
  { destruct A1 as (_ & -> & _). exact Hms. }
  { exact Hu1. }
  { exact L1. }
  { intros i t Hi. simpl. apply (proj1 (Forall_lookup _ _) Hw1 i t Hi). }
  fold (one_by_one (n * length (ports s))) in R2.
  pose proof (run_invariant _ a net (step_calls_ok a net) _ _ _
                (run_invariant _ a net (step_calls_ok a net) _ _ _ C0 R1) R2) as C2.
  pose proof (run_calls_length a net _ _ _ R2) as K2.
  rewrite (resolved_none (one_by_one _)) in K2.
  2:{ unfold one_by_one. apply Forall_flat_map, Forall_forall. intros i _.
      repeat constructor. }
  destruct (finished_counts _ Hf2) as (_ & _ & _ & Hnone).
  destruct (waiters_run a net n 0%nat sc2) as (sc3 & R3 & T3 & D3).
  { apply Forall_lookup. intros k c Hk. destruct C2 as [_ Hwg].
    destruct (Hwg k c Hk) as [-> _]. rewrite Hnone. reflexivity. }
  { intros i c _ Hlt. lia. }
  assert (run a net (arrivals ++ one_by_one (n * length (ports s))
                              ++ (RunWaiter <$> seq 0 n)) (start s) = Some sc3) as R.
  { rewrite run_app, R1. simpl. rewrite run_app, R2. simpl. exact R3. }
  exists sc3. split; [exact R|].
  pose proof (run_invariant _ a net (step_accounts_ok a net s) _ _ _ A0 R)
    as (Hg & _ & _ & _ & Hs & _).
  pose proof (run_invariant _ a net (step_slots_ok a net) _ _ _ S0 R) as [Hu _].
  pose proof (run_calls_length a net _ _ _ R3) as K3.
  rewrite (resolved_none (RunWaiter <$> _)) in K3
    by (apply Forall_fmap, Forall_forall; intros; reflexivity).
  rewrite T3 in *.
  destruct (finished_counts _ Hf2) as (Hun & Hsc & Hcount & _).
  assert (length (tasks sc2) = (n * length (ports s))%nat) as L2.
  { pose proof (run_tasks_length a net s _ _ _ A1 R2) as L2.
    rewrite (resolved_none (one_by_one _)) in L2.
    2:{ unfold one_by_one. apply Forall_flat_map, Forall_forall. intros i _.
        repeat constructor. }
    lia. }
  split; [exact L2|]. split; [exact Hf2|].
  split; [rewrite Hs; cbn [PortOpen PortClosed]; lia|].
  split; [rewrite Hu, Hsc; reflexivity|].
  split; [rewrite Hg, Hun; reflexivity|].
  split; [lia|].
  apply Forall_lookup. intros k c Hk. apply (D3 k c Hk).
  apply lookup_lt_Some in Hk. lia.
Qed.

Lemma one_slot_ends_the_scan_witness :
  ∃ sc, run (scanner 1) net_first_open
            ([HostFound "example.com" (Some ["192.0.2.7"%string]);
              HostFound "nowhere.invalid" None]
             ++ one_by_one 3 ++ [RunWaiter 0]) (start (scan_session 1)) = Some sc
        ∧ Forall (λ t, phase t = Finished) (tasks sc)
        ∧ sessionWaitGroup sc = 0.
Proof.
  destruct (one_slot_ends_the_scan (scanner 1) net_first_open
              [("example.com"%string, Some ["192.0.2.7"%string]);
               ("nowhere.invalid"%string, None)]
              (scan_session 1) 1 100 eq_refl ltac:(lia) ltac:(eexists; reflexivity)
              eq_refl)
    as (sc & Hrun & _ & Hf & _ & _ & Hg & _).
  exists sc. split; [exact Hrun|]. split; [exact Hf | exact Hg].
Defined.

End PortScans.

(** ** The URL publisher *)

Section URLPublishing.
Import Core Agents Publisher.

Variable HostAndPortToURL : string → Z → string → string.

(** X14. For every open port the publisher publishes exactly one [URL]
    event, made by [HostAndPortToURL] with scheme https or http.  The scheme
    is https exactly for port 443 and for a port other than 80 on which the
    TLS handshake succeeds, also when closing that connection fails.  Ports
    80 and 443 are never dialled; any other port is dialled once, with the
    HTTP timeout.  Counters and pages are not touched. *)
Theorem OnTCPPort_publishes_one_URL (tls : TLSDial) (port : Z) (host : string)
    (s : Session) (dials : list Dialed) :
  port = 80 ∨ port = 443 ∨ is_Some (HTTPTimeout (options s)) →
  ∃ s' dials' scheme,
    OnTCPPort HostAndPortToURL tls port host (s, dials) = Some (s', dials')
    ∧ published s'
      = published s ++ [mkEvent Topic.URL [AString (HostAndPortToURL host port scheme)]]
    ∧ (scheme = "https"%string ∨ scheme = "http"%string)
    ∧ (scheme = "https"%string ↔ port = 443 ∨ (port ≠ 80 ∧ ∃ c, tls = TLSConn c))
    ∧ (port = 80 ∨ port = 443 → dials' = dials)
    ∧ (port ≠ 80 → port ≠ 443 →
       ∃ ms, HTTPTimeout (options s) = Some ms
             ∧ dials' = dials ++ [(host, port, Go.mul64 ms Go.Millisecond)])
    ∧ stats s' = stats s ∧ Pages s' = Pages s.
Proof.
  intros H. unfold OnTCPPort, isTLS. cbn [fst snd].
  destruct (Z.eqb_spec port 80) as [->|H80].
  { eexists _, _, "http"%string. simpl.
    split; [reflexivity|]. split; [reflexivity|]. split; [right; reflexivity|].
    split; [split; [discriminate | intros [?|[? _]]; lia]|].
    split; [reflexivity|]. split; [lia|]. split; reflexivity. }
  destruct (Z.eqb_spec port 443) as [->|H443].
  { eexists _, _, "https"%string. simpl.
    split; [reflexivity|]. split; [reflexivity|]. split; [left; reflexivity|].
    split; [split; [left; reflexivity | reflexivity]|].
    split; [reflexivity|]. split; [lia|]. split; reflexivity. }
  destruct H as [?|[?|[ms Hms]]]; [lia | lia |].
  cbn [log options]. rewrite Hms. cbn [mbind option_bind].
  destruct tls as [|close_ok].
  - eexists _, _, "http"%string. simpl.
    split; [reflexivity|]. split; [reflexivity|]. split; [right; reflexivity|].
    split; [split; [discriminate | intros [?|[_ [c Hc]]]; [lia | discriminate]]|].
    split; [lia|]. split; [intros _ _; exists ms; split; reflexivity|].
    split; reflexivity.
  - destruct close_ok; eexists _, _, "https"%string; simpl;
      (split; [reflexivity|]); (split; [reflexivity|]);
      (split; [left; reflexivity|]);
      (split; [split; [intros _; right; split; [exact H80 | eexists; reflexivity]
                      | reflexivity]|]);
      (split; [lia|]); (split; [intros _ _; exists ms; split; reflexivity|]);
      split; reflexivity.
Qed.

Lemma OnTCPPort_total (tls : TLSDial) (port : Z) (host : string)
    (s : Session) (dials : list Dialed) :
  is_Some (HTTPTimeout (options s)) →
  ∃ s' dials', OnTCPPort HostAndPortToURL tls port host (s, dials) = Some (s', dials').
Proof.
  intros [ms Hms]. unfold OnTCPPort, isTLS. cbn [fst snd log options].
  destruct (port =? 80); [eauto|]. destruct (port =? 443); [eauto|].
  rewrite Hms. cbn [mbind option_bind]. destruct tls as [|[]]; eauto.
Qed.

End URLPublishing.

Section URLPublishingSample.
Import Core Agents Publisher.

(** Port 8443 with TLS, on the default options: one dial, three seconds. *)
Lemma OnTCPPort_publishes_one_URL_witness :
  ∃ s', OnTCPPort (λ host port scheme, scheme +:+ "://" +:+ host) (TLSConn true) 8443
                  "example.com" (example_session, [])
        = Some (s', [("example.com"%string, 8443, 3 * Go.Second)])
        ∧ published s' = [mkEvent Topic.URL [AString "https://example.com"]].
Proof.
  destruct (OnTCPPort_publishes_one_URL (λ host port scheme, scheme +:+ "://" +:+ host)
              (TLSConn true) 8443 "example.com" example_session []
              (or_intror (or_intror (ex_intro _ 3000 eq_refl))))
    as (s' & dials' & scheme & Hrun & Hpub & _ & Hs & _ & Hd & _).
  destruct (Hd ltac:(lia) ltac:(lia)) as (ms & Hms & ->).
  injection Hms as <-.
  assert (scheme = "https"%string) as ->
    by (apply Hs; right; split; [lia | eexists; reflexivity]).
  exists s'. split; [exact Hrun | exact Hpub].
Defined.

End URLPublishingSample.

(** ** The parser of the targets *)

Section TargetParser.
Import Parsers.

Lemma foldl_keep_spec (l : list string) :
  ∀ (ts : list string) (f : gset string),
    (∀ x, x ∈ f ↔ x ∈ ts) → NoDup ts →
    ∃ new, (foldl keep (ts, f) l).1 = ts ++ new
           ∧ (∀ x, x ∈ (foldl keep (ts, f) l).2 ↔ x ∈ ts ++ new)
           ∧ NoDup (ts ++ new)
           ∧ new `sublist_of` l
           ∧ (∀ x, x ∈ new ↔ x ∈ l ∧ x ∉ ts).
Proof.
  induction l as [|t l IH]; intros ts f Hf Hnd.
  - exists []. simpl. rewrite app_nil_r.
    split; [reflexivity|]. split; [exact Hf|]. split; [exact Hnd|].
    split; [constructor|]. intros x. split; [intros H; inversion H | intros [H _]; inversion H].
  - cbn [foldl]. destruct (decide (t ∈ f)) as [Hin|Hnin].
    + assert (keep (ts, f) t = (ts, f)) as ->
        by (unfold keep; cbn [fst snd]; rewrite decide_True by exact Hin; reflexivity).
      destruct (IH ts f Hf Hnd) as (new & E1 & E2 & E3 & E4 & E5).
      exists new. split; [exact E1|]. split; [exact E2|]. split; [exact E3|].
      split; [apply sublist_cons, E4|].
      intros x. rewrite E5, elem_of_cons. split; [tauto|].
      intros [[->|H] Hx]; [|tauto]. exfalso. apply Hx, Hf, Hin.
    + assert (keep (ts, f) t = (ts ++ [t], f ∪ {[t]})) as ->
        by (unfold keep; cbn [fst snd]; rewrite decide_False by exact Hnin; reflexivity).
      destruct (IH (ts ++ [t]) (f ∪ {[t]})) as (new & E1 & E2 & E3 & E4 & E5).
      { intros x. rewrite elem_of_union, elem_of_singleton, elem_of_app,
          list_elem_of_singleton, Hf. reflexivity. }
      { apply NoDup_app. split; [exact Hnd|]. split; [|apply NoDup_singleton].
        intros x Hx Hx'. apply list_elem_of_singleton in Hx'. subst x.
        apply Hnin, Hf, Hx. }
      exists (t :: new). rewrite <- app_assoc in E1, E2, E3.
      split; [exact E1|]. split; [exact E2|]. split; [exact E3|].
      split; [apply sublist_skip, E4|].
      intros x. rewrite !elem_of_cons, E5, elem_of_app, list_elem_of_singleton.
      split.
      * intros [->|[Hl Hx]]; [split; [left; reflexivity | rewrite <- Hf; exact Hnin]|].
        split; [right; exact Hl | tauto].
      * intros [[->|Hl] Hx]; [left; reflexivity|].
        destruct (decide (x = t)) as [->|Hne]; [left; reflexivity|].
        right. split; [exact Hl | tauto].
Qed.

Section WithPattern.

Variable FindAllString : string → list string.

Lemma Parse_flat (lines : list string) (st : list string * gset string) :
  foldl (λ st line, foldl keep st (FindAllString line)) st lines
  = foldl keep st (concat (FindAllString <$> lines)).
Proof.
  revert st. induction lines as [|line lines IH]; intros st; [reflexivity|].
  simpl. rewrite foldl_app. apply IH.
Qed.

(** X15. The targets that [Parse] returns are the matches of the pattern in
    the lines read, each once, in the order in which they first occur: a
    match is in the result exactly when it occurs, no target is repeated,
    and before a target come exactly the targets that occur before its
    first occurrence.  There are no targets exactly when no line has a
    match, and the error is nil always. *)
Theorem Parse_first_occurrences (lines : list string) :
  let matches := concat (FindAllString <$> lines) in
  let targets := (Parse FindAllString lines).1 in
  (Parse FindAllString lines).2 = None
  ∧ NoDup targets
  ∧ (∀ t, t ∈ targets ↔ t ∈ matches)
  ∧ targets `sublist_of` matches
  ∧ (∀ before t after, matches = before ++ t :: after → t ∉ before →
       ∃ r1 r2, targets = r1 ++ t :: r2 ∧ ∀ x, x ∈ r1 ↔ x ∈ before)
  ∧ (targets = [] ↔ matches = []).
Proof.
  cbv zeta. unfold Parse. cbn [fst snd]. rewrite Parse_flat.
  set (matches := concat (FindAllString <$> lines)).
  assert (∀ x : string, x ∈ (∅ : gset string) ↔ x ∈ ([] : list string)) as H0.
  { intros x. rewrite elem_of_empty. split; [tauto | intros H; inversion H]. }
  destruct (foldl_keep_spec matches [] ∅ H0 (NoDup_nil_2)) as (new & E1 & _ & E3 & E4 & E5).
  simpl in E1, E3. rewrite E1.
  split; [reflexivity|]. split; [exact E3|].
  split; [intros t; rewrite E5; split; [tauto | intros H; split; [exact H | intros Hn; inversion Hn]]|].
  split; [exact E4|]. split.
  - intros before t after Hm Hnin. rewrite <- E1. clear E1 E3 E4 E5.
    destruct (foldl_keep_spec before [] ∅ H0 (NoDup_nil_2)) as (r1 & F1 & F2 & F3 & _ & F5).
    simpl in F1, F2, F3.
    rewrite Hm, foldl_app. cbn [foldl].
    destruct (foldl keep ([], ∅) before) as [ts f] eqn:Eb. simpl in F1, F2. subst ts.
    assert (keep (r1, f) t = (r1 ++ [t], f ∪ {[t]})) as ->
      by (unfold keep; cbn [fst snd];
          rewrite decide_False by (rewrite F2, F5; tauto); reflexivity).
    destruct (foldl_keep_spec after (r1 ++ [t]) (f ∪ {[t]})) as (r2 & G1 & _).
    { intros x. rewrite elem_of_union, elem_of_singleton, elem_of_app,
        list_elem_of_singleton, F2. reflexivity. }
    { apply NoDup_app. split; [exact F3|]. split; [|apply NoDup_singleton].
      intros x Hx Hx'. apply list_elem_of_singleton in Hx'. subst x.
      apply F5 in Hx. tauto. }
    exists r1, r2. rewrite G1, <- app_assoc. split; [reflexivity|].
    intros x. rewrite F5. split; [tauto | intros H; split; [exact H | intros Hn; inversion Hn]].
  - split.
    + intros ->. destruct matches as [|m ms]; [reflexivity|].
      exfalso. assert (m ∈ ([] : list string)) as H
        by (apply E5; split; [left | intros Hn; inversion Hn]).
      inversion H.
    + intros Hm. rewrite Hm in E4. apply sublist_nil_r in E4. exact E4.
Qed.

End WithPattern.

End TargetParser.

(** ** The screenshotter: set-up, clean-up and accounting *)

Section ScreenshotterProperties.
Import Core Agents Screenshotter.

Lemma searchChrome_first (m : Machine) (a : URLScreenshotter)
    (before after : list string) (p : string) :
  Forall (λ q, os_Stat m q = StatNotExist) before →
  os_Stat m p ≠ StatNotExist →
  searchChrome m (before ++ p :: after) a
  = mkURLScreenshotter (session a) p (tempUserDirPath a).
Proof.
  intros Hb Hp. induction Hb as [|q before Hq _ IH]; simpl.
  - destruct (os_Stat m p); [reflexivity | contradiction | reflexivity].
  - rewrite Hq. exact IH.
Qed.

Lemma searchChrome_none (m : Machine) (a : URLScreenshotter) (ps : list string) :
  Forall (λ q, os_Stat m q = StatNotExist) ps → searchChrome m ps a = a.
Proof. induction 1 as [|q ps Hq _ IH]; simpl; [reflexivity | rewrite Hq; exact IH]. Qed.

Lemma checkVersion_google (version : string) (w : World) :
  warn_google_chrome ∈ output (w_session (checkVersion version w))
  ↔ warn_google_chrome ∈ output (w_session w).
Proof.
  unfold checkVersion, wlog, warn_google_chrome.
  destruct (FindMajor version "") as [digits|]; [destruct (Atoi digits) as [v|];
    [destruct (v <? 72)|]|]; cbn [w_session log output];
    rewrite ?elem_of_app, ?list_elem_of_singleton;
    (split; [intuition discriminate | tauto]).
Qed.

(** X16. Without [--chrome-path], a scanner that has no binary yet takes
    the first path of the list that [os.Stat] does not report as missing,
    also one that [os.Stat] fails on for another reason, and it fails when
    all are missing.  The version of the binary taken must be readable.
    The advice to install Chromium is printed exactly when the binary taken
    is one of the six Google Chrome paths, also when a Chromium is installed
    further down the list. *)
Theorem locateChrome_takes_first_path (m : Machine) (a : URLScreenshotter) (w : World) :
  ChromePath (options (w_session w)) = Some ""%string →
  chromePath a = ""%string →
  (Forall (λ q, os_Stat m q = StatNotExist) paths →
   ∃ err, locateChrome m a w = Some (Some err, a, w))
  ∧ (∀ before p after,
       paths = before ++ p :: after →
       Forall (λ q, os_Stat m q = StatNotExist) before →
       os_Stat m p ≠ StatNotExist →
       ∃ err w',
         locateChrome m a w
         = Some (err, mkURLScreenshotter (session a) p (tempUserDirPath a), w')
         ∧ (err = None ↔ is_Some (chrome_version m p))
         ∧ (warn_google_chrome ∈ output (w_session w')
            ↔ warn_google_chrome ∈ output (w_session w) ∨ p ∈ google_chrome_paths)).
Proof.
  intros Hcp Ha. split.
  - intros Hnone. unfold locateChrome. rewrite Hcp.
    cbn [mbind option_bind String.eqb negb].
    rewrite (searchChrome_none m a paths Hnone), Ha. cbn [String.eqb]. eauto.
  - intros before p after Hp Hb Hs. unfold locateChrome. rewrite Hcp.
    cbn [mbind option_bind String.eqb negb].
    rewrite Hp, (searchChrome_first m a before after p Hb Hs). cbn [chromePath].
    assert (p ∈ paths) as Hin by (rewrite Hp; apply elem_of_app; right; left).
    assert (String.eqb p "" = false
            ∧ (ContainsString (Go.ToLower p) "chrome"
               && negb (ContainsString (Go.ToLower p) "chromium") = true
               ↔ p ∈ google_chrome_paths)) as [Hne Hg].
    { unfold paths in Hin. clear -Hin.
      repeat (apply elem_of_cons in Hin as [->|Hin]);
        [.. | inversion Hin];
        (split; [reflexivity|]);
        (split; [intros H; first [discriminate H | compute_done]
                | intros H; first [vm_compute; reflexivity
                                  | exfalso; revert H; compute_done]]). }
    rewrite Hne.
    set (google := ContainsString (Go.ToLower p) "chrome"
                   && negb (ContainsString (Go.ToLower p) "chromium")) in *.
    assert (∀ w0 : World,
              warn_google_chrome ∈ output (w_session
                (if google then wlog (wlog w Out.Debug
                     "[%s] Attempting to use Chrome/Chromium binary at %s\n") Out.Warn
                     "Using Google Chrome for screenshots. Install Chromium for potentially better results and stability.\n"
                 else wlog w Out.Debug
                     "[%s] Attempting to use Chrome/Chromium binary at %s\n"))
              ↔ warn_google_chrome ∈ output (w_session w) ∨ p ∈ google_chrome_paths)
      as Hw.
    { intros _. unfold warn_google_chrome. destruct google;
        cbn [wlog w_session log output];
        rewrite ?elem_of_app, ?list_elem_of_singleton.
      - split; [intros _; right; apply Hg; reflexivity | intros _; right; reflexivity].
      - split; [intuition discriminate|].
        intros [H|H]; [left; exact H | apply Hg in H; discriminate H]. }
    destruct (chrome_version m p) as [version|] eqn:Ev.
    + eexists None, _. split; [reflexivity|].
      split; [split; [eauto | reflexivity]|].
      rewrite checkVersion_google. apply (Hw w).
    + eexists (Some _), _. split; [reflexivity|].
      split; [split; [discriminate | intros [? H]; discriminate H]|].
      apply (Hw w).
Qed.

Lemma locateChrome_takes_first_path_witness :
  ∃ err w',
    locateChrome linux_both NewURLScreenshotter (mkWorld example_session [])
    = Some (err, mkURLScreenshotter None "/usr/bin/google-chrome" "", w')
    ∧ warn_google_chrome ∈ output (w_session w').
Proof.
  destruct (locateChrome_takes_first_path linux_both NewURLScreenshotter
              (mkWorld example_session []) eq_refl eq_refl) as [_ H].
  destruct (H [] "/usr/bin/google-chrome"%string (tail paths) eq_refl
              (Forall_nil_2 _) ltac:(vm_compute; discriminate))
    as (err & w' & E & _ & Hw).
  exists err, w'. split; [exact E | apply Hw; right; left].
Defined.

Lemma FindMajor_digits (ds rest acc : string) :
  all_digits ds → acc +:+ ds ≠ ""%string →
  FindMajor (ds +:+ "." +:+ rest) acc = Some (acc +:+ ds).
Proof.
  unfold all_digits. revert acc. induction ds as [|c ds IH]; intros acc Hd Hne.
  - cbn. destruct acc as [|x acc]; [contradiction Hne; reflexivity|].
    replace (String x acc +:+ "") with (String x acc).
    + reflexivity.
    + clear. induction (String x acc) as [|y t IHt]; [reflexivity|].
      rewrite append_cons, <- IHt. reflexivity.
  - simpl in Hd. apply Forall_cons in Hd as [Hc Hd].
    rewrite append_cons. cbn [FindMajor]. rewrite Hc.
    rewrite IH; [|exact Hd|].
    + rewrite append_assoc. reflexivity.
    + rewrite append_assoc. destruct acc; discriminate.
Qed.

Lemma FindMajor_skip (pre s : string) :
  no_digits pre → FindMajor (pre +:+ s) "" = FindMajor s "".
Proof.
  unfold no_digits. induction pre as [|c pre IH]; intros Hp; [reflexivity|].
  simpl in Hp. apply Forall_cons in Hp as [Hc Hp].
  rewrite append_cons. cbn [FindMajor]. rewrite Hc.
  cbn [String.eqb negb andb]. rewrite andb_false_r. apply IH, Hp.
Qed.

(** X17. For a version line that consists of a name without digits, the
    digits of the major version, a dot and the rest, the screenshotter
    prints the version and then warns of an old version exactly when the
    major version is below 72; a major version that does not fit an [int]
    gets the warning that it cannot be parsed, and no other line is
    printed. *)
Theorem old_version_warning (name digits rest : string) (w : World) :
  no_digits name → all_digits digits → digits ≠ ""%string →
  output (w_session (checkVersion (name +:+ digits +:+ "." +:+ rest) w))
  = output (w_session w)
    ++ debug_version
       :: (if decimal 0 digits <? 72 then [warn_old_version]
           else if decimal 0 digits <? 2 ^ 63 then []
           else [warn_unparsed_version]).
Proof.
  intros Hn Hd Hne. unfold checkVersion.
  rewrite (FindMajor_skip name _ Hn), (FindMajor_digits digits rest "" Hd Hne).
  change ("" +:+ digits) with digits. unfold Atoi.
  destruct (Z.ltb_spec (decimal 0 digits) (2 ^ 63)) as [Hr|Hr].
  - destruct (Z.ltb_spec (decimal 0 digits) 72) as [Ho|Ho];
      cbn [wlog w_session log output]; rewrite <- ?app_assoc; reflexivity.
  - destruct (Z.ltb_spec (decimal 0 digits) 72) as [Ho|Ho]; [lia|].
    cbn [wlog w_session log output]. rewrite <- app_assoc. reflexivity.
Qed.

Lemma old_version_warning_witness :
  output (w_session (checkVersion "Chromium 71.0.3578.98" (mkWorld example_session [])))
  = [debug_version; warn_old_version]
  ∧ output (w_session (checkVersion "Google Chrome 120.0.6099.109"
                         (mkWorld example_session [])))
    = [debug_version].
Proof.
  split.
  - apply (old_version_warning "Chromium " "71" "0.3578.98" (mkWorld example_session []));
      [repeat constructor .. | discriminate].
  - apply (old_version_warning "Google Chrome " "120" "0.6099.109"
             (mkWorld example_session [])); [repeat constructor .. | discriminate].
Defined.

Lemma searchChrome_keeps (m : Machine) (ps : list string) (a : URLScreenshotter) :
  tempUserDirPath (searchChrome m ps a) = tempUserDirPath a
  ∧ session (searchChrome m ps a) = session a.
Proof.
  induction ps as [|q ps IH]; simpl; [split; reflexivity|].
  destruct (os_Stat m q); [split; reflexivity | exact IH | split; reflexivity].
Qed.

Lemma checkVersion_dirs (version : string) (w : World) :
  w_dirs (checkVersion version w) = w_dirs w.
Proof.
  unfold checkVersion.
  destruct (FindMajor version "") as [digits|]; [destruct (Atoi digits) as [v|];
    [destruct (v <? 72)|]|]; reflexivity.
Qed.

Lemma locateChrome_keeps (m : Machine) (a : URLScreenshotter) (w : World) (r : Result) :
  locateChrome m a w = Some r →
  w_dirs r.2 = w_dirs w ∧ tempUserDirPath r.1.2 = tempUserDirPath a
  ∧ session r.1.2 = session a.
Proof.
  unfold locateChrome. destruct (ChromePath (options (w_session w))) as [path|];
    [|discriminate]. cbn [mbind option_bind].
  destruct (negb (String.eqb path "")).
  - destruct (os_Stat m path); intros H; injection H as <-; repeat split.
  - destruct (searchChrome_keeps m paths a) as [Ht Hs].
    destruct (String.eqb (chromePath (searchChrome m paths a)) "").
    + intros H; injection H as <-. repeat split; assumption.
    + destruct (chrome_version m _) as [version|]; intros H; injection H as <-;
        cbn [fst snd]; rewrite ?checkVersion_dirs;
        (split; [|split; assumption]);
        destruct (ContainsString _ _ && negb _); reflexivity.
Qed.

(** X18. Once the subscription to responsive URLs has succeeded,
    [Register] creates the temporary directory before it looks for a
    browser: the directory exists afterwards whether or not [Register]
    fails, and it does fail when no path of the list exists.  A failed
    subscription to the end of the session does not make [Register] fail.
    Only [OnSessionEnd] deletes the directory, and leaves the directories
    as they were before [Register] when the deletion succeeds. *)
Theorem Register_creates_temp_dir_first (sub_end : option string) (m : Machine)
    (a : URLScreenshotter) (s : Session) (dirs : list string) (dir path : string) :
  os_MkdirTemp m = Some dir →
  ChromePath (options s) = Some path →
  ∃ err a' w',
    Register None sub_end m a (mkWorld s dirs) = Some (err, a', w')
    ∧ w_dirs w' = dirs ++ [dir]
    ∧ tempUserDirPath a' = dir
    ∧ (path = ""%string → chromePath a = ""%string →
       Forall (λ q, os_Stat m q = StatNotExist) paths → err ≠ None)
    ∧ (dir ∉ dirs → os_RemoveAll m dir = true → w_dirs (OnSessionEnd m a' w') = dirs)
    ∧ (os_RemoveAll m dir = false → w_dirs (OnSessionEnd m a' w') = dirs ++ [dir]).
Proof.
  intros Hmk Hcp. unfold Register, createTempUserDir. rewrite Hmk.
  set (w0 := match sub_end with Some _ => _ | None => _ end).
  assert (w_dirs w0 = dirs ∧ options (w_session w0) = options s) as [Hd0 Ho0]
    by (subst w0; destruct sub_end; split; reflexivity).
  set (a1 := mkURLScreenshotter (session (mkURLScreenshotter (Some (w_session w0))
               (chromePath a) (tempUserDirPath a))) _ dir).
  set (w1 := wlog _ _ _).
  assert (w_dirs w1 = dirs ++ [dir]) as Hd1 by (subst w1; simpl; rewrite Hd0; reflexivity).
  assert (ChromePath (options (w_session w1)) = Some path) as Hcp1
    by (subst w1; simpl; rewrite Ho0; exact Hcp).
  destruct (locateChrome m a1 w1) as [[[err a'] w']|] eqn:El.
  2:{ unfold locateChrome in El. rewrite Hcp1 in El. cbn [mbind option_bind] in El.
      destruct (negb (String.eqb path "")); [destruct (os_Stat m path); discriminate|].
      destruct (String.eqb _ ""); [discriminate|].
      destruct (chrome_version m _); discriminate. }
  destruct (locateChrome_keeps m a1 w1 _ El) as (Kd & Kt & _). cbn [fst snd] in Kd, Kt.
  assert (path = ""%string → chromePath a = ""%string →
          Forall (λ q, os_Stat m q = StatNotExist) paths → err ≠ None) as Hfail.
  { intros -> Ha Hnone ->.
    unfold locateChrome in El. rewrite Hcp1 in El.
    cbn [mbind option_bind String.eqb negb] in El.
    rewrite (searchChrome_none m a1 paths Hnone) in El.
    subst a1. cbn [chromePath] in El. rewrite Ha in El. cbn [String.eqb] in El.
    discriminate El. }
  assert (dir ∉ dirs → os_RemoveAll m dir = true → w_dirs (OnSessionEnd m a' w') = dirs)
    as Hdel.
  { intros Hnin Hrm. unfold OnSessionEnd. rewrite Kt.
    subst a1. cbn [tempUserDirPath]. rewrite Hrm. cbn [wlog w_dirs w_session].
    rewrite Kd, Hd1. unfold remove_dir. rewrite filter_app, filter_cons, filter_nil.
    rewrite decide_False by (intros H; apply H; reflexivity).
    rewrite app_nil_r. clear -Hnin. induction dirs as [|d dirs IH]; [reflexivity|].
    apply not_elem_of_cons in Hnin as [Hne Hnin].
    rewrite filter_cons, decide_True by congruence. rewrite IH by exact Hnin. reflexivity. }
  assert (os_RemoveAll m dir = false → w_dirs (OnSessionEnd m a' w') = dirs ++ [dir])
    as Hkeep.
  { intros Hrm. unfold OnSessionEnd. rewrite Kt. subst a1. cbn [tempUserDirPath].
    rewrite Hrm. cbn [wlog w_dirs]. rewrite Kd. exact Hd1. }
  cbn [mbind option_bind].
  destruct err as [e|]; eexists _, a', w'; (split; [reflexivity|]);
    (split; [rewrite Kd; exact Hd1|]); (split; [rewrite Kt; reflexivity|]);
    (split; [|split; assumption]).
  - intros _ _ _. discriminate.
  - exact Hfail.
Qed.

Lemma Register_creates_temp_dir_first_witness :
  ∃ err a' w',
    Register None None no_browser NewURLScreenshotter (mkWorld example_session [])
    = Some (err, a', w')
    ∧ err ≠ None
    ∧ w_dirs w' = ["/tmp/aquatone-chrome123"%string]
    ∧ w_dirs (OnSessionEnd no_browser a' w') = [].
Proof.
  destruct (Register_creates_temp_dir_first None no_browser NewURLScreenshotter
              example_session [] "/tmp/aquatone-chrome123" "" eq_refl eq_refl)
    as (err & a' & w' & Hr & Hd & _ & Herr & Hrm & _).
  exists err, a', w'. split; [exact Hr|].
  split; [apply Herr; [reflexivity | reflexivity | repeat constructor]|].
  split; [exact Hd|]. apply Hrm; [apply not_elem_of_nil | reflexivity].
Defined.

End ScreenshotterProperties.

Section ScreenshotAccounting.
Import Core Agents.

Variable url_Parse : string → option Go.URL.

Lemma wait_chrome_in_time (run : ChromeRun) (seconds : Z) :
  0 < seconds →
  (wait_chrome (seconds * Go.Second) run = Some WaitOk ↔ chrome_in_time run seconds).
Proof.
  intros Hpos. unfold wait_chrome, chrome_in_time, Go.Second.
  destruct (Z.leb_spec (seconds * 1000000000) 0); [lia|].
  destruct run as [|after status_ok|].
  - split; [discriminate | intros (x & Hx & _); discriminate Hx].
  - destruct (Z.ltb_spec (seconds * 1000000000) after).
    + split; [discriminate | intros (x & Hx & Hle); injection Hx as <- _; lia].
    + destruct status_ok.
      * split; [intros _; exists after; split; [reflexivity | lia] | reflexivity].
      * split; [discriminate | intros (x & Hx & _); discriminate Hx].
  - split; [discriminate | intros (x & Hx & _); discriminate Hx].
Qed.

(** X19. For a responsive URL whose page is stored, every run of Chrome is
    counted once, as a successful or as a failed screenshot, and nothing
    else of the statistics, the events and the clusters moves.  The page
    gets its screenshot, under screenshots/ with its base file name, exactly
    when Chrome starts, exits by itself with status 0 and does so within
    [ScreenshotTimeout] seconds (the option is read as seconds, a thousand
    times its milliseconds); otherwise no page changes.  Pages under other
    URLs never change. *)
Theorem screenshot_is_counted_once (run : ChromeRun) (url : string) (s : Session)
    (page : Page) (u : Go.URL) (ms : Z) :
  GetPage s url = Some page →
  url_Parse (URL page) = Some u →
  ScreenshotTimeout (options s) = Some ms →
  0 < ms ≤ 9223372036 →
  ∃ s' base,
    OnURLResponsive url_Parse run url s = Some s'
    ∧ BaseFilename url_Parse page = Some base
    ∧ (ScreenshotSuccessful (stats s') + ScreenshotFailed (stats s')
       = S (ScreenshotSuccessful (stats s) + ScreenshotFailed (stats s)))%nat
    ∧ PortOpen (stats s') = PortOpen (stats s)
    ∧ PortClosed (stats s') = PortClosed (stats s)
    ∧ published s' = published s
    ∧ PageSimilarityClusters s' = PageSimilarityClusters s
    ∧ (∀ k, k ≠ url → Pages s' !! k = Pages s !! k)
    ∧ (chrome_in_time run ms →
       ScreenshotSuccessful (stats s') = S (ScreenshotSuccessful (stats s))
       ∧ Pages s' !! url
         = Some (set_screenshot page ("screenshots/" +:+ base +:+ ".png")))
    ∧ (¬ chrome_in_time run ms →
       ScreenshotFailed (stats s') = S (ScreenshotFailed (stats s))
       ∧ Pages s' = Pages s).
Proof.
  intros Hpage Hu Hms Hr. unfold OnURLResponsive.
  change (GetPage (log s Out.Debug "[%s] Received new responsive URL %s\n") url)
    with (GetPage s url). rewrite Hpage.
  unfold screenshotPage, BaseFilename, ParsedURL. rewrite Hu. cbn [mbind option_bind].
  destruct (baseFilenameOf_total u) as [base Hb]. rewrite Hb. cbn [mbind option_bind].
  assert (screenshotDeadline (log s Out.Debug "[%s] Received new responsive URL %s\n")
          = Some (ms * Go.Second)) as Hd
    by (apply screenshotDeadline_seconds; [exact Hms | lia]).
  rewrite Hd. cbn [mbind option_bind].
  pose proof (wait_chrome_in_time run ms ltac:(lia)) as Hw.
  destruct (wait_chrome (ms * Go.Second) run) as [[| |]|] eqn:Ew.
  - eexists _, base. split; [reflexivity|]. split; [reflexivity|].
    split; [cbn; lia|]. do 4 (split; [reflexivity|]).
    split; [intros k Hk; cbn; apply lookup_insert_ne; congruence|].
    split; [intros _; split; [reflexivity | cbn; apply lookup_insert_eq]|].
    intros Hn. exfalso. apply Hn, Hw. reflexivity.
  - eexists _, base. split; [reflexivity|]. split; [reflexivity|].
    split; [cbn; lia|]. do 4 (split; [reflexivity|]).
    split; [intros k Hk; reflexivity|].
    split; [intros Hc; apply Hw in Hc; discriminate Hc | intros _; split; reflexivity].
  - eexists _, base. split; [reflexivity|]. split; [reflexivity|].
    split; [cbn; lia|]. do 4 (split; [reflexivity|]).
    split; [intros k Hk; reflexivity|].
    split; [intros Hc; apply Hw in Hc; discriminate Hc | intros _; split; reflexivity].
  - eexists _, base. split; [reflexivity|]. split; [reflexivity|].
    split; [cbn; lia|]. do 4 (split; [reflexivity|]).
    split; [intros k Hk; reflexivity|].
    split; [intros Hc; apply Hw in Hc; discriminate Hc | intros _; split; reflexivity].
Qed.

End ScreenshotAccounting.

Section ScreenshotAccountingSample.
Import Core Agents.

(** A Chrome that needs a minute, under the default timeout of 30000. *)
Lemma screenshot_is_counted_once_witness :
  ∃ s', OnURLResponsive Go.Parse (Exits (60 * Go.Second) true)
                        "http://example.com/" example_session = Some s'
        ∧ HasScreenshot <$> Pages s' !! "http://example.com/"%string = Some true
        ∧ stats s' = mkStats 0 0 1 0.
Proof.
  destruct (screenshot_is_counted_once Go.Parse (Exits (60 * Go.Second) true)
              "http://example.com/" example_session example_page
              (Go.mkURL "http" "" "example.com" "/" "" "") 30000
              eq_refl eq_refl eq_refl ltac:(lia))
    as (s' & base & Hrun & _ & Hsum & Ho & Hc & _ & _ & _ & Hin & _).
  destruct Hin as [Hs Hp].
  { exists (60 * Go.Second). split; [reflexivity | unfold Go.Second; lia]. }
  exists s'. split; [exact Hrun|]. split; [rewrite Hp; reflexivity|].
  destruct (stats s') as [po pc ss sf]. simpl in *. f_equal; lia.
Defined.

End ScreenshotAccountingSample.

(** ** The clusters after the pass *)

Section ClusterProperties.
Import Core Main.

Variable GetSimilarity : list string → list string → Q.

Local Abbreviation addToCluster := (Main.addToCluster GetSimilarity).
Local Abbreviation findCluster := (Main.findCluster GetSimilarity).
Local Abbreviation clusterPage := (Main.clusterPage GetSimilarity).
Local Abbreviation clusterLoop := (Main.clusterLoop GetSimilarity).
Local Abbreviation clusterPages := (Main.clusterPages GetSimilarity).
Local Abbreviation similar_to_all := (similar_to_all GetSimilarity).
Local Abbreviation like_its_predecessors := (like_its_predecessors GetSimilarity).

Lemma step_values_perm (accept : list string → bool) (order : list nat)
    (u : string) (vs : list (list string)) :
  concat (step_values accept order u vs) ≡ₚ concat vs ++ [u]
  ∧ (Forall (λ c, c ≠ []) vs → Forall (λ c, c ≠ []) (step_values accept order u vs))
  ∧ (length (step_values accept order u vs) ≤ S (length vs))%nat.
Proof.
  unfold step_values.
  destruct (find_pos accept order vs) as [i|] eqn:F.
  - destruct (find_pos_Some _ _ _ _ F) as [c Hc].
    assert (alter (λ c, c ++ [u]) i vs = take i vs ++ (c ++ [u]) :: drop (S i) vs) as ->.
    { rewrite <- (take_drop_middle vs i c Hc) at 1.
      rewrite alter_app_r_alt by (rewrite length_take; apply lookup_lt_Some in Hc; lia).
      rewrite length_take, Nat.min_l by (apply lookup_lt_Some in Hc; lia).
      rewrite Nat.sub_diag. reflexivity. }
    split; [|split].
    + rewrite <- (take_drop_middle vs i c Hc) at 3.
      rewrite !concat_app. simpl. rewrite <- !app_assoc.
      apply Permutation_app_head, Permutation_app_head.
      rewrite (Permutation_app_comm (concat _) [u]). reflexivity.
    + intros Hne. rewrite <- (take_drop_middle vs i c Hc) in Hne.
      apply Forall_app in Hne as [H1 H2]. apply Forall_cons in H2 as [_ H2].
      apply Forall_app. split; [exact H1|]. apply Forall_cons. split; [|exact H2].
      destruct c; discriminate.
    + rewrite length_app. cbn [length]. rewrite length_take, length_drop.
      apply lookup_lt_Some in Hc. lia.
  - split; [|split].
    + rewrite concat_app. cbn [concat]. rewrite app_nil_r. reflexivity.
    + intros Hne. apply Forall_app. split; [exact Hne|]. repeat constructor. discriminate.
    + rewrite length_app. cbn [length]. lia.
Qed.

Lemma values_loop_perm (accept : Page → list string → bool) (orders : nat → list nat)
    (pages : list Page) (k : nat) (vs : list (list string)) :
  concat (values_loop accept orders pages k vs) ≡ₚ concat vs ++ (URL <$> pages)
  ∧ (Forall (λ c, c ≠ []) vs →
     Forall (λ c, c ≠ []) (values_loop accept orders pages k vs))
  ∧ (length (values_loop accept orders pages k vs) ≤ length vs + length pages)%nat.
Proof.
  revert k vs. induction pages as [|p pages IH]; intros k vs.
  - cbn [values_loop fmap list_fmap length]. rewrite app_nil_r.
    split; [reflexivity|]. split; [intros H; exact H | lia].
  - cbn [values_loop].
    destruct (IH (S k) (step_values (accept p) (orders k) (URL p) vs)) as (I1 & I2 & I3).
    destruct (step_values_perm (accept p) (orders k) (URL p) vs) as (S1 & S2 & S3).
    split; [|split].
    + rewrite I1, S1, fmap_cons, <- app_assoc. reflexivity.
    + intros Hne. apply I2, S2, Hne.
    + simpl. lia.
Qed.

Lemma clusterLoop_keys (rt : Runtime) (keys0 : list string) (pages : list Page)
    (k : nat) (s : Session) (nu : nat) :
  NoDup keys0 → Inj (=) (=) (uuid_New rt) → (∀ n, uuid_New rt n ∉ keys0) →
  (PageSimilarityClusters s).*1 = keys_after rt keys0 nu →
  (PageSimilarityClusters (clusterLoop rt pages k (s, nu)).1).*1
  = keys_after rt keys0 (clusterLoop rt pages k (s, nu)).2
  ∧ Pages (clusterLoop rt pages k (s, nu)).1 = Pages s.
Proof.
  intros Hnd Hinj Hnew. revert k s nu.
  induction pages as [|page pages IH]; intros k s nu Hkeys; [split; [exact Hkeys | reflexivity]|].
  cbn [Main.clusterLoop].
  destruct (clusterPage_values GetSimilarity rt keys0 (clusters_order rt k) page s nu
              Hnd Hinj Hnew Hkeys) as (_ & Hk & Hp).
  destruct (clusterPage rt (clusters_order rt k) page (s, nu)) as [s' nu'].
  simpl in Hk, Hp. destruct (IH (S k) s' nu' Hk) as [I1 I2].
  split; [exact I1 | rewrite I2; exact Hp].
Qed.

(** X20. The pass sorts the pages into clusters: the members of all
    clusters afterwards are the members before and the URLs of the pages
    that the pass went through, each as often as it was gone through, so a
    page is put into exactly one cluster.  The keys of the clusters are
    distinct, there is at most one new cluster a page, and no cluster is
    empty unless it was before. *)
Theorem clusterPages_sorts_every_page (rt : Runtime) (s : Session) :
  fresh_for rt (PageSimilarityClusters s) →
  let m := PageSimilarityClusters s in
  let m' := PageSimilarityClusters (clusterPages rt s) in
  concat m'.*2 ≡ₚ concat m.*2 ++ (URL <$> range_Pages rt s)
  ∧ NoDup m'.*1
  ∧ (length m' ≤ length m + length (range_Pages rt s))%nat
  ∧ (Forall (λ c, c ≠ []) m.*2 → Forall (λ c, c ≠ []) m'.*2)
  ∧ (m = [] → NoDup (URL <$> range_Pages rt s) → NoDup (concat m'.*2)).
Proof.
  intros Hf. cbv zeta. pose proof Hf as (Hnd & Hinj & Hnew).
  rewrite (clusterPages_values GetSimilarity rt s Hf).
  destruct (values_loop_perm (addToCluster s) (clusters_order rt) (range_Pages rt s) 0
              (PageSimilarityClusters s).*2) as (P1 & P2 & P3).
  split; [exact P1|]. split; [|split; [|split; [exact P2|]]].
  - unfold Main.clusterPages. cbn [log PageSimilarityClusters].
    set (s0 := log s Out.Important "Clustering similar pages...").
    destruct (clusterLoop_keys rt (PageSimilarityClusters s).*1 (range_Pages rt s0) 0 s0 0
                Hnd Hinj Hnew) as [-> _].
    { unfold keys_after. simpl. rewrite app_nil_r. reflexivity. }
    apply keys_after_NoDup; assumption.
  - rewrite <- (length_fmap snd (PageSimilarityClusters (clusterPages rt s))).
    rewrite (clusterPages_values GetSimilarity rt s Hf).
    rewrite length_fmap in P3. exact P3.
  - intros Hm Hu. rewrite P1, Hm. simpl. exact Hu.
Qed.

Lemma like_its_predecessors_known (s : Session) (m : Clusters) :
  like_its_predecessors s m → members_known s m.
Proof.
  intros H k c u Hin Hu. apply list_elem_of_split in Hu as (l1 & l2 & ->).
  destruct (H k _ l1 u l2 Hin eq_refl) as (page & Hp & _). eauto.
Qed.

Lemma clusterPage_like (rt : Runtime) (keys0 : list string) (order : list nat)
    (page : Page) (s s0 : Session) (nu : nat) :
  NoDup keys0 → Inj (=) (=) (uuid_New rt) → (∀ n, uuid_New rt n ∉ keys0) →
  (PageSimilarityClusters s).*1 = keys_after rt keys0 nu →
  Pages s = Pages s0 →
  GetPage s0 (URL page) = Some page →
  like_its_predecessors s0 (PageSimilarityClusters s) →
  like_its_predecessors s0 (PageSimilarityClusters (clusterPage rt order page (s, nu)).1).
Proof.
  intros Hnd0 Hinj Hnew Hkeys Hpages Hpage Hlike.
  destruct (keys_after_NoDup rt keys0 nu Hnd0 Hinj Hnew) as [Hnd _].
  rewrite <- Hkeys in Hnd.
  unfold Main.clusterPage.
  destruct (findCluster s page _) as [kk|] eqn:F; cbn [fst with_clusters PageSimilarityClusters];
    intros k c l1 u l2 Hin Hc; apply cl_set_elem in Hin as [Hin | [= -> ->]].
  - exact (Hlike k c l1 u l2 Hin Hc).
  - apply findCluster_Some in F as (before & c & after & Hv & _ & Hacc).
    assert ((kk, c) ∈ range_clusters order (PageSimilarityClusters s)) as Hr
      by (rewrite Hv; apply elem_of_app; right; left).
    apply range_clusters_elem in Hr as [i Hi].
    rewrite (cl_get_lookup _ i kk c Hnd Hi) in Hc.
    assert ((kk, c) ∈ PageSimilarityClusters s) as Hold
      by (eapply list_elem_of_lookup_2, Hi).
    destruct l2 as [|y l2 _] using rev_ind.
    + apply app_inj_tail in Hc as [-> <-].
      exists page. split; [exact Hpage|].
      rewrite (addToCluster_Pages GetSimilarity s0 s page l1 Hpages) in Hacc.
      apply (addToCluster_spec GetSimilarity s0 page l1); [|exact Hacc].
      intros x Hx. eapply (like_its_predecessors_known s0 _ Hlike); eassumption.
    + rewrite app_comm_cons, app_assoc in Hc.
      apply app_inj_tail in Hc as [Hc _].
      exact (Hlike kk c l1 u l2 Hold Hc).
  - exact (Hlike k c l1 u l2 Hin Hc).
  - destruct l1 as [|x l1]; [|destruct l1; discriminate Hc].
    injection Hc as <- _. exists page. split; [exact Hpage|].
    intros x Hx. inversion Hx.
Qed.

Lemma clusterLoop_like (rt : Runtime) (keys0 : list string) (s0 : Session)
    (pages : list Page) (k : nat) (s : Session) (nu : nat) :
  NoDup keys0 → Inj (=) (=) (uuid_New rt) → (∀ n, uuid_New rt n ∉ keys0) →
  Forall (λ page, GetPage s0 (URL page) = Some page) pages →
  (PageSimilarityClusters s).*1 = keys_after rt keys0 nu →
  Pages s = Pages s0 →
  like_its_predecessors s0 (PageSimilarityClusters s) →
  like_its_predecessors s0 (PageSimilarityClusters (clusterLoop rt pages k (s, nu)).1).
Proof.
  intros Hnd Hinj Hnew Hall. revert k s nu.
  induction Hall as [|page pages Hpage _ IH]; intros k s nu Hkeys Hpages Hlike;
    [exact Hlike|].
  cbn [Main.clusterLoop].
  pose proof (clusterPage_like rt keys0 (clusters_order rt k) page s s0 nu
                Hnd Hinj Hnew Hkeys Hpages Hpage Hlike) as Hl.
  destruct (clusterPage_values GetSimilarity rt keys0 (clusters_order rt k) page s nu
              Hnd Hinj Hnew Hkeys) as (_ & Hk & Hp).
  destruct (clusterPage rt (clusters_order rt k) page (s, nu)) as [s' nu'].
  simpl in Hk, Hp, Hl. apply IH; [exact Hk | rewrite Hp; exact Hpages | exact Hl].
Qed.

(** X21. When every page is stored under its own URL, every member of a
    cluster is similar, at 0.80 or more, to each member that joined the
    cluster before it: what holds of the clusters before the pass holds of
    them afterwards, whatever the orders of the iterations are.  Nothing
    is said about members that joined later; the test is made once, when a
    page joins. *)
Theorem clusters_hold_similar_pages (rt : Runtime) (s : Session) :
  fresh_for rt (PageSimilarityClusters s) →
  keyed_by_URL s →
  like_its_predecessors s (PageSimilarityClusters s) →
  like_its_predecessors s (PageSimilarityClusters (clusterPages rt s)).
Proof.
  intros (Hnd & Hinj & Hnew) Hkey Hlike. unfold Main.clusterPages.
  cbn [log PageSimilarityClusters].
  set (s0 := log s Out.Important "Clustering similar pages...").
  apply (clusterLoop_like rt (PageSimilarityClusters s).*1 s (range_Pages rt s0) 0 s0 0
           Hnd Hinj Hnew).
  - unfold range_Pages. apply Forall_forall. intros page Hin.
    apply list_elem_of_omap in Hin as (key & _ & Hk). cbn [s0 log Pages] in Hk.
    unfold GetPage. rewrite (Hkey key page Hk). exact Hk.
  - unfold keys_after. simpl. rewrite app_nil_r. reflexivity.
  - reflexivity.
  - exact Hlike.
Qed.

End ClusterProperties.

Section ClusterSamples.
Import Core Main.

Lemma empty_like (s : Session) : like_its_predecessors lcs_ratio s [].
Proof. intros k c l1 u l2 H. inversion H. Qed.

Lemma three_pages_keyed : keyed_by_URL three_pages.
Proof.
  intros key page H. unfold three_pages, with_Pages in H. cbn [Pages] in H.
  apply elem_of_list_to_map_2 in H.
  repeat (apply elem_of_cons in H as [[= -> ->]|H]); [reflexivity .. | inversion H].
Qed.

Lemma clusterPages_sorts_every_page_witness :
  NoDup (concat (PageSimilarityClusters
                   (clusterPages lcs_ratio (rt_sorted "a-") three_pages)).*2).
Proof.
  destruct (clusterPages_sorts_every_page lcs_ratio (rt_sorted "a-") three_pages
              (uuid_seq_fresh_for "a-")) as (_ & _ & _ & _ & H).
  apply H; [reflexivity | vm_compute; compute_done].
Defined.

(** [url_p] joined [url_a]: its page is like the page of [url_a]. *)
Lemma clusters_hold_similar_pages_witness :
  ∃ page, GetPage three_pages url_p = Some page
          ∧ similar_to_all lcs_ratio three_pages page [url_a].
Proof.
  apply (clusters_hold_similar_pages lcs_ratio (rt_sorted "a-") three_pages
           (uuid_seq_fresh_for "a-") three_pages_keyed (empty_like three_pages)
           "a-0"%string [url_a; url_p] [url_a] url_p []); [|reflexivity].
  rewrite clusters_sorted. left.
Defined.

End ClusterSamples.

(** ** The structure pass *)

Section StructurePass.
Import Core Main.

Variable url_Parse : string → option Go.URL.

Lemma same_but_structure_refl (p : Page) : same_but_structure p p.
Proof. exists (PageStructure p). destruct p; reflexivity. Qed.

Lemma same_but_structure_trans (p q r : Page) :
  same_but_structure p q → same_but_structure q r → same_but_structure p r.
Proof. intros [a ->] [b ->]. exists b. reflexivity. Qed.

Lemma same_but_structure_URL (p q : Page) : same_but_structure p q → URL q = URL p.
Proof. intros [a ->]. reflexivity. Qed.

Lemma structureStep_only (fs : Files) (s : Session) (w : list string) (key : string) :
  pages_parse url_Parse s →
  ∃ s' w', Main.structureStep url_Parse fs (s, w) key = Some (s', w')
           ∧ pages_parse url_Parse s'
           ∧ same_but_pages s s'
           ∧ (∀ k, k ≠ key → Pages s' !! k = Pages s !! k)
           ∧ option_Forall2 same_but_structure (Pages s !! key) (Pages s' !! key)
           ∧ (w' = w ∨ ∃ page, Pages s !! key = Some page ∧ w' = w ++ [line (URL page)]).
Proof.
  intros Hp. unfold Main.structureStep.
  destruct (Pages s !! key) as [page|] eqn:E.
  2: { exists s, w. split; [reflexivity|]. split; [exact Hp|].
       split; [repeat split|]. split; [reflexivity|]. split; [|left; reflexivity].
       rewrite E. constructor. }
  destruct (Hp key page E) as [u Hu].
  unfold BaseFilename, ParsedURL. rewrite Hu. cbn [mbind option_bind].
  destruct (baseFilenameOf_total u) as [base Hb]. rewrite Hb. cbn [mbind option_bind].
  assert (option_Forall2 same_but_structure (Some page) (Pages s !! key)) as Hsame
    by (rewrite E; constructor; apply same_but_structure_refl).
  destruct (bodyFile fs _) as [[structure|]|].
  - assert (pages_parse url_Parse
              (with_Pages s (<[key := set_PageStructure page structure]> (Pages s)))) as Hp'.
    { intros k q. cbn [with_Pages Pages]. rewrite lookup_insert. case_decide as Ek.
      - intros [= <-]. exists u. exact Hu.
      - apply Hp. }
    assert (∀ s1, Pages s1 = <[key := set_PageStructure page structure]> (Pages s) →
                  (∀ k, k ≠ key → Pages s1 !! k = Pages s !! k)
                  ∧ option_Forall2 same_but_structure (Some page) (Pages s1 !! key)) as Hins.
    { intros s1 ->. split.
      - intros k Hk. apply lookup_insert_ne. congruence.
      - rewrite lookup_insert_eq. constructor. exists structure. reflexivity. }
    repeat match goal with |- context [if ?b then _ else _] => destruct b eqn:? end;
      eexists _, _; (split; [reflexivity|]);
      (split; [first [exact Hp' | intros k q; apply Hp']|]);
      (split; [repeat split|]);
      (split; [apply Hins; reflexivity|]);
      (split; [apply Hins; reflexivity|]);
      first [left; reflexivity | right; exists page; split; reflexivity].
  - repeat match goal with |- context [if ?b then _ else _] => destruct b eqn:? end;
      eexists _, _; (split; [reflexivity|]);
      (split; [exact Hp|]); (split; [repeat split|]);
      (split; [reflexivity|]); (split; [exact Hsame | left; reflexivity]).
  - eexists _, _; (split; [reflexivity|]);
      (split; [exact Hp|]); (split; [repeat split|]);
      (split; [reflexivity|]); (split; [exact Hsame | left; reflexivity]).
Qed.

Lemma structuresLoop_only (fs : Files) (keys : list string) (s : Session)
    (w : list string) :
  pages_parse url_Parse s →
  ∃ s' w', Main.structuresLoop url_Parse fs keys (s, w) = Some (s', w')
           ∧ pages_parse url_Parse s'
           ∧ same_but_pages s s'
           ∧ (∀ k, k ∉ keys → Pages s' !! k = Pages s !! k)
           ∧ (∀ k, option_Forall2 same_but_structure (Pages s !! k) (Pages s' !! k))
           ∧ ∃ new, w' = w ++ new
                    ∧ (length new ≤ length keys)%nat
                    ∧ Forall (λ l, ∃ key page, key ∈ keys ∧ Pages s !! key = Some page
                                               ∧ l = line (URL page)) new.
Proof.
  revert s w. induction keys as [|key keys IH]; intros s w Hp.
  - exists s, w. split; [reflexivity|]. split; [exact Hp|]. split; [repeat split|].
    split; [reflexivity|]. split.
    + intros k. destruct (Pages s !! k); constructor. apply same_but_structure_refl.
    + exists []. rewrite app_nil_r. repeat split; [simpl; lia | constructor].
  - change (Main.structuresLoop url_Parse fs (key :: keys) (s, w))
      with (Main.structureStep url_Parse fs (s, w) key
              ≫= λ st', Main.structuresLoop url_Parse fs keys st').
    destruct (structureStep_only fs s w key Hp)
      as (s1 & w1 & -> & Hp1 & Hk1 & Ho1 & Hs1 & Hw1).
    cbn [mbind option_bind].
    destruct (IH s1 w1 Hp1) as (s2 & w2 & -> & Hp2 & Hk2 & Ho2 & Hs2 & new & -> & Hl & Hn).
    assert (∀ k, option_Forall2 same_but_structure (Pages s !! k) (Pages s1 !! k)) as Hall1.
    { intros k. destruct (decide (k = key)) as [->|Hne]; [exact Hs1|].
      rewrite (Ho1 k Hne). destruct (Pages s !! k); constructor.
      apply same_but_structure_refl. }
    exists s2, (w1 ++ new). split; [reflexivity|]. split; [exact Hp2|].
    split.
    { destruct Hk1 as (A1 & A2 & A3 & A4 & A5), Hk2 as (B1 & B2 & B3 & B4 & B5).
      repeat split; congruence. }
    split.
    { intros k Hk. apply not_elem_of_cons in Hk as [Hne Hk].
      rewrite (Ho2 k Hk). apply Ho1, Hne. }
    split.
    { intros k. specialize (Hall1 k). specialize (Hs2 k).
      destruct Hall1 as [p p1 H1|]; inversion Hs2 as [q p2 H2|]; subst; constructor.
      eapply same_but_structure_trans; eassumption. }
    assert (Forall (λ l, ∃ key0 page, key0 ∈ key :: keys ∧ Pages s !! key0 = Some page
                                     ∧ l = line (URL page)) new) as Hn'.
    { eapply Forall_impl; [exact Hn|]. cbn beta. intros l (k0 & page & Hin & Hpg & ->).
      specialize (Hall1 k0). rewrite Hpg in Hall1.
      inversion Hall1 as [p p1 H1 Ep E1|]; subst.
      exists k0, p. split; [right; exact Hin|]. split; [symmetry; exact Ep|].
      rewrite (same_but_structure_URL _ _ H1). reflexivity. }
    destruct Hw1 as [->|(page & Hpg & ->)].
    + exists new. split; [reflexivity|]. split; [simpl; lia | exact Hn'].
    + exists (line (URL page) :: new). rewrite <- app_assoc.
      split; [reflexivity|]. split; [simpl; lia|].
      constructor; [|exact Hn']. exists key, page. split; [left|]. split; [exact Hpg | reflexivity].
Qed.

(** X22. The first loop of [analyzePages] ends for every session whose
    stored URLs parse and changes nothing but the structures of the pages
    it goes through: every page keeps its URL and all its other fields, no
    page is added or dropped, and options, counters, ports, clusters and
    published events stay.  It writes to aquatone_urls.txt at most one line a
    key, each the URL of a stored page. *)
Theorem structures_pass_changes_structures_only (fs : Files) (keys : list string)
    (s : Session) :
  pages_parse url_Parse s →
  ∃ s' written,
    Main.structuresLoop url_Parse fs keys (s, []) = Some (s', written)
    ∧ (∀ k, option_Forall2 same_but_structure (Pages s !! k) (Pages s' !! k))
    ∧ (∀ k, k ∉ keys → Pages s' !! k = Pages s !! k)
    ∧ same_but_pages s s'
    ∧ (length written ≤ length keys)%nat
    ∧ Forall (λ l, ∃ key page, key ∈ keys ∧ Pages s !! key = Some page
                               ∧ l = line (URL page)) written.
Proof.
  intros Hp.
  destruct (structuresLoop_only fs keys s [] Hp)
    as (s' & w' & Hrun & _ & Hk & Ho & Hs & new & -> & Hl & Hn).
  exists s', new. repeat split; try assumption; apply Hk.
Qed.

End StructurePass.

Section StructurePassSample.
Import Core Main.

Lemma example_session_parses : pages_parse Go.Parse example_session.
Proof.
  intros key page H. unfold example_session, with_Pages in H. cbn [Pages] in H.
  apply lookup_singleton_Some in H as [_ <-]. vm_compute. eauto.
Qed.

Lemma structures_pass_changes_structures_only_witness :
  ∃ s' written,
    structuresLoop Go.Parse files_urls_and_session_fail ["http://example.com/"%string]
                   (example_session, []) = Some (s', written)
    ∧ URL <$> Pages s' !! "http://example.com/"%string = Some "http://example.com/"%string
    ∧ stats s' = stats example_session.
Proof.
  destruct (structures_pass_changes_structures_only Go.Parse files_urls_and_session_fail
              ["http://example.com/"%string] example_session example_session_parses)
    as (s' & written & Hrun & Hs & _ & (_ & Hst & _) & _).
  exists s', written. split; [exact Hrun|]. split; [|exact Hst].
  specialize (Hs "http://example.com/"%string).
  inversion Hs as [p p' Hpp Ep Ep'|].
  cbn [fmap option_fmap option_map]. rewrite (same_but_structure_URL _ _ Hpp).
  unfold example_session, with_Pages in Ep. cbn [Pages] in Ep.
  rewrite lookup_singleton_eq in Ep. reflexivity.
Defined.

End StructurePassSample.

(** ** The driver with a session file *)

Section SessionFlag.
Import Core Main.

Variable url_Parse : string → option Go.URL.
Variable url_ParseRequestURI : string → option Go.URL.
Variable GetSimilarity : list string → list string → Q.

Local Abbreviation main := (Main.main url_Parse url_ParseRequestURI GetSimilarity).

(** X23. With [--session], [main] only writes the report of the session
    file: it ends with status 0 exactly when the file is loaded and the
    report is produced, and with 1 otherwise; it registers no agent and reads
    no targets, whatever they would have answered, so it publishes nothing,
    stores and clusters no page, counts nothing and writes no line to
    aquatone_urls.txt. *)
Theorem session_flag_only_reports (su : Startup) (fs : Files) (rt : Runtime)
    (sess : Session) (path : string) :
  newSession su = Some sess →
  Version (options sess) = Some false →
  outDir_stat su = Directory →
  SessionPath (options sess) = Some path →
  path ≠ ""%string →
  ∃ code s',
    main su fs rt = Some (code, Some s', [])
    ∧ (code = 0 ↔ sessionFile_loads su = true ∧ report_ok fs = true)
    ∧ (code = 1 ↔ sessionFile_loads su = false ∨ report_ok fs = false)
    ∧ published s' = published sess
    ∧ Pages s' = Pages sess
    ∧ PageSimilarityClusters s' = PageSimilarityClusters sess
    ∧ stats s' = stats sess
    ∧ (∀ agents targets rt',
         main (mkStartup (newSession su) (outDir_stat su) (sessionFile_loads su)
                         agents targets) fs rt'
         = main su fs rt).
Proof.
  intros H1 H2 H3 H4 Hne.
  assert (String.eqb path "" = false) as Hp by (apply String.eqb_neq; exact Hne).
  unfold Main.main. cbn [newSession outDir_stat sessionFile_loads].
  rewrite H1, H2, H3. unfold loadSessionAndGenerateReport.
  cbn [options log]. rewrite H4. cbn [mbind option_bind]. rewrite Hp.
  unfold report_ok.
  destruct (sessionFile_loads su); cbn [negb];
    [destruct (template_reads fs); cbn [negb andb];
     [destruct (report_opens fs); cbn [negb andb];
      [destruct (report_renders fs); cbn [negb andb]|]|]|];
    eexists _, _; (split; [reflexivity|]);
    (split; [split; [intros H; first [discriminate H | split; reflexivity]
                    | intros [Ha Hb]; first [discriminate Ha | discriminate Hb | reflexivity]]|]);
    (split; [split; [intros H; first [discriminate H | left; reflexivity | right; reflexivity]
                    | intros [H|H]; first [discriminate H | reflexivity]]|]);
    (split; [destruct (report_closes fs); reflexivity|]);
    (split; [destruct (report_closes fs); reflexivity|]);
    (split; [destruct (report_closes fs); reflexivity|]);
    (split; [destruct (report_closes fs); reflexivity|]);
    intros agents targets rt'; reflexivity.
Qed.

End SessionFlag.

Section SessionFlagSample.
Import Core Main.

(** A run with [--session old.json] whose report cannot be rendered. *)
Lemma session_flag_only_reports_witness :
  ∃ s', Main.main Go.Parse Go.ParseRequestURI lcs_ratio
          (mkStartup
             (Some (empty_session
                      (ParseOptions "80,443"
                         (mkCommandLine None None (Some "old.json"%string) None None None
                                        None None None None None None None None None None))
                      [80; 443]))
             Directory true true (Some ["example.com"%string]))
          (mkFiles true (λ _, true) true (λ _, None) (λ _, true) true true false true true)
          runtime_in_order
        = Some (1, Some s', [])
        ∧ published s' = [].
Proof.
  destruct (session_flag_only_reports Go.Parse Go.ParseRequestURI lcs_ratio
              (mkStartup
                 (Some (empty_session
                          (ParseOptions "80,443"
                             (mkCommandLine None None (Some "old.json"%string) None None None
                                            None None None None None None None None None None))
                          [80; 443]))
                 Directory true true (Some ["example.com"%string]))
              (mkFiles true (λ _, true) true (λ _, None) (λ _, true) true true false true true)
              runtime_in_order _ "old.json" eq_refl eq_refl eq_refl eq_refl
              ltac:(discriminate))
    as (code & s' & Hrun & _ & Hc & Hpub & _).
  assert (code = 1) as -> by (apply Hc; right; reflexivity).
  exists s'. split; [exact Hrun | exact Hpub].
Defined.

End SessionFlagSample.

(** ** Options that come from the command line *)

Section ParsedOptions.
Import Core.

(** X24. The options that [ParseOptions] returns hold no nil pointer, so
    for a session with such options no agent panics where it reads one: the
    port goroutines, the TLS probe, the screenshot deadline, the search for
    Chrome and the registration of the screenshotter all return.  The one
    panic left is in the registration of the port scanner, which makes a
    channel of [--threads] slots: it panics exactly when [--threads] is
    negative. *)
Theorem parsed_options_never_nil (defaultPorts : string) (cl : CommandLine)
    (s : Session) :
  options s = ParseOptions defaultPorts cl →
  (∀ a, (∃ why, Agents.Register None a s = Agents.Panicked why)
        ↔ ∃ n, flag_threads cl = Some n ∧ n < 0)
  ∧ is_Some (Agents.scanTimeout s)
  ∧ (∀ net port host acts, is_Some (Agents.scanWorkerBody net port host (s, acts)))
  ∧ is_Some (Agents.screenshotDeadline s)
  ∧ (∀ HostAndPortToURL tls port host dials,
       is_Some (Publisher.OnTCPPort HostAndPortToURL tls port host (s, dials)))
  ∧ (∀ m a dirs, is_Some (Screenshotter.locateChrome m a (Screenshotter.mkWorld s dirs)))
  ∧ (∀ sub_responsive sub_end m a dirs,
       is_Some (Screenshotter.Register sub_responsive sub_end m a
                  (Screenshotter.mkWorld s dirs))).
Proof.
  intros Ho.
  assert (∀ m a w, options (Screenshotter.w_session w) = options s →
                   is_Some (Screenshotter.locateChrome m a w)) as Hlocate.
  { intros m a w Hw. unfold Screenshotter.locateChrome. rewrite Hw, Ho.
    cbn [ParseOptions ChromePath mbind option_bind].
    destruct (negb _); [destruct (Screenshotter.os_Stat m _); eauto|].
    destruct (String.eqb _ ""); [eauto|].
    destruct (Screenshotter.chrome_version m _); eauto. }
  split; [|split; [|split; [|split; [|split; [|split]]]]].
  - intros a. unfold Agents.Register. rewrite Ho. cbn [ParseOptions Threads].
    destruct (flag_threads cl) as [n|]; cbn.
    + destruct (Z.ltb_spec n 0).
      * split; [intros _; exists n; split; [reflexivity | assumption]
               | intros _; eexists; reflexivity].
      * split; [intros [why H']; discriminate H'
               | intros (n' & [= <-] & Hn); lia].
    + split; [intros [why H']; discriminate H' | intros (n' & Hn & _); discriminate Hn].
  - unfold Agents.scanTimeout. rewrite Ho. cbn. eauto.
  - intros net port host acts.
    apply (scanWorkerBody_ends net port host (s, acts)
             (default 100 (flag_scan_timeout cl))).
    cbn [fst]. rewrite Ho. reflexivity.
  - unfold Agents.screenshotDeadline. rewrite Ho. cbn. eauto.
  - intros H tls port host dials.
    destruct (OnTCPPort_total H tls port host s dials) as (s' & d' & E).
    + rewrite Ho. cbn. eauto.
    + rewrite E. eauto.
  - intros m a dirs. apply Hlocate. reflexivity.
  - intros sub1 sub2 m a dirs. unfold Screenshotter.Register.
    destruct sub1; [eauto|]. unfold Screenshotter.createTempUserDir.
    destruct (Screenshotter.os_MkdirTemp m); [|eauto].
    match goal with |- context [Screenshotter.locateChrome m ?a1 ?w1] =>
      destruct (Hlocate m a1 w1) as [[[err a'] w'] ->] end.
    + destruct sub2; reflexivity.
    + cbn [mbind option_bind]. destruct err; eauto.
Qed.

Lemma parsed_options_never_nil_witness :
  is_Some (Agents.scanTimeout example_session)
  ∧ is_Some (Agents.screenshotDeadline example_session).
Proof.
  destruct (parsed_options_never_nil "80,443,8000,8080,8443" no_flags example_session
              eq_refl) as (_ & H1 & _ & H2 & _).
  split; [exact H1 | exact H2].
Defined.

End ParsedOptions.

(** ** From the input to the event bus *)

Section InputToBus.
Import Core Main Parsers.

Variable FindAllString : string → list string.
Variable url_ParseRequestURI : string → option Go.URL.

Lemma target_events_NoDup (targets : list string) :
  NoDup targets →
  NoDup (concat (map (target_events url_ParseRequestURI) targets))
  ∧ ∀ e, e ∈ concat (map (target_events url_ParseRequestURI) targets) →
         ∃ t, t ∈ targets ∧ (e = mkEvent Topic.Host [AString t]
                             ∨ e = mkEvent Topic.URL [AString t]).
Proof.
  assert (∀ t e, e ∈ target_events url_ParseRequestURI t →
                 e = mkEvent Topic.Host [AString t] ∨ e = mkEvent Topic.URL [AString t])
    as Hev.
  { intros t e. unfold target_events.
    destruct (isURL _ t); [destruct (hasSupportedScheme _ t)|]; intros H;
      [apply list_elem_of_singleton in H; right; exact H
      | inversion H
      | apply list_elem_of_singleton in H; left; exact H]. }
  assert (∀ t, NoDup (target_events url_ParseRequestURI t)) as Hone.
  { intros t. unfold target_events.
    destruct (isURL _ t); [destruct (hasSupportedScheme _ t)|];
      first [apply NoDup_singleton | apply NoDup_nil_2]. }
  induction 1 as [|t targets Hnin Hnd [IH1 IH2]]; simpl.
  - split; [constructor | intros e H; inversion H].
  - split.
    + apply NoDup_app. split; [apply Hone|]. split; [|exact IH1].
      intros e He He'. destruct (IH2 e He') as (t' & Ht' & Hor).
      apply Hev in He.
      destruct He as [He|He]; destruct Hor as [Hor|Hor]; rewrite He in Hor;
        try discriminate Hor; injection Hor as <-; contradiction.
    + intros e He. apply elem_of_app in He as [He|He].
      * exists t. split; [left | apply Hev, He].
      * destruct (IH2 e He) as (t' & Ht' & Hor). exists t'. split; [right; exact Ht' | exact Hor].
Qed.

(** X25. Reading the input with the regex parser and handing the targets
    to the bus: between [SessionStart] and [SessionEnd] every event is the
    [Host] or the [URL] event of a match of the input, and no event is
    published twice, however often a target occurs in the input. *)
Theorem parsed_targets_are_published_once (lines : list string) (s : Session) :
  ∃ events,
    published (processTargets url_ParseRequestURI s (Parse FindAllString lines).1)
    = published s ++ mkEvent Topic.SessionStart [] :: events
        ++ [mkEvent Topic.SessionEnd []]
    ∧ NoDup events
    ∧ ∀ e, e ∈ events →
        ∃ t, t ∈ concat (FindAllString <$> lines)
             ∧ (e = mkEvent Topic.Host [AString t] ∨ e = mkEvent Topic.URL [AString t]).
Proof.
  set (targets := (Parse FindAllString lines).1).
  assert (NoDup targets ∧ ∀ t, t ∈ targets → t ∈ concat (FindAllString <$> lines))
    as [Hnd Hsub].
  { subst targets. unfold Parse. cbn [fst]. rewrite Parse_flat.
    assert (∀ x : string, x ∈ (∅ : gset string) ↔ x ∈ ([] : list string)) as H0.
    { intros x. rewrite elem_of_empty. split; [tauto | intros H; inversion H]. }
    destruct (foldl_keep_spec (concat (FindAllString <$> lines)) [] ∅ H0 NoDup_nil_2)
      as (new & E1 & _ & E3 & _ & E5).
    simpl in E1, E3. rewrite E1. split; [exact E3|]. intros t Ht. apply E5, Ht. }
  destruct (target_events_NoDup targets Hnd) as [He1 He2].
  exists (concat (map (target_events url_ParseRequestURI) targets)).
  split; [|split; [exact He1|]].
  - unfold Main.processTargets. cbn [Publish published].
    rewrite foldl_publishTarget_published. cbn [Publish published].
    rewrite <- !app_assoc. reflexivity.
  - intros e He. destruct (He2 e He) as (t & Ht & Hor).
    exists t. split; [apply Hsub, Ht | exact Hor].
Qed.

End InputToBus.

(** ** Pages from their constructor *)

Section NewPageProperties.
Import Core PageMethods NewPages.

Variable url_Parse : string → option Go.URL.
Variable URL_Hostname : Go.URL → string.
Variable net_ParseIP : string → bool.

(** X26. [NewPage] fails exactly when the URL does not parse.  A page that
    it returns, also after any calls of [AddHeader], [AddTag] and [AddNote],
    keeps the URL it was made for, so [BaseFilename] and [IsIPHost] do not
    panic on it; its base file name does not change with those calls, and
    [IsIPHost] tells whether the [Hostname] stored in the page is an IP
    address. *)
Theorem NewPage_page_is_safe (uuid pageURL : string) (calls : list PageCall) :
  (NewPage url_Parse URL_Hostname uuid pageURL = None ↔ url_Parse pageURL = None)
  ∧ ∀ p, NewPage url_Parse URL_Hostname uuid pageURL = Some p →
      URL (foldl do_call p calls) = pageURL
      ∧ is_Some (BaseFilename url_Parse (foldl do_call p calls))
      ∧ BaseFilename url_Parse (foldl do_call p calls) = BaseFilename url_Parse p
      ∧ IsIPHost url_Parse URL_Hostname net_ParseIP (foldl do_call p calls)
        = Some (net_ParseIP (Hostname (foldl do_call p calls)))
      ∧ Headers (foldl do_call p calls) = headers_of calls.
Proof.
  unfold NewPage. split.
  - destruct (url_Parse pageURL); split; congruence.
  - intros p Hp. rewrite do_calls.
    destruct (url_Parse pageURL) as [u|] eqn:Hu; [|discriminate].
    injection Hp as <-.
    unfold IsIPHost, BaseFilename, ParsedURL. cbn [URL Hostname Headers app].
    rewrite Hu. cbn [mbind option_bind].
    repeat split. apply baseFilenameOf_total.
Qed.

End NewPageProperties.

Section NewPageSample.
Import Core PageMethods NewPages.

(** A page for http://example.com/, two calls later. *)
Lemma NewPage_page_is_safe_witness :
  BaseFilename Go.Parse
    (foldl do_call (mkPage "page-1" "http://example.com/" "example.com" [] "" "" []
                           "" "" "" false [] [] [])
           [CallAddHeader "Server" "nginx"; CallAddTag "CMS" "tech" ""])
  = BaseFilename Go.Parse
      (mkPage "page-1" "http://example.com/" "example.com" [] "" "" []
              "" "" "" false [] [] []).
Proof.
  apply (NewPage_page_is_safe Go.Parse Go.Host (λ _, false) "page-1" "http://example.com/"
           [CallAddHeader "Server" "nginx"; CallAddTag "CMS" "tech" ""]).
  vm_compute. reflexivity.
Defined.

End NewPageSample.
